(** * op-tcg: world-map seeding, baseline reconciliation and the user model

    A shallow embedding of [server/src/models/User.ts] and of the seed script
    [server/src/scripts/seed-world-map-data.ts] (with the world-map block of
    [initializeApp] in [server/src/app.ts]).

    The code talks to a SQLite store through [Database.run], [Database.get]
    and [Database.all].  The store is modelled as a record of tables (lists of
    rows, in insertion order); every SQL statement of the sources is a
    constructor of [Stmt] with its effect given by [exec]; asynchronous
    functions become computations of the monad [M], which threads the store,
    the journal of statements written and the console, and may throw. *)

From Stdlib Require Import Ascii String ZArith List Bool Lia DecimalString Relations Permutation.
From Stdlib Require Import SpecFloat.
Import ListNotations.
Local Open Scope string_scope.
Local Open Scope Z_scope.
Local Open Scope list_scope.

(** ** Numbers *)

(** A JavaScript [number] is an IEEE 754 double: 53 bits of precision,
    exponents below 1024. *)
Definition number : Type := spec_float.

(** The [number] a whole literal denotes, rounded to the nearest double
    (ties to even) where it is not one. *)
Definition of_int (z : Z) : number := binary_normalize 53 1024 z 0 false.

(** The whole number a [number] is, when it is one; [-0] is 0. *)
Definition to_int (x : number) : option Z :=
  match x with
  | S754_zero _ => Some 0
  | S754_finite s m e =>
      match e with
      | Zneg p =>
          if Zpos m mod 2 ^ Zpos p =? 0
          then Some (if s then - (Zpos m / 2 ^ Zpos p) else Zpos m / 2 ^ Zpos p)
          else None
      | _ => Some (if s then - (Zpos m * 2 ^ e) else Zpos m * 2 ^ e)
      end
  | S754_infinity _ | S754_nan => None
  end.

Definition int32 (z : Z) : bool := (-2147483648 <=? z) && (z <=? 2147483647).

Definition int64 (z : Z) : bool :=
  (-9223372036854775808 <=? z) && (z <=? 9223372036854775807).

(** A value of one of SQLite's numeric storage classes, or NULL.  A REAL is
    never NaN: SQLite turns a NaN into NULL. *)
Inductive SqlValue :=
| NULL
| INTEGER (i : Z)
| REAL (x : number).

(** A [number] passed as a statement parameter.  The SQLite driver behind
    [Database.run] (the wrapper is not among the sources) binds a number that
    is a 32-bit integer with [sqlite3_bind_int], any other with
    [sqlite3_bind_double]. *)
Definition bind_number (x : number) : SqlValue :=
  match x with
  | S754_nan => NULL
  | _ =>
      match to_int x with
      | Some z => if int32 z then INTEGER z else REAL x
      | None => REAL x
      end
  end.

(** The double a REAL result is kept as. *)
Definition sql_real (x : number) : SqlValue :=
  match x with
  | S754_nan => NULL
  | _ => REAL x
  end.

(** An operand of floating-point arithmetic: an INTEGER is converted. *)
Definition as_real (v : SqlValue) : number :=
  match v with
  | NULL => S754_zero false
  | INTEGER i => of_int i
  | REAL x => x
  end.

(** SQL's [a + b]: 64-bit integer addition on two INTEGERs, floating-point
    addition when one operand is REAL or the integer sum overflows, NULL
    when an operand is NULL. *)
Definition sql_add (a b : SqlValue) : SqlValue :=
  match a, b with
  | NULL, _ | _, NULL => NULL
  | INTEGER i, INTEGER j =>
      if int64 (i + j) then INTEGER (i + j)
      else sql_real (SFadd 53 1024 (of_int i) (of_int j))
  | _, _ => sql_real (SFadd 53 1024 (as_real a) (as_real b))
  end.

(** An INTEGER against a REAL, compared by value. *)
Definition compare_int_real (i : Z) (y : number) : comparison :=
  match y with
  | S754_nan => Gt
  | S754_infinity s => if s then Gt else Lt
  | S754_zero _ => i ?= 0
  | S754_finite s m e =>
      let v := if s then Zneg m else Zpos m in
      match e with
      | Zneg p => i * 2 ^ Zpos p ?= v
      | _ => i ?= v * 2 ^ e
      end
  end.

Definition sql_compare (a b : SqlValue) : comparison :=
  match a, b with
  | INTEGER i, INTEGER j => i ?= j
  | INTEGER i, REAL y => compare_int_real i y
  | REAL x, INTEGER j => CompOpp (compare_int_real j x)
  | REAL x, REAL y => match SFcompare x y with Some c => c | None => Eq end
  | _, _ => Eq
  end.

(** SQL's scalar [MIN(a, b)]: NULL when an argument is NULL, else the
    smaller argument, the second one when they are equal. *)
Definition sql_min (a b : SqlValue) : SqlValue :=
  match a, b with
  | NULL, _ | _, NULL => NULL
  | _, _ => match sql_compare a b with Lt => a | _ => b end
  end.

(** What a column of INTEGER affinity keeps of a value: a REAL that is a
    whole number strictly inside the 64-bit range becomes that INTEGER. *)
Definition integer_affinity (v : SqlValue) : SqlValue :=
  match v with
  | REAL x =>
      match to_int x with
      | Some z =>
          if (-9223372036854775808 <? z) && (z <? 9223372036854775807) then INTEGER z else v
      | None => v
      end
  | _ => v
  end.

(** ** Rows *)

(** A row of [users]; the columns are those of [interface User]. Booleans are
    stored as 0/1 and read back with [is_active = 1].  [berrys] is a numeric
    column of INTEGER affinity (the schema is in the migrations, which are not
    among the sources). *)
Record UserRow := mkUserRow {
  u_id : string;
  u_username : string;
  u_password_hash : string;
  u_created_at : string;
  u_updated_at : string;
  u_last_login : option string;
  u_is_admin : bool;
  u_is_active : bool;
  u_available_boosters : option Z;
  u_next_booster_time : option string;
  u_boosters_opened_today : option Z;
  u_last_booster_opened : option string;
  u_berrys : SqlValue;
  u_favorite_card_id : option string
}.

Inductive JsDate := Date (iso : string).

(** The object [findById] returns: [{...user, next_booster_time, last_booster_opened}],
    the row's columns spread, the two date columns overridden. *)
Record User := mkUser {
  columns : UserRow;
  next_booster_time : option JsDate;
  last_booster_opened : option JsDate
}.

Record UserCreate := mkUserCreate {
  uc_username : string;
  uc_password : string
}.

(** [interface UserUpdate]: every property optional, [None] is [undefined]. *)
Record UserUpdate := mkUserUpdate {
  upd_username : option string;
  upd_password : option string;
  upd_is_admin : option bool;
  upd_is_active : option bool
}.

Inductive RewardType := berrys | crew_member.

Record IslandData := mkIsland {
  i_id : string;
  i_name : string;
  i_order_index : Z;
  i_description : string;
  i_latitude : Z;
  i_longitude : Z;
  i_unlock_requirement_island_id : option string;
  i_final_reward_type : option RewardType;
  i_final_reward_value : option Z;
  i_final_reward_crew_member_id : option string
}.

Record CrewMemberData := mkCrew {
  c_id : string;
  c_name : string;
  c_description : string;
  c_image_url : string;
  c_unlock_island_id : option string;
  c_order_index : Z
}.

Record QuestData := mkQuest {
  q_id : string;
  q_island_id : string;
  q_name : string;
  q_description : string;
  q_duration_hours : Z;
  q_reward_berrys : Z;
  q_required_crew_count : Z;
  q_specific_crew_member_id : option string;
  q_order_index : Z;
  q_is_repeatable : bool
}.

(** Catalog rows: the seed's columns and [is_active]. *)
Record IslandRow := mkIslandRow { ir_cols : IslandData; ir_is_active : Z }.
Record CrewRow := mkCrewRow { cr_cols : CrewMemberData; cr_is_active : Z }.
Record QuestRow := mkQuestRow { qr_cols : QuestData; qr_is_active : Z }.

(** Per-user unlock records: a (user, entity) pair with its timestamp. *)
Record UserIslandRow := mkUserIsland {
  ui_id : string;
  ui_user_id : string;
  ui_island_id : string;
  ui_unlocked_at : string
}.

Record UserCrewRow := mkUserCrew {
  ucm_id : string;
  ucm_user_id : string;
  ucm_crew_member_id : string;
  ucm_unlocked_at : string
}.

(** Quest instances and history, as the data model of the specification has
    them; times are milliseconds. *)
Record ActiveQuestRow := mkActiveQuest {
  aq_id : string;
  aq_user_id : string;
  aq_quest_id : string;
  aq_crew_member_ids : list string;
  aq_started_at : Z
}.

Record QuestHistoryRow := mkQuestHistory {
  qh_user_id : string;
  qh_quest_id : string;
  qh_crew_member_ids : list string;
  qh_started_at : Z;
  qh_completed_at : Z;
  qh_reward_berrys : Z
}.

(** ** The store *)

(** The tables the sources name.  The schema itself (the migrations) is not
    among the sources: [users_defaults] stands for the values it gives to the
    columns an INSERT leaves out, and no constraint is enforced. *)
Record DB := mkDB {
  users_defaults : UserRow;
  t_users : list UserRow;
  t_islands : list IslandRow;
  t_crew_members : list CrewRow;
  t_quests : list QuestRow;
  t_user_islands : list UserIslandRow;
  t_user_crew_members : list UserCrewRow;
  t_active_quests : list ActiveQuestRow;
  t_quest_history : list QuestHistoryRow
}.

Definition with_users (f : list UserRow -> list UserRow) (d : DB) : DB :=
  mkDB (users_defaults d) (f (t_users d)) (t_islands d) (t_crew_members d) (t_quests d)
       (t_user_islands d) (t_user_crew_members d) (t_active_quests d) (t_quest_history d).

Definition with_islands (f : list IslandRow -> list IslandRow) (d : DB) : DB :=
  mkDB (users_defaults d) (t_users d) (f (t_islands d)) (t_crew_members d) (t_quests d)
       (t_user_islands d) (t_user_crew_members d) (t_active_quests d) (t_quest_history d).

Definition with_crew_members (f : list CrewRow -> list CrewRow) (d : DB) : DB :=
  mkDB (users_defaults d) (t_users d) (t_islands d) (f (t_crew_members d)) (t_quests d)
       (t_user_islands d) (t_user_crew_members d) (t_active_quests d) (t_quest_history d).

Definition with_quests (f : list QuestRow -> list QuestRow) (d : DB) : DB :=
  mkDB (users_defaults d) (t_users d) (t_islands d) (t_crew_members d) (f (t_quests d))
       (t_user_islands d) (t_user_crew_members d) (t_active_quests d) (t_quest_history d).

Definition with_user_islands (f : list UserIslandRow -> list UserIslandRow) (d : DB) : DB :=
  mkDB (users_defaults d) (t_users d) (t_islands d) (t_crew_members d) (t_quests d)
       (f (t_user_islands d)) (t_user_crew_members d) (t_active_quests d) (t_quest_history d).

Definition with_user_crew_members (f : list UserCrewRow -> list UserCrewRow) (d : DB) : DB :=
  mkDB (users_defaults d) (t_users d) (t_islands d) (t_crew_members d) (t_quests d)
       (t_user_islands d) (f (t_user_crew_members d)) (t_active_quests d) (t_quest_history d).

Definition with_active_quests (f : list ActiveQuestRow -> list ActiveQuestRow) (d : DB) : DB :=
  mkDB (users_defaults d) (t_users d) (t_islands d) (t_crew_members d) (t_quests d)
       (t_user_islands d) (t_user_crew_members d) (f (t_active_quests d)) (t_quest_history d).

Definition with_quest_history (f : list QuestHistoryRow -> list QuestHistoryRow) (d : DB) : DB :=
  mkDB (users_defaults d) (t_users d) (t_islands d) (t_crew_members d) (t_quests d)
       (t_user_islands d) (t_user_crew_members d) (t_active_quests d) (f (t_quest_history d)).

(** ** Statements *)

Inductive Table :=
| T_quest_history | T_active_quests | T_user_islands | T_user_crew_members
| T_quests | T_crew_members | T_islands.

(** One [column = ?] of an UPDATE of [users] (of the one that
    [UserModel.update] assembles, for instance), with the value bound to it. *)
Inductive UserAssign :=
| SET_username (v : string)
| SET_password_hash (v : string)
| SET_is_admin (v : bool)
| SET_is_active (v : bool)
| SET_updated_at (v : string)
| SET_last_login (v : string).

(** The statements the sources pass to [Database.run], with their bound
    parameters.  The last five are the writes of the progression ledger and of
    the quest scheduler, which live in [models/WorldMap.ts]. *)
Inductive Stmt :=
| INSERT_users (id username password_hash : string)
| UPDATE_users_SET (fields : list UserAssign) (id : string)
| UPDATE_users_berrys (amount max : number) (id : string)
| UPDATE_islands_coordinates (latitude longitude : Z) (id : string)
| DELETE_FROM (t : Table)
| INSERT_crew_members (id name description image_url : string) (order_index : Z)
| INSERT_islands (island : IslandData)
| UPDATE_crew_members_unlock_island_id (unlock_island_id id : string)
| INSERT_quests (quest : QuestData)
| INSERT_user_islands (r : UserIslandRow)
| INSERT_user_crew_members (r : UserCrewRow)
| INSERT_active_quests (r : ActiveQuestRow)
| INSERT_quest_history (r : QuestHistoryRow)
| DELETE_active_quest (id : string).

Definition assign (a : UserAssign) (u : UserRow) : UserRow :=
  match a with
  | SET_username v =>
      mkUserRow (u_id u) v (u_password_hash u) (u_created_at u) (u_updated_at u)
        (u_last_login u) (u_is_admin u) (u_is_active u) (u_available_boosters u)
        (u_next_booster_time u) (u_boosters_opened_today u) (u_last_booster_opened u)
        (u_berrys u) (u_favorite_card_id u)
  | SET_password_hash v =>
      mkUserRow (u_id u) (u_username u) v (u_created_at u) (u_updated_at u)
        (u_last_login u) (u_is_admin u) (u_is_active u) (u_available_boosters u)
        (u_next_booster_time u) (u_boosters_opened_today u) (u_last_booster_opened u)
        (u_berrys u) (u_favorite_card_id u)
  | SET_is_admin v =>
      mkUserRow (u_id u) (u_username u) (u_password_hash u) (u_created_at u) (u_updated_at u)
        (u_last_login u) v (u_is_active u) (u_available_boosters u)
        (u_next_booster_time u) (u_boosters_opened_today u) (u_last_booster_opened u)
        (u_berrys u) (u_favorite_card_id u)
  | SET_is_active v =>
      mkUserRow (u_id u) (u_username u) (u_password_hash u) (u_created_at u) (u_updated_at u)
        (u_last_login u) (u_is_admin u) v (u_available_boosters u)
        (u_next_booster_time u) (u_boosters_opened_today u) (u_last_booster_opened u)
        (u_berrys u) (u_favorite_card_id u)
  | SET_updated_at v =>
      mkUserRow (u_id u) (u_username u) (u_password_hash u) (u_created_at u) v
        (u_last_login u) (u_is_admin u) (u_is_active u) (u_available_boosters u)
        (u_next_booster_time u) (u_boosters_opened_today u) (u_last_booster_opened u)
        (u_berrys u) (u_favorite_card_id u)
  | SET_last_login v =>
      mkUserRow (u_id u) (u_username u) (u_password_hash u) (u_created_at u) (u_updated_at u)
        (Some v) (u_is_admin u) (u_is_active u) (u_available_boosters u)
        (u_next_booster_time u) (u_boosters_opened_today u) (u_last_booster_opened u)
        (u_berrys u) (u_favorite_card_id u)
  end.

Definition set_berrys (v : SqlValue) (u : UserRow) : UserRow :=
  mkUserRow (u_id u) (u_username u) (u_password_hash u) (u_created_at u) (u_updated_at u)
    (u_last_login u) (u_is_admin u) (u_is_active u) (u_available_boosters u)
    (u_next_booster_time u) (u_boosters_opened_today u) (u_last_booster_opened u)
    v (u_favorite_card_id u).

(** [INSERT INTO users (id, username, password_hash) VALUES (?, ?, ?)]: the
    other columns take the schema's defaults. *)
Definition new_user_row (dflt : UserRow) (id username password_hash : string) : UserRow :=
  mkUserRow id username password_hash (u_created_at dflt) (u_updated_at dflt)
    (u_last_login dflt) (u_is_admin dflt) (u_is_active dflt) (u_available_boosters dflt)
    (u_next_booster_time dflt) (u_boosters_opened_today dflt) (u_last_booster_opened dflt)
    (u_berrys dflt) (u_favorite_card_id dflt).

(** SQL's [COALESCE(x, 0)]. *)
Definition COALESCE0 (x : SqlValue) : SqlValue :=
  match x with
  | NULL => INTEGER 0
  | _ => x
  end.

(** [SET berrys = MIN(COALESCE(berrys, 0) + ?, ?)] with the two parameters
    as they are bound, the result stored under the column's affinity. *)
Definition berrys_after (amount max : SqlValue) (u : UserRow) : UserRow :=
  set_berrys (integer_affinity (sql_min (sql_add (COALESCE0 (u_berrys u)) amount) max)) u.

Definition set_coordinates (latitude longitude : Z) (r : IslandRow) : IslandRow :=
  let i := ir_cols r in
  mkIslandRow
    (mkIsland (i_id i) (i_name i) (i_order_index i) (i_description i) latitude longitude
       (i_unlock_requirement_island_id i) (i_final_reward_type i) (i_final_reward_value i)
       (i_final_reward_crew_member_id i))
    (ir_is_active r).

Definition set_unlock_island_id (v : option string) (r : CrewRow) : CrewRow :=
  let c := cr_cols r in
  mkCrewRow (mkCrew (c_id c) (c_name c) (c_description c) (c_image_url c) v (c_order_index c))
    (cr_is_active r).

(** [UPDATE t SET ... WHERE id = ?]: every row whose key matches. *)
Definition update_where {A} (key : A -> string) (id : string) (f : A -> A) (rows : list A) : list A :=
  map (fun r => if (key r =? id)%string then f r else r) rows.

Definition delete_from (t : Table) (d : DB) : DB :=
  match t with
  | T_quest_history => with_quest_history (fun _ => []) d
  | T_active_quests => with_active_quests (fun _ => []) d
  | T_user_islands => with_user_islands (fun _ => []) d
  | T_user_crew_members => with_user_crew_members (fun _ => []) d
  | T_quests => with_quests (fun _ => []) d
  | T_crew_members => with_crew_members (fun _ => []) d
  | T_islands => with_islands (fun _ => []) d
  end.

Definition exec (s : Stmt) (d : DB) : DB :=
  match s with
  | INSERT_users id username password_hash =>
      with_users (fun rows => rows ++ [new_user_row (users_defaults d) id username password_hash]) d
  | UPDATE_users_SET fields id =>
      with_users (update_where u_id id (fun u => fold_left (fun u a => assign a u) fields u)) d
  | UPDATE_users_berrys amount max id =>
      with_users (update_where u_id id (berrys_after (bind_number amount) (bind_number max))) d
  | UPDATE_islands_coordinates latitude longitude id =>
      with_islands (update_where (fun r => i_id (ir_cols r)) id (set_coordinates latitude longitude)) d
  | DELETE_FROM t => delete_from t d
  | INSERT_crew_members id name description image_url order_index =>
      with_crew_members
        (fun rows => rows ++ [mkCrewRow (mkCrew id name description image_url None order_index) 1]) d
  | INSERT_islands island =>
      with_islands (fun rows => rows ++ [mkIslandRow island 1]) d
  | UPDATE_crew_members_unlock_island_id unlock_island_id id =>
      with_crew_members
        (update_where (fun r => c_id (cr_cols r)) id (set_unlock_island_id (Some unlock_island_id))) d
  | INSERT_quests quest =>
      with_quests (fun rows => rows ++ [mkQuestRow quest 1]) d
  | INSERT_user_islands r => with_user_islands (fun rows => rows ++ [r]) d
  | INSERT_user_crew_members r => with_user_crew_members (fun rows => rows ++ [r]) d
  | INSERT_active_quests r => with_active_quests (fun rows => rows ++ [r]) d
  | INSERT_quest_history r => with_quest_history (fun rows => rows ++ [r]) d
  | DELETE_active_quest id =>
      with_active_quests (filter (fun r => negb (aq_id r =? id)%string)) d
  end.

(** ** Queries *)

(** [SELECT * FROM users WHERE id = ? AND is_active = 1], first row. *)
Definition SELECT_user_by_id (id : string) (d : DB) : option UserRow :=
  find (fun u => (u_id u =? id)%string && u_is_active u) (t_users d).

(** [SELECT * FROM users WHERE username = ? AND is_active = 1], first row. *)
Definition SELECT_user_by_username (username : string) (d : DB) : option UserRow :=
  find (fun u => (u_username u =? username)%string && u_is_active u) (t_users d).

(** [SELECT COUNT( * ) as count FROM users WHERE is_active = 1]. *)
Definition SELECT_COUNT_active_users (d : DB) : Z :=
  Z.of_nat (length (filter u_is_active (t_users d))).

(** [SELECT id FROM users WHERE is_active = 1]. *)
Definition SELECT_active_user_ids (d : DB) : list string :=
  map u_id (filter u_is_active (t_users d)).

(** [SELECT COUNT( * ) as count FROM islands]. *)
Definition SELECT_COUNT_islands (d : DB) : Z :=
  Z.of_nat (length (t_islands d)).

(** [SELECT id FROM user_islands WHERE user_id = ? AND island_id = ?], first row. *)
Definition SELECT_user_island (user_id island_id : string) (d : DB) : option string :=
  option_map ui_id
    (find (fun r => (ui_user_id r =? user_id)%string && (ui_island_id r =? island_id)%string)
       (t_user_islands d)).

(** [SELECT id FROM user_crew_members WHERE user_id = ? AND crew_member_id = ?], first row. *)
Definition SELECT_user_crew_member (user_id crew_member_id : string) (d : DB) : option string :=
  option_map ucm_id
    (find (fun r => (ucm_user_id r =? user_id)%string && (ucm_crew_member_id r =? crew_member_id)%string)
       (t_user_crew_members d)).

(** ** Computations *)

Inductive Exn :=
| Error (message : string)
| PreconditionViolation (message : string)
| RangeError (statusCode : Z).

(** A line written to the console, with the error passed along, if any. *)
Inductive LogLine :=
| console_log (message : string)
| console_warn (message : string) (arg : option Exn)
| console_error (message : string) (arg : option Exn).

Record World := mkWorld {
  db : DB;
  journal : list Stmt;
  console : list LogLine
}.

Inductive Result (A : Type) :=
| Ok (a : A)
| Throw (e : Exn).
Arguments Ok {A} a.
Arguments Throw {A} e.

Definition M (A : Type) : Type := World -> Result A * World.

Definition ret {A} (a : A) : M A := fun w => (Ok a, w).

Definition bind {A B} (m : M A) (k : A -> M B) : M B :=
  fun w => match m w with
           | (Ok a, w') => k a w'
           | (Throw e, w') => (Throw e, w')
           end.

Definition throw {A} (e : Exn) : M A := fun w => (Throw e, w).

(** [try { body } catch (error) { handler }]: what the body wrote before it
    threw stays written. *)
Definition try_catch {A} (body : M A) (handler : Exn -> M A) : M A :=
  fun w => match body w with
           | (Ok a, w') => (Ok a, w')
           | (Throw e, w') => handler e w'
           end.

Notation "x <- c1 ;; c2" := (bind c1 (fun x => c2))
  (at level 61, c1 at next level, right associativity).
Notation "c1 ;; c2" := (bind c1 (fun _ => c2))
  (at level 61, right associativity).

Definition Database_run (s : Stmt) : M unit :=
  fun w => (Ok tt, mkWorld (exec s (db w)) (journal w ++ [s]) (console w)).

(** [Database.get] and [Database.all]: a query reads the store. *)
Definition Database_get {A} (q : DB -> A) : M A :=
  fun w => (Ok (q (db w)), w).

Definition Database_all {A} (q : DB -> list A) : M (list A) :=
  fun w => (Ok (q (db w)), w).

Definition logged (l : LogLine) (w : World) : World :=
  mkWorld (db w) (journal w) (console w ++ [l]).

Definition log (l : LogLine) : M unit := fun w => (Ok tt, logged l w).

(** [for (const x of xs) { body }]. *)
Fixpoint for_of {A} (xs : list A) (body : A -> M unit) : M unit :=
  match xs with
  | [] => ret tt
  | x :: rest => body x ;; for_of rest body
  end.

(** The same loop around a local variable [acc] that the body reassigns. *)
Fixpoint for_of_with {A S} (xs : list A) (acc : S) (body : A -> S -> M S) : M S :=
  match xs with
  | [] => ret acc
  | x :: rest => acc' <- body x acc ;; for_of_with rest acc' body
  end.

Definition nl : string := String (Ascii.ascii_of_nat 10) EmptyString.

(** A number inside a template literal. *)
Definition show (n : nat) : string := NilZero.string_of_uint (Nat.to_uint n).

(** Truthiness of a [string | null]. *)
Definition truthy (v : option string) : bool :=
  match v with
  | Some s => negb (s =? "")%string
  | None => false
  end.

(** What a call draws from outside the store: a fresh [uuidv4()], the clock
    ([new Date().toISOString()]), and [bcrypt.hash] with the configured
    number of rounds. *)
Record Env := mkEnv {
  uuidv4 : string;
  now_iso : string;
  bcrypt_rounds : Z;
  bcrypt_hash : string -> Z -> string
}.

(** The two ledger primitives of [WorldMapModel] ([models/WorldMap.ts], not
    among the sources) that the user model and the seed script call. *)
Class WorldMapModel := {
  unlockIsland : string -> string -> M unit;
  unlockCrewMember : string -> string -> M unit
}.

(** ** [models/User.ts] *)

Module UserModel.

(** [v ? new Date(v) : null]: a NULL column and the empty string are falsy. *)
Definition to_Date (v : option string) : option JsDate :=
  match v with
  | Some s => if (s =? "")%string then None else Some (Date s)
  | None => None
  end.

Definition findById (id : string) : M (option User) :=
  user <- Database_get (SELECT_user_by_id id) ;;
  match user with
  | None => ret None
  | Some user =>
      ret (Some (mkUser user (to_Date (u_next_booster_time user))
                        (to_Date (u_last_booster_opened user))))
  end.

Definition create `{WorldMapModel} (env : Env) (userData : UserCreate) : M User :=
  let id := uuidv4 env in
  let password_hash := bcrypt_hash env (uc_password userData) (bcrypt_rounds env) in
  Database_run (INSERT_users id (uc_username userData) password_hash) ;;
  user <- findById id ;;
  match user with
  | None => throw (Error "Erreur lors de la création de l'utilisateur")
  | Some user =>
      try_catch
        (unlockIsland id "island_windmill_village" ;;
         unlockCrewMember id "crew_luffy")
        (fun error =>
           log (console_error "Erreur lors de l'initialisation du nouveau joueur:" (Some error))) ;;
      ret user
  end.

(** The row as it is stored: no date is converted here. *)
Definition findByUsername (username : string) : M (option UserRow) :=
  Database_get (SELECT_user_by_username username).

Definition updateLastLogin (env : Env) (id : string) : M unit :=
  let now := now_iso env in
  Database_run (UPDATE_users_SET [SET_last_login now] id).

(** The [fields]/[values] arrays, one entry pushed per defined property. *)
Definition push_if {A} (v : option A) (f : A -> UserAssign) (fields : list UserAssign)
  : list UserAssign :=
  match v with
  | Some x => fields ++ [f x]
  | None => fields
  end.

Definition update (env : Env) (id : string) (updates : UserUpdate) : M (option User) :=
  let fields := [] in
  let fields := push_if (upd_username updates) SET_username fields in
  let fields :=
    push_if (upd_password updates)
      (fun password => SET_password_hash (bcrypt_hash env password (bcrypt_rounds env))) fields in
  let fields := push_if (upd_is_admin updates) SET_is_admin fields in
  let fields := push_if (upd_is_active updates) SET_is_active fields in
  if (length fields =? 0)%nat then findById id
  else
    let fields := fields ++ [SET_updated_at (now_iso env)] in
    Database_run (UPDATE_users_SET fields id) ;;
    findById id.

(** [delete]: a soft delete, [SET is_active = 0, updated_at = ?]. *)
Definition delete (env : Env) (id : string) : M unit :=
  let now := now_iso env in
  Database_run (UPDATE_users_SET [SET_is_active false; SET_updated_at now] id).

(** [result?.count || 0]. *)
Definition count : M Z := Database_get SELECT_COUNT_active_users.

Definition MAX_BERRYS : number := of_int 999999999.

Definition addBerrys (userId : string) (amount : number) : M unit :=
  Database_run (UPDATE_users_berrys amount MAX_BERRYS userId).

End UserModel.

(** ** [scripts/seed-world-map-data.ts] *)

Definition islandCoordinates : list (string * Z * Z) := [
  ("island_windmill_village", 12, 8);
  ("island_shells_town", 18, 15);
  ("island_orange_town", 25, 12);
  ("island_syrup_village", 32, 18);
  ("island_baratie", 38, 25);
  ("island_arlong_park", 45, 32);
  ("island_loguetown", 48, 42);
  ("island_drum", 42, 52);
  ("island_alabasta", 35, 58);
  ("island_water_seven", 28, 65);
  ("island_thriller_bark", 22, 75);
  ("island_sabaody", 15, 85)
].

(** [updateIslandCoordinates]: one UPDATE per island of the table above. *)
Definition updateIslandCoordinates : M unit :=
  log (console_log ("📍 Mise à jour des coordonnées des îles..." ++ nl)%string) ;;
  for_of islandCoordinates
    (fun island =>
       let '(id, latitude, longitude) := island in
       Database_run (UPDATE_islands_coordinates latitude longitude id)) ;;
  log (console_log ("✅ Coordonnées des îles mises à jour" ++ nl)%string).

Definition crewMembers : list CrewMemberData := [
  mkCrew "crew_luffy" "Monkey D. Luffy"
    "Le capitaine de l'équipage, déterminé à devenir le Roi des Pirates"
    "/images/crew/luffy.png" None 1;
  mkCrew "crew_zoro" "Roronoa Zoro"
    "Le bretteur à trois sabres, premier membre de l'équipage"
    "/images/crew/zoro.png" (Some "island_shells_town") 2;
  mkCrew "crew_nami" "Nami"
    "La navigatrice experte, rêvant de cartographier le monde entier"
    "/images/crew/nami.png" (Some "island_orange_town") 3;
  mkCrew "crew_usopp" "Usopp"
    "Le tireur d'élite et conteur d'histoires"
    "/images/crew/usopp.png" (Some "island_syrup_village") 4;
  mkCrew "crew_sanji" "Sanji"
    "Le cuisinier aux jambes foudroyantes"
    "/images/crew/sanji.png" (Some "island_baratie") 5;
  mkCrew "crew_chopper" "Tony Tony Chopper"
    "Le médecin du navire, un renne qui a mangé le fruit du Humain"
    "/images/crew/chopper.png" (Some "island_drum") 6;
  mkCrew "crew_robin" "Nico Robin"
    "L'archéologue recherchant le Rio Ponéglyphe"
    "/images/crew/robin.png" (Some "island_alabasta") 7;
  mkCrew "crew_franky" "Franky"
    "Le charpentier cyborg, constructeur du Thousand Sunny"
    "/images/crew/franky.png" (Some "island_water_seven") 8;
  mkCrew "crew_brook" "Brook"
    "Le musicien squelette aux pouvoirs du fruit de la Résurrection"
    "/images/crew/brook.png" (Some "island_thriller_bark") 9
].

Definition islands : list IslandData := [
  mkIsland "island_windmill_village" "Village de Fuchsia" 1
    "Le village natal de Luffy dans East Blue"
    12 8 None
    (Some berrys) (Some 500) None;
  mkIsland "island_shells_town" "Shells Town" 2
    "La ville où Luffy rencontre Zoro pour la première fois"
    18 15 (Some "island_windmill_village")
    (Some crew_member) None (Some "crew_zoro");
  mkIsland "island_orange_town" "Orange Town" 3
    "Village attaqué par le pirate Buggy le Clown"
    25 12 (Some "island_shells_town")
    (Some crew_member) None (Some "crew_nami");
  mkIsland "island_syrup_village" "Village de Syrup" 4
    "Le village natal d'Usopp"
    32 18 (Some "island_orange_town")
    (Some crew_member) None (Some "crew_usopp");
  mkIsland "island_baratie" "Restaurant Baratie" 5
    "Le restaurant flottant où travaille Sanji"
    38 25 (Some "island_syrup_village")
    (Some crew_member) None (Some "crew_sanji");
  mkIsland "island_arlong_park" "Parc Arlong" 6
    "Le territoire contrôlé par l'homme-poisson Arlong"
    45 32 (Some "island_baratie")
    (Some berrys) (Some 2000) None;
  mkIsland "island_loguetown" "Loguetown" 7
    "La ville du commencement et de la fin, où le Roi des Pirates fut exécuté"
    48 42 (Some "island_arlong_park")
    (Some berrys) (Some 3000) None;
  mkIsland "island_drum" "Île de Drum" 8
    "L'île hivernale où vit Chopper"
    42 52 (Some "island_loguetown")
    (Some crew_member) None (Some "crew_chopper");
  mkIsland "island_alabasta" "Royaume d'Alabasta" 9
    "Le royaume désertique menacé par Crocodile"
    35 58 (Some "island_drum")
    (Some crew_member) None (Some "crew_robin");
  mkIsland "island_water_seven" "Water Seven" 10
    "La cité de l'eau, capitale de la construction navale"
    28 65 (Some "island_alabasta")
    (Some crew_member) None (Some "crew_franky");
  mkIsland "island_thriller_bark" "Thriller Bark" 11
    "Le navire-île fantôme de Gecko Moria"
    22 75 (Some "island_water_seven")
    (Some crew_member) None (Some "crew_brook");
  mkIsland "island_sabaody" "Archipel Sabaody" 12
    "L'archipel aux bulles, porte d'entrée du Nouveau Monde"
    15 85 (Some "island_thriller_bark")
    (Some berrys) (Some 10000) None
].

Definition quests : list QuestData := [
  mkQuest "quest_fuchsia_1" "island_windmill_village" "Chercher de la viande"
    "Luffy a toujours faim ! Trouvez de la viande pour le repas."
    1 50 1 (Some "crew_luffy") 1 true;
  mkQuest "quest_fuchsia_2" "island_windmill_village" "Entraînement au combat"
    "S'entraîner pour devenir plus fort !"
    2 75 1 None 2 true;
  mkQuest "quest_fuchsia_3" "island_windmill_village" "Explorer la montagne"
    "Explorer Corvo Mountain pour trouver des trésors."
    3 100 1 None 3 true;
  mkQuest "quest_shells_1" "island_shells_town" "Libérer Zoro"
    "Aider Zoro à s'échapper de la base marine."
    2 100 1 (Some "crew_luffy") 1 true;
  mkQuest "quest_shells_2" "island_shells_town" "Affronter le Capitaine Morgan"
    "Combattre le capitaine corrompu de la Marine."
    3 150 2 None 2 true;
  mkQuest "quest_shells_3" "island_shells_town" "Réparer le navire"
    "Préparer le navire pour la prochaine aventure."
    4 200 1 None 3 true;
  mkQuest "quest_orange_1" "island_orange_town" "Sauver les villageois"
    "Protéger les habitants terrorisés par Buggy."
    2 125 1 None 1 true;
  mkQuest "quest_orange_2" "island_orange_town" "Combattre Buggy"
    "Affronter le pirate Buggy le Clown !"
    3 175 2 (Some "crew_luffy") 2 true;
  mkQuest "quest_orange_3" "island_orange_town" "Récupérer la carte"
    "Aider Nami à récupérer la carte de Grand Line."
    2 150 1 (Some "crew_nami") 3 true;
  mkQuest "quest_syrup_1" "island_syrup_village" "Patrouiller le village"
    "Aider Usopp à protéger le village."
    2 150 1 (Some "crew_usopp") 1 true;
  mkQuest "quest_syrup_2" "island_syrup_village" "Déjouer le plan de Kuro"
    "Empêcher le Capitaine Kuro de nuire."
    4 250 3 None 2 true;
  mkQuest "quest_syrup_3" "island_syrup_village" "Obtenir le Going Merry"
    "Recevoir le navire cadeau de Kaya."
    3 200 1 None 3 true;
  mkQuest "quest_baratie_1" "island_baratie" "Servir au restaurant"
    "Aider au service pendant le rush."
    2 175 1 (Some "crew_sanji") 1 true;
  mkQuest "quest_baratie_2" "island_baratie" "Défendre le Baratie"
    "Protéger le restaurant de l'attaque de Don Krieg."
    5 350 3 None 2 true;
  mkQuest "quest_baratie_3" "island_baratie" "Duel avec Mihawk"
    "Zoro affronte le plus grand bretteur du monde."
    4 300 1 (Some "crew_zoro") 3 true;
  mkQuest "quest_arlong_1" "island_arlong_park" "Libérer le village de Nami"
    "Aider à libérer Cocoyasi du joug d'Arlong."
    3 250 2 None 1 true;
  mkQuest "quest_arlong_2" "island_arlong_park" "Détruire Arlong Park"
    "Démolir le QG des hommes-poissons !"
    5 400 4 (Some "crew_luffy") 2 true;
  mkQuest "quest_arlong_3" "island_arlong_park" "Vaincre Arlong"
    "Le combat final contre Arlong !"
    4 350 1 (Some "crew_luffy") 3 true;
  mkQuest "quest_logue_1" "island_loguetown" "Visiter la place de l'exécution"
    "Se recueillir là où Gold Roger fut exécuté."
    1 200 1 None 1 true;
  mkQuest "quest_logue_2" "island_loguetown" "Acheter des provisions"
    "Préparer le voyage vers Grand Line."
    3 300 2 None 2 true;
  mkQuest "quest_logue_3" "island_loguetown" "Échapper à Smoker"
    "Fuir le capitaine Smoker de la Marine !"
    4 400 3 None 3 true;
  mkQuest "quest_drum_1" "island_drum" "Escalader la montagne"
    "Gravir la montagne enneigée pour trouver un docteur."
    4 350 2 None 1 true;
  mkQuest "quest_drum_2" "island_drum" "Combattre Wapol"
    "Vaincre l'ancien roi tyrannique !"
    5 500 3 None 2 true;
  mkQuest "quest_drum_3" "island_drum" "Soigner Nami"
    "Trouver Kureha pour soigner Nami."
    3 400 1 None 3 true;
  mkQuest "quest_alabasta_1" "island_alabasta" "Traverser le désert"
    "Voyager à travers le désert brûlant vers Alubarna."
    5 500 3 None 1 true;
  mkQuest "quest_alabasta_2" "island_alabasta" "Infiltrer la base de Baroque Works"
    "S'infiltrer dans le QG secret de Crocodile."
    6 600 4 None 2 true;
  mkQuest "quest_alabasta_3" "island_alabasta" "Vaincre Crocodile"
    "Le combat ultime contre le Shichibukai !"
    6 700 1 (Some "crew_luffy") 3 true;
  mkQuest "quest_water7_1" "island_water_seven" "Chercher un charpentier"
    "Trouver quelqu'un pour réparer le Going Merry."
    3 450 2 None 1 true;
  mkQuest "quest_water7_2" "island_water_seven" "Sauver Robin"
    "Secourir Robin du CP9 !"
    8 1000 5 None 2 true;
  mkQuest "quest_water7_3" "island_water_seven" "Obtenir le Thousand Sunny"
    "Recevoir le nouveau navire construit par Franky."
    6 800 2 None 3 true;
  mkQuest "quest_thriller_1" "island_thriller_bark" "Explorer le navire fantôme"
    "Investiguer l'immense navire-île mystérieux."
    4 600 3 None 1 true;
  mkQuest "quest_thriller_2" "island_thriller_bark" "Récupérer les ombres"
    "Reprendre les ombres volées par Moria."
    6 800 5 None 2 true;
  mkQuest "quest_thriller_3" "island_thriller_bark" "Vaincre Oz et Moria"
    "Combat contre le zombie géant et Gecko Moria !"
    8 1200 6 None 3 true;
  mkQuest "quest_sabaody_1" "island_sabaody" "Explorer les îles à bulles"
    "Découvrir les merveilles de l'archipel."
    3 700 2 None 1 true;
  mkQuest "quest_sabaody_2" "island_sabaody" "Échapper aux Pacifistas"
    "Fuir les armes humaines de la Marine !"
    6 1000 5 None 2 true;
  mkQuest "quest_sabaody_3" "island_sabaody" "Se préparer au Nouveau Monde"
    "S'entraîner pour les défis à venir."
    10 1500 6 None 3 true
].

(** The statements of [seedWorldMapData], block by block in program order. *)

(** [if (existingIslands && existingIslands.count > 0) { DELETE FROM ... }]:
    a row of [COUNT] is always returned. *)
Definition delete_existing_data : M unit :=
  existingIslands <- Database_get SELECT_COUNT_islands ;;
  if 0 <? existingIslands then
    log (console_log "⚠️  Des données existent déjà. Voulez-vous les supprimer? (Ctrl+C pour annuler)") ;;
    Database_run (DELETE_FROM T_quest_history) ;;
    Database_run (DELETE_FROM T_active_quests) ;;
    Database_run (DELETE_FROM T_user_islands) ;;
    Database_run (DELETE_FROM T_user_crew_members) ;;
    Database_run (DELETE_FROM T_quests) ;;
    Database_run (DELETE_FROM T_crew_members) ;;
    Database_run (DELETE_FROM T_islands) ;;
    log (console_log ("✅ Anciennes données supprimées" ++ nl)%string)
  else ret tt.

(** Step 1/2: every crew member, [unlock_island_id] bound to NULL. *)
Definition insert_crew_member (member : CrewMemberData) : Stmt :=
  INSERT_crew_members (c_id member) (c_name member) (c_description member)
    (c_image_url member) (c_order_index member).

Definition insert_crew_members : M unit :=
  log (console_log "📝 Insertion des membres d'équipage (étape 1/2 - sans unlock_island_id)...") ;;
  for_of crewMembers (fun member => Database_run (insert_crew_member member)) ;;
  log (console_log
         ("✅ " ++ show (length crewMembers)
          ++ " membres d'équipage insérés (sans unlock_island_id)" ++ nl)%string).

Definition insert_islands : M unit :=
  log (console_log "🏝️  Insertion des îles...") ;;
  for_of islands (fun island => Database_run (INSERT_islands island)) ;;
  log (console_log ("✅ " ++ show (length islands) ++ " îles insérées" ++ nl)%string).

(** Step 2/2: [if (member.unlock_island_id) { UPDATE crew_members ... }]. *)
Definition update_crew_member (member : CrewMemberData) : M unit :=
  match c_unlock_island_id member with
  | Some unlock_island_id =>
      if truthy (c_unlock_island_id member)
      then Database_run (UPDATE_crew_members_unlock_island_id unlock_island_id (c_id member))
      else ret tt
  | None => ret tt
  end.

Definition update_crew_members : M unit :=
  log (console_log "📝 Mise à jour des membres d'équipage (étape 2/2 - unlock_island_id)...") ;;
  for_of crewMembers update_crew_member ;;
  log (console_log ("✅ Membres d'équipage mis à jour avec unlock_island_id" ++ nl)%string).

Definition insert_quests : M unit :=
  log (console_log "⚔️  Insertion des quêtes...") ;;
  for_of quests (fun quest => Database_run (INSERT_quests quest)) ;;
  log (console_log ("✅ " ++ show (length quests) ++ " quêtes insérées" ++ nl)%string).

(** The first island and Luffy for every active user. *)
Definition unlock_first_island_and_luffy `{WorldMapModel} (user_id : string) : M unit :=
  hasFirstIsland <- Database_get (SELECT_user_island user_id "island_windmill_village") ;;
  match hasFirstIsland with
  | None => unlockIsland user_id "island_windmill_village"
  | Some _ => ret tt
  end ;;
  hasLuffy <- Database_get (SELECT_user_crew_member user_id "crew_luffy") ;;
  match hasLuffy with
  | None => unlockCrewMember user_id "crew_luffy"
  | Some _ => ret tt
  end.

Definition seedWorldMapData `{WorldMapModel} : M unit :=
  log (console_log ("🏴‍☠️ Début du peuplement des données de la carte du monde..." ++ nl)%string) ;;
  try_catch
    (delete_existing_data ;;
     insert_crew_members ;;
     insert_islands ;;
     update_crew_members ;;
     insert_quests ;;
     log (console_log "🎯 Déb oquage initial pour tous les utilisateurs...") ;;
     users <- Database_all SELECT_active_user_ids ;;
     for_of users unlock_first_island_and_luffy ;;
     log (console_log
            ("✅ " ++ show (length users)
             ++ " utilisateurs initialisés avec la première île et Luffy" ++ nl)%string) ;;
     log (console_log "🎉 Peuplement de la carte du monde terminé avec succès !") ;;
     log (console_log (nl ++ "📊 Résumé:")%string) ;;
     log (console_log ("   - " ++ show (length crewMembers) ++ " membres d'équipage")%string) ;;
     log (console_log ("   - " ++ show (length islands) ++ " îles")%string) ;;
     log (console_log ("   - " ++ show (length quests) ++ " quêtes")%string) ;;
     log (console_log ("   - " ++ show (length users) ++ " utilisateurs initialisés")%string))
    (fun error =>
       log (console_error "❌ Erreur lors du peuplement:" (Some error)) ;;
       throw error).

(** One turn of the loop of [initializeExistingUsers]: what the
    specification calls [reconcileUser].  The result is [userNeedsInit]. *)
Definition reconcileUser `{WorldMapModel} (user_id : string) : M bool :=
  let userNeedsInit := false in
  hasFirstIsland <- Database_get (SELECT_user_island user_id "island_windmill_village") ;;
  userNeedsInit <-
    match hasFirstIsland with
    | None => unlockIsland user_id "island_windmill_village" ;; ret true
    | Some _ => ret userNeedsInit
    end ;;
  hasLuffy <- Database_get (SELECT_user_crew_member user_id "crew_luffy") ;;
  userNeedsInit <-
    match hasLuffy with
    | None => unlockCrewMember user_id "crew_luffy" ;; ret true
    | Some _ => ret userNeedsInit
    end ;;
  ret userNeedsInit.

(** The body of the loop: [reconcileUser], then
    [if (userNeedsInit) { usersInitialized++ }]. *)
Definition count_turn `{WorldMapModel} (user : string) (usersInitialized : nat) : M nat :=
  userNeedsInit <- reconcileUser user ;;
  ret (if userNeedsInit : bool then S usersInitialized else usersInitialized).

(** The query and the loop of [initializeExistingUsers]; the result is the
    counter [usersInitialized] when the loop ends. *)
Definition count_usersInitialized `{WorldMapModel} : M nat :=
  users <- Database_all SELECT_active_user_ids ;;
  for_of_with users 0%nat count_turn.

Definition all_initialized : LogLine :=
  console_log "✅ Tous les utilisateurs sont déjà initialisés".

Definition initializing_users : LogLine :=
  console_log "👥 Initialisation des utilisateurs existants...".

Definition initializeExistingUsers `{WorldMapModel} : M unit :=
  try_catch
    (log initializing_users ;;
     usersInitialized <- count_usersInitialized ;;
     if (0 <? usersInitialized)%nat then
       log (console_log
              ("✅ " ++ show usersInitialized
               ++ " utilisateur(s) initialisé(s) avec la première île et Luffy")%string)
     else log all_initialized)
    (fun error =>
       log (console_error "❌ Erreur lors de l'initialisation des utilisateurs existants:"
              (Some error)) ;;
       throw error).

(** ** [app.ts]: the world-map block of [initializeApp] *)

Definition initializeWorldMap `{WorldMapModel} : M unit :=
  log (console_log "🗺️  Vérification et initialisation de la carte du monde...") ;;
  try_catch
    (islandCount <- Database_get SELECT_COUNT_islands ;;
     if islandCount =? 0 then
       log (console_log "🏝️  Aucune île trouvée, initialisation de la carte du monde...") ;;
       seedWorldMapData ;;
       log (console_log "✅ Carte du monde initialisée avec succès")
     else
       log (console_log
              ("✅ " ++ show (Z.to_nat islandCount)
               ++ " îles déjà présentes, mise à jour des coordonnées...")%string) ;;
       updateIslandCoordinates ;;
       initializeExistingUsers)
    (fun worldMapError =>
       log (console_warn "⚠️ Erreur lors de l'initialisation de la carte du monde:"
              (Some worldMapError)) ;;
       log (console_warn "💡 Vous pouvez initialiser manuellement avec: npm run seed-world-map" None)).

(** ** [app.ts]: the CORS policy *)

(** [s.split(sep)] for a separator of one character. *)
Fixpoint split (sep : Ascii.ascii) (s : string) : list string :=
  match s with
  | EmptyString => [EmptyString]
  | String c rest =>
      if Ascii.eqb c sep then EmptyString :: split sep rest
      else match split sep rest with
           | piece :: pieces => String c piece :: pieces
           | [] => [String c EmptyString]
           end
  end.

(** [xs.includes(x)] on strings. *)
Definition includes (xs : list string) (x : string) : bool :=
  existsb (String.eqb x) xs.

(** [process.env.ALLOWED_ORIGINS?.split(',') || [..]]: an array is truthy, so
    the two local origins are used only when the variable is not set. *)
Definition allowedOrigins (ALLOWED_ORIGINS : option string) : list string :=
  match ALLOWED_ORIGINS with
  | Some value => split ","%char value
  | None => ["http://localhost:3000"; "http://localhost:5173"]
  end.

(** [corsOptions.origin]: [callback(null, true)] is the result [true],
    [callback(new Error(..))] the thrown error. *)
Definition corsOptions_origin (ALLOWED_ORIGINS origin : option string) : M bool :=
  match origin with
  | None => ret true
  | Some o =>
      if (o =? "")%string then ret true
      else if includes (allowedOrigins ALLOWED_ORIGINS) o then ret true
      else
        log (console_warn ("🚫 CORS: Origine non autorisée: " ++ o)%string None) ;;
        throw (Error "Non autorisé par CORS")
  end.

(** ** [app.ts]: the global error handler *)

(** What the handler reads of the error it is given ([error: any]), for an
    error whose [status] and [statusCode] are integers and whose [message]
    and [stack] are strings; a field that is not there is [None]. *)
Record AnyError := mkAnyError {
  e_status : option Z;
  e_statusCode : option Z;
  e_message : option string;
  e_stack : option string
}.

(** [res.status(status).json({ error, stack })], or [next(error)]; a [stack]
    that is [undefined] or not spread into the body is not in the JSON.  A
    status outside 100..999 is not sent: the response throws the
    [RangeError] for an invalid status code. *)
Inductive Reply :=
| res_json (status : Z) (error : string) (stack : option string)
| pass_on (error : AnyError).

(** [n || otherwise] on a number that may be missing. *)
Definition or_number (n : option Z) (otherwise : Z) : Z :=
  match n with
  | Some v => if v =? 0 then otherwise else v
  | None => otherwise
  end.

(** [s || otherwise] on a string that may be missing. *)
Definition or_string (s : option string) (otherwise : string) : string :=
  match s with
  | Some v => if (v =? "")%string then otherwise else v
  | None => otherwise
  end.

(** [process.env.NODE_ENV === 'production']. *)
Definition production (NODE_ENV : option string) : bool :=
  match NODE_ENV with
  | Some v => (v =? "production")%string
  | None => false
  end.

(** The console line shows the error by its message. *)
Definition unhandled (error : AnyError) : LogLine :=
  console_error "Erreur non gérée:" (Some (Error (or_string (e_message error) ""))).

Definition errorHandler (NODE_ENV : option string) (headersSent : bool) (error : AnyError)
  : M Reply :=
  log (unhandled error) ;;
  if headersSent then ret (pass_on error)
  else
    let status := or_number (e_status error) (or_number (e_statusCode error) 500) in
    let message :=
      if production NODE_ENV then "Erreur interne du serveur"
      else or_string (e_message error) "Erreur inconnue" in
    if (100 <=? status) && (status <=? 999) then
      ret (res_json status message
             (if negb (production NODE_ENV) then e_stack error else None))
    else throw (RangeError status).

(** ** [app.ts]: [initializeApp] and [closeApp] *)

(** The modules [initializeApp] and [closeApp] call that are not among the
    sources: the database set-up, the migrations, the booster model, the
    Vegapull importer and the achievement service, with the two counts read
    from the [achievements] table. *)
Class Collaborators := {
  Database_initialize : M unit;
  MigrationManager_migrate : M unit;
  BoosterModel_count : M Z;
  VegapullImporter_importData : M unit;
  VegapullImporter_cleanup : M unit;
  SELECT_COUNT_active_achievements : M (option Z);
  SELECT_COUNT_booster_achievements : M (option Z);
  AchievementService_initializeDefaultAchievements : M unit;
  AchievementService_createAllBoosterAchievements : M unit;
  Database_close : M unit
}.

Definition import_vegapull `{Collaborators} : M unit :=
  log (console_log "📦 Aucun booster trouvé, tentative d'importation Vegapull...") ;;
  try_catch
    (VegapullImporter_importData ;;
     VegapullImporter_cleanup ;;
     log (console_log "✅ Importation Vegapull terminée avec succès"))
    (fun importError =>
       log (console_warn "⚠️ Impossible d'importer les données Vegapull:" (Some importError)) ;;
       log (console_warn "💡 Vous pouvez importer manuellement avec: npm run import-vegapull"
              None)).

Definition initialize_achievements `{Collaborators} (boosterCount : Z) : M unit :=
  log (console_log "🏆 Vérification et initialisation des achievements...") ;;
  try_catch
    (achievementCount <- SELECT_COUNT_active_achievements ;;
     if match achievementCount with
        | Some count => count =? 0
        | None => true
        end
     then
       log (console_log "📋 Aucun achievement trouvé, initialisation...") ;;
       AchievementService_initializeDefaultAchievements ;;
       AchievementService_createAllBoosterAchievements ;;
       log (console_log "✅ Achievements initialisés avec succès")
     else
       log (console_log
              ("✅ " ++ show (Z.to_nat (match achievementCount with Some count => count | None => 0 end))
               ++ " achievements déjà présents")%string) ;;
       boosterAchievementCount <- SELECT_COUNT_booster_achievements ;;
       let expectedBoosterAchievements := boosterCount * 3 in
       match boosterAchievementCount with
       | Some count =>
           if count <? expectedBoosterAchievements then
             log (console_log
                    ("📋 Achievements de boosters incomplets (" ++ show (Z.to_nat count)
                     ++ "/" ++ show (Z.to_nat expectedBoosterAchievements)
                     ++ "), mise à jour...")%string) ;;
             AchievementService_createAllBoosterAchievements ;;
             log (console_log "✅ Achievements de boosters mis à jour")
           else ret tt
       | None => ret tt
       end)
    (fun achievementError =>
       log (console_warn "⚠️ Erreur lors de l'initialisation des achievements:"
              (Some achievementError)) ;;
       log (console_warn "💡 Vous pouvez initialiser manuellement avec: npm run init-achievements"
              None)).

Definition startup_failure (error : Exn) : LogLine :=
  console_error "❌ Erreur lors de l'initialisation:" (Some error).

Definition initializeApp `{Collaborators} `{WorldMapModel} : M unit :=
  try_catch
    (log (console_log "🚀 Initialisation de l'application...") ;;
     Database_initialize ;;
     log (console_log "✅ Base de données initialisée") ;;
     MigrationManager_migrate ;;
     log (console_log "✅ Migrations terminées") ;;
     boosterCount <- BoosterModel_count ;;
     log (console_log ("📊 Nombre de boosters dans la DB: " ++ show (Z.to_nat boosterCount))%string) ;;
     (if boosterCount =? 0 then import_vegapull else ret tt) ;;
     initialize_achievements boosterCount ;;
     initializeWorldMap ;;
     log (console_log "🎉 Application initialisée avec succès"))
    (fun error => log (startup_failure error) ;; throw error).

Definition shutdown_failure (error : Exn) : LogLine :=
  console_error "❌ Erreur lors de la fermeture:" (Some error).

Definition closeApp `{Collaborators} : M unit :=
  try_catch
    (log (console_log "🔄 Fermeture de l'application...") ;;
     Database_close ;;
     log (console_log "✅ Application fermée proprement"))
    (fun error => log (shutdown_failure error) ;; throw error).

(** ** The progression ledger ([models/WorldMap.ts]) *)

(** Modelled from the spec: [WorldMapModel.unlockIsland], whose file is not
    among the sources.  Section 4.2: inserting an unlock record for an island
    that is already unlocked is a no-op, never an error, never a second row;
    a record is the (user, island) pair with its unlock timestamp.  [draw] is
    what the generator of identifiers and the clock give at the call. *)
Definition ensure_island (draw : World -> Env) (user_id island_id : string) : M unit :=
  fun w =>
    (unlocked <- Database_get (SELECT_user_island user_id island_id) ;;
     match unlocked with
     | Some _ => ret tt
     | None =>
         Database_run
           (INSERT_user_islands
              (mkUserIsland (uuidv4 (draw w)) user_id island_id (now_iso (draw w))))
     end) w.

(** Modelled from the spec: [WorldMapModel.unlockCrewMember], with the same
    contract as [unlockIsland] (section 4.2). *)
Definition ensure_crew_member (draw : World -> Env) (user_id crew_member_id : string) : M unit :=
  fun w =>
    (unlocked <- Database_get (SELECT_user_crew_member user_id crew_member_id) ;;
     match unlocked with
     | Some _ => ret tt
     | None =>
         Database_run
           (INSERT_user_crew_members
              (mkUserCrew (uuidv4 (draw w)) user_id crew_member_id (now_iso (draw w))))
     end) w.

Definition ledger (draw : World -> Env) : WorldMapModel :=
  {| unlockIsland := ensure_island draw; unlockCrewMember := ensure_crew_member draw |}.

(** Modelled from the spec: the contract of the two ledger primitives that
    their callers rely on (section 4.2), for any implementation of
    [models/WorldMap.ts].  A call never throws; on a pair already unlocked it
    leaves the store as it is; otherwise the store gains exactly one record,
    for that pair; the journal only grows. *)
Class LedgerContract (L : WorldMapModel) : Prop := {
  unlockIsland_ensures : forall u i w,
    exists w' written,
      unlockIsland u i w = (Ok tt, w') /\
      journal w' = journal w ++ written /\
      match SELECT_user_island u i (db w) with
      | Some _ => db w' = db w
      | None => exists r, ui_user_id r = u /\ ui_island_id r = i /\
                          db w' = exec (INSERT_user_islands r) (db w)
      end;
  unlockCrewMember_ensures : forall u c w,
    exists w' written,
      unlockCrewMember u c w = (Ok tt, w') /\
      journal w' = journal w ++ written /\
      match SELECT_user_crew_member u c (db w) with
      | Some _ => db w' = db w
      | None => exists r, ucm_user_id r = u /\ ucm_crew_member_id r = c /\
                          db w' = exec (INSERT_user_crew_members r) (db w)
      end
}.

(** ** The quest scheduler ([models/WorldMap.ts]) *)

Inductive Status := Active | CompletedPendingCollection.

Definition SELECT_quest (quest_id : string) (d : DB) : option QuestData :=
  option_map qr_cols (find (fun r => (q_id (qr_cols r) =? quest_id)%string) (t_quests d)).

Definition SELECT_active_quest (user_id instance_id : string) (d : DB) : option ActiveQuestRow :=
  find (fun r => (aq_user_id r =? user_id)%string && (aq_id r =? instance_id)%string)
    (t_active_quests d).

Definition hour : Z := 3600000.

(** Modelled from the spec: the status of an instance (section 4.3), a pure
    function of [now - start_time] against the template's [duration_hours]:
    Active before the threshold, due for collection at or after it. *)
Definition status (now : Z) (d : DB) (r : ActiveQuestRow) : option Status :=
  match SELECT_quest (aq_quest_id r) d with
  | Some q =>
      Some (if now - aq_started_at r <? q_duration_hours q * hour
            then Active else CompletedPendingCollection)
  | None => None
  end.

Definition isIslandUnlocked (user_id island_id : string) (d : DB) : bool :=
  match SELECT_user_island user_id island_id d with Some _ => true | None => false end.

Definition isCrewUnlocked (user_id crew_member_id : string) (d : DB) : bool :=
  match SELECT_user_crew_member user_id crew_member_id d with Some _ => true | None => false end.

Definition among (x : string) (xs : list string) : bool := existsb (String.eqb x) xs.

(** A companion is busy while it is assigned to an Active instance of the user. *)
Definition busy (now : Z) (d : DB) (user_id companion : string) : bool :=
  existsb
    (fun r => (aq_user_id r =? user_id)%string
              && among companion (aq_crew_member_ids r)
              && match status now d r with Some Active => true | _ => false end)
    (t_active_quests d).

Definition in_history (user_id quest_id : string) (d : DB) : bool :=
  existsb (fun h => (qh_user_id h =? user_id)%string && (qh_quest_id h =? quest_id)%string)
    (t_quest_history d).

(** Preconditions (a) to (e) of Start, against one state of the store. *)
Definition start_violation (now : Z) (d : DB) (user_id quest_id : string)
  (companions : list string) : option string :=
  match SELECT_quest quest_id d with
  | None => Some "island not unlocked"
  | Some q =>
      if negb (isIslandUnlocked user_id (q_island_id q) d) then Some "island not unlocked"
      else if negb ((Z.of_nat (length (nodup string_dec companions)) =? q_required_crew_count q)
                    && match q_specific_crew_member_id q with
                       | Some c => among c companions
                       | None => true
                       end)
      then Some "wrong companion count"
      else if negb (forallb (fun c => isCrewUnlocked user_id c d) companions)
      then Some "companion not unlocked"
      else if existsb (busy now d user_id) companions then Some "companion busy"
      else if negb (q_is_repeatable q) && in_history user_id quest_id d
      then Some "non-repeatable quest already completed"
      else None
  end.

(** Modelled from the spec: the Start transition (section 4.3), absent from
    the sources.  The caller supplies a quest template and a set of
    companions; a violated precondition fails the operation with
    PreconditionViolation and writes nothing; otherwise an Active instance is
    inserted with [now] as its start time. *)
Definition startQuest (env : Env) (now : Z) (user_id quest_id : string)
  (companions : list string) : M ActiveQuestRow :=
  violation <- Database_get (fun d => start_violation now d user_id quest_id companions) ;;
  match violation with
  | Some why => throw (PreconditionViolation why)
  | None =>
      let instance := mkActiveQuest (uuidv4 env) user_id quest_id companions now in
      Database_run (INSERT_active_quests instance) ;;
      ret instance
  end.

(** [eligibleNextIsland] along the chain: the island whose predecessor is [island_id]. *)
Definition SELECT_next_island (island_id : string) (d : DB) : option IslandData :=
  option_map ir_cols
    (find (fun r => match i_unlock_requirement_island_id (ir_cols r) with
                    | Some p => (p =? island_id)%string
                    | None => false
                    end) (t_islands d)).

(** [eligibleCrewOnIslandUnlock]: the crew member the island's completion
    reward names, when its kind is crew member. *)
Definition eligibleCrewOnIslandUnlock (island : IslandData) : option string :=
  match i_final_reward_type island with
  | Some crew_member => i_final_reward_crew_member_id island
  | _ => None
  end.

(** Modelled from the spec: the Collect transition (section 4.3), absent from
    the sources.  Valid once the instance is due; it grants the template's
    currency reward through the ledger, unlocks the next island and its
    reward crew member when [isIslandCleared] (the extension point supplied
    by the content layer) says the island is cleared, appends the history
    record and retires the instance. *)
Definition collectQuest `{WorldMapModel} (isIslandCleared : string -> string -> DB -> bool)
  (now : Z) (user_id instance_id : string) : M QuestHistoryRow :=
  instance <- Database_get (SELECT_active_quest user_id instance_id) ;;
  match instance with
  | None => throw (PreconditionViolation "instance already retired")
  | Some r =>
      template <- Database_get (SELECT_quest (aq_quest_id r)) ;;
      match template with
      | None => throw (PreconditionViolation "not yet due")
      | Some q =>
          if now - aq_started_at r <? q_duration_hours q * hour
          then throw (PreconditionViolation "not yet due")
          else
            UserModel.addBerrys user_id (of_int (q_reward_berrys q)) ;;
            cleared <- Database_get (isIslandCleared user_id (q_island_id q)) ;;
            next <- Database_get (SELECT_next_island (q_island_id q)) ;;
            match (if cleared : bool then next else None) with
            | Some island =>
                unlocked <- Database_get (isIslandUnlocked user_id (i_id island)) ;;
                if unlocked : bool then ret tt
                else
                  unlockIsland user_id (i_id island) ;;
                  match eligibleCrewOnIslandUnlock island with
                  | Some c => unlockCrewMember user_id c
                  | None => ret tt
                  end
            | None => ret tt
            end ;;
            let record :=
              mkQuestHistory user_id (aq_quest_id r) (aq_crew_member_ids r)
                (aq_started_at r) now (q_reward_berrys q) in
            Database_run (INSERT_quest_history record) ;;
            Database_run (DELETE_active_quest instance_id) ;;
            ret record
      end
  end.

(** ** What the properties below observe *)

(** The [berrys] column of the user with this id: [None] when there is no
    such row. *)
Definition SELECT_berrys (id : string) (d : DB) : option SqlValue :=
  option_map u_berrys (find (fun u => (u_id u =? id)%string) (t_users d)).

(** Successive currency grants to one user. *)
Definition grants (userId : string) (amounts : list number) : M unit :=
  for_of amounts (UserModel.addBerrys userId).

Definition total (amounts : list Z) : Z := fold_right Z.add 0 amounts.

(** A balance as a whole number, NULL counting as 0; a REAL balance is not
    one. *)
Definition whole (balance : SqlValue) : option Z :=
  match balance with
  | NULL => Some 0
  | INTEGER i => Some i
  | REAL _ => None
  end.

(** The store with unlock records appended, everything else as it was. *)
Definition granted (ri : list UserIslandRow) (rc : list UserCrewRow) (d : DB) : DB :=
  with_user_crew_members (fun rows => rows ++ rc)
    (with_user_islands (fun rows => rows ++ ri) d).

(** The baseline every account holds: the first island and Luffy. *)
Definition has_baseline (user_id : string) (d : DB) : bool :=
  isIslandUnlocked user_id "island_windmill_village" d && isCrewUnlocked user_id "crew_luffy" d.

(** The world after a list of statements has run, in order. *)
Definition run_all (ss : list Stmt) (w : World) : World :=
  mkWorld (fold_left (fun d s => exec s d) ss (db w)) (journal w ++ ss) (console w).

(** [writes m ss]: from any world, [m] completes, and the store and the
    journal it leaves are those of the statements [ss], run in order. *)
Definition writes (m : M unit) (ss : list Stmt) : Prop :=
  forall w, exists w',
    m w = (Ok tt, w') /\ db w' = db (run_all ss w) /\ journal w' = journal w ++ ss.

(** What [seedWorldMapData] writes, in program order. *)
Definition deletes : list Stmt :=
  [DELETE_FROM T_quest_history; DELETE_FROM T_active_quests; DELETE_FROM T_user_islands;
   DELETE_FROM T_user_crew_members; DELETE_FROM T_quests; DELETE_FROM T_crew_members;
   DELETE_FROM T_islands].

Definition crew_inserts : list Stmt := map insert_crew_member crewMembers.

Definition island_inserts : list Stmt := map INSERT_islands islands.

Definition crew_update (member : CrewMemberData) : list Stmt :=
  match c_unlock_island_id member with
  | Some unlock_island_id =>
      if truthy (c_unlock_island_id member)
      then [UPDATE_crew_members_unlock_island_id unlock_island_id (c_id member)]
      else []
  | None => []
  end.

Definition crew_updates : list Stmt := flat_map crew_update crewMembers.

Definition quest_inserts : list Stmt := map INSERT_quests quests.

(** [requires catalog a b]: island [a] names island [b] as the island to
    clear before it unlocks. *)
Definition requires (catalog : list IslandData) (a b : string) : Prop :=
  exists i, In i catalog /\ i_id i = a /\ i_unlock_requirement_island_id i = Some b.

(** The place of an island along the journey: its [order_index]. *)
Definition rank (catalog : list IslandData) (id : string) : Z :=
  match find (fun i => (i_id i =? id)%string) catalog with
  | Some i => i_order_index i
  | None => 0
  end.

(** Following the requirements from [id], at most [fuel] steps, to [root]. *)
Fixpoint leads_to (catalog : list IslandData) (root : string) (fuel : nat) (id : string) : bool :=
  if (id =? root)%string then true
  else match fuel with
       | O => false
       | S fuel =>
           match find (fun i => (i_id i =? id)%string) catalog with
           | Some i =>
               match i_unlock_requirement_island_id i with
               | Some b => leads_to catalog root fuel b
               | None => false
               end
           | None => false
           end
       end.

(** The island a crew member points to rewards that crew member. *)
Definition rewarded_by (catalog : list IslandData) (member : CrewMemberData) : bool :=
  match c_unlock_island_id member with
  | None => true
  | Some x =>
      existsb
        (fun i => (i_id i =? x)%string
                  && match i_final_reward_type i, i_final_reward_crew_member_id i with
                     | Some crew_member, Some c => (c =? c_id member)%string
                     | _, _ => false
                     end)
        catalog
  end.

(** The operations of the engine in normal operation: the world-map block
    of start-up (which seeds an empty catalog and otherwise refreshes the
    coordinates and reconciles the users), its parts, the user model, and the
    Start and Collect transitions of the scheduler.  The destructive reload,
    [seedWorldMapData] run by hand against a catalog that is already there,
    is not one of them. *)
Inductive Operation :=
| InitializeWorldMap
| UpdateIslandCoordinates
| InitializeExistingUsers
| ReconcileUser (user_id : string)
| Create (env : Env) (userData : UserCreate)
| FindById (id : string)
| FindByUsername (username : string)
| UpdateLastLogin (env : Env) (id : string)
| Update (env : Env) (id : string) (updates : UserUpdate)
| Delete (env : Env) (id : string)
| Count
| AddBerrys (userId : string) (amount : number)
| StartQuest (env : Env) (now : Z) (user_id quest_id : string) (companions : list string)
| CollectQuest (now : Z) (user_id instance_id : string).

(** The world an operation leaves, whether it returns or throws. *)
Definition perform `{WorldMapModel} (isIslandCleared : string -> string -> DB -> bool)
  (op : Operation) (w : World) : World :=
  match op with
  | InitializeWorldMap => snd (initializeWorldMap w)
  | UpdateIslandCoordinates => snd (updateIslandCoordinates w)
  | InitializeExistingUsers => snd (initializeExistingUsers w)
  | ReconcileUser user_id => snd (reconcileUser user_id w)
  | Create env userData => snd (UserModel.create env userData w)
  | FindById id => snd (UserModel.findById id w)
  | FindByUsername username => snd (UserModel.findByUsername username w)
  | UpdateLastLogin env id => snd (UserModel.updateLastLogin env id w)
  | Update env id updates => snd (UserModel.update env id updates w)
  | Delete env id => snd (UserModel.delete env id w)
  | Count => snd (UserModel.count w)
  | AddBerrys userId amount => snd (UserModel.addBerrys userId amount w)
  | StartQuest env now user_id quest_id companions =>
      snd (startQuest env now user_id quest_id companions w)
  | CollectQuest now user_id instance_id =>
      snd (collectQuest isIslandCleared now user_id instance_id w)
  end.

Definition perform_all `{WorldMapModel} (isIslandCleared : string -> string -> DB -> bool)
  (ops : list Operation) (w : World) : World :=
  fold_left (fun w op => perform isIslandCleared op w) ops w.

(** Every row of the history that [w] holds is still there in [w'], in
    place and unchanged; rows may have been added after them. *)
Definition history_kept (w w' : World) : Prop :=
  exists appended, t_quest_history (db w') = t_quest_history (db w) ++ appended.

Definition keeps_history {A} (m : M A) : Prop :=
  forall w, history_kept w (snd (m w)).

(** The one statement of the sources that removes history rows. *)
Definition spares_history (s : Stmt) : bool :=
  match s with
  | DELETE_FROM T_quest_history => false
  | _ => true
  end.

(** The object [findById] builds from a row. *)
Definition user_of (row : UserRow) : User :=
  mkUser row (UserModel.to_Date (u_next_booster_time row))
    (UserModel.to_Date (u_last_booster_opened row)).

(** A row after [UserModel.update]: a column takes the value the update
    defines for it, [updated_at] takes the time of the call, and every other
    column keeps its value. *)
Definition updated_row (env : Env) (updates : UserUpdate) (u : UserRow) : UserRow :=
  mkUserRow (u_id u)
    (match upd_username updates with Some v => v | None => u_username u end)
    (match upd_password updates with
     | Some password => bcrypt_hash env password (bcrypt_rounds env)
     | None => u_password_hash u
     end)
    (u_created_at u) (now_iso env) (u_last_login u)
    (match upd_is_admin updates with Some v => v | None => u_is_admin u end)
    (match upd_is_active updates with Some v => v | None => u_is_active u end)
    (u_available_boosters u) (u_next_booster_time u) (u_boosters_opened_today u)
    (u_last_booster_opened u) (u_berrys u) (u_favorite_card_id u).

(** At least one property of the update is defined. *)
Definition defines_a_field (updates : UserUpdate) : bool :=
  match upd_username updates, upd_password updates, upd_is_admin updates,
        upd_is_active updates with
  | None, None, None, None => false
  | _, _, _, _ => true
  end.

(** The last line [initializeExistingUsers] writes after counting [n] users. *)
Definition report (n : nat) : LogLine :=
  if (0 <? n)%nat then
    console_log
      ("✅ " ++ show n ++ " utilisateur(s) initialisé(s) avec la première île et Luffy")%string
  else all_initialized.

(** The line [initializeExistingUsers] writes before it rethrows. *)
Definition users_failure (e : Exn) : LogLine :=
  console_error "❌ Erreur lors de l'initialisation des utilisateurs existants:" (Some e).

(** The line [seedWorldMapData] writes before it rethrows. *)
Definition seed_failure (e : Exn) : LogLine :=
  console_error "❌ Erreur lors du peuplement:" (Some e).

(** The statements that leave [users] alone. *)
Definition spares_users (s : Stmt) : bool :=
  match s with
  | INSERT_users _ _ _ | UPDATE_users_SET _ _ | UPDATE_users_berrys _ _ _ => false
  | _ => true
  end.

(** The coordinates a table of [(id, latitude, longitude)] gives an island. *)
Definition coordinates_in (table : list (string * Z * Z)) (id : string) : option (Z * Z) :=
  option_map (fun entry => (snd (fst entry), snd entry))
    (find (fun entry => (fst (fst entry) =? id)%string) table).

(** An island row with the coordinates of the table, if the table lists it. *)
Definition moved_by (table : list (string * Z * Z)) (r : IslandRow) : IslandRow :=
  match coordinates_in table (i_id (ir_cols r)) with
  | Some (latitude, longitude) => set_coordinates latitude longitude r
  | None => r
  end.

Definition coordinate_update (entry : string * Z * Z) : Stmt :=
  UPDATE_islands_coordinates (snd (fst entry)) (snd entry) (fst (fst entry)).

(** ** A sample world *)

Module Sample.

(** Column defaults of [users]: an account is active when created. *)
Definition defaults : UserRow :=
  mkUserRow "" "" "" "2025-01-01 00:00:00" "2025-01-01 00:00:00" None false true
    (Some 1) None (Some 0) None (INTEGER 0) None.

Definition nami : UserRow :=
  mkUserRow "u1" "nami" "$2a$12$nami" "2025-01-01 00:00:00" "2025-01-01 00:00:00" None
    false true (Some 1) None (Some 0) None (INTEGER 999999990) None.

Definition usopp : UserRow :=
  mkUserRow "u2" "usopp" "$2a$12$usopp" "2025-01-02 00:00:00" "2025-01-02 00:00:00" None
    false true (Some 1) None (Some 0) None (INTEGER 10) None.

(** A store before the world map exists: two users, no catalog. *)
Definition unseeded : DB := mkDB defaults [nami; usopp] [] [] [] [] [] [] [].

Definition meat : QuestData :=
  mkQuest "quest_fuchsia_1" "island_windmill_village" "Chercher de la viande"
    "Luffy a toujours faim ! Trouvez de la viande pour le repas."
    1 50 1 (Some "crew_luffy") 1 true.

Definition training : QuestData :=
  mkQuest "quest_fuchsia_2" "island_windmill_village" "Entraînement au combat"
    "S'entraîner pour devenir plus fort !" 2 75 1 None 2 true.

(** Nami started [quest_fuchsia_1] with Luffy at time 0; Usopp collected it once. *)
Definition luffy_at_work : ActiveQuestRow :=
  mkActiveQuest "aq1" "u1" "quest_fuchsia_1" ["crew_luffy"] 0.

Definition collected : QuestHistoryRow :=
  mkQuestHistory "u2" "quest_fuchsia_1" ["crew_luffy"] 0 3600000 50.

Definition playing : DB :=
  mkDB defaults [nami; usopp]
    [mkIslandRow
       (mkIsland "island_windmill_village" "Village de Fuchsia" 1
          "Le village natal de Luffy dans East Blue" 12 8 None (Some berrys) (Some 500) None) 1]
    [mkCrewRow
       (mkCrew "crew_luffy" "Monkey D. Luffy"
          "Le capitaine de l'équipage, déterminé à devenir le Roi des Pirates"
          "/images/crew/luffy.png" None 1) 1]
    [mkQuestRow meat 1; mkQuestRow training 1]
    [mkUserIsland "ui1" "u1" "island_windmill_village" "2025-01-01 00:00:00"]
    [mkUserCrew "uc1" "u1" "crew_luffy" "2025-01-01 00:00:00"]
    [luffy_at_work]
    [collected].

Definition world (d : DB) : World := mkWorld d [] [].

Definition env : Env :=
  mkEnv "7f9c2ba4-e88f-4d2b-9d3a-0c5f3e1a6b7d" "2025-06-01T12:00:00.000Z" 12
    (fun password rounds => ("$2a$12$" ++ password)%string).

(** The ledger of the specification, and one whose store is out of reach. *)
Definition working : WorldMapModel := ledger (fun _ => env).

Definition failing : WorldMapModel :=
  {| unlockIsland := fun _ _ => throw (Error "SQLITE_BUSY: database is locked");
     unlockCrewMember := fun _ _ => throw (Error "SQLITE_BUSY: database is locked") |}.

(** Collaborators of which only the required steps work: the database
    opens, the migrations run and there is no booster; the importer and
    the achievement service are out of order. *)
Definition degraded : Collaborators := {|
  Database_initialize := ret tt;
  MigrationManager_migrate := ret tt;
  BoosterModel_count := ret 0;
  VegapullImporter_importData := throw (Error "vegapull data not found");
  VegapullImporter_cleanup := ret tt;
  SELECT_COUNT_active_achievements := throw (Error "no such table: achievements");
  SELECT_COUNT_booster_achievements := throw (Error "no such table: achievements");
  AchievementService_initializeDefaultAchievements := ret tt;
  AchievementService_createAllBoosterAchievements := ret tt;
  Database_close := ret tt
|}.

End Sample.

(** * Properties *)

(** ** Lists of rows *)

Lemma find_update_where {A} (key : A -> string) (f : A -> A) id id' rows :
  (forall r, key (f r) = key r) ->
  find (fun r => (key r =? id')%string) (update_where key id f rows) =
  option_map (fun r => if (key r =? id)%string then f r else r)
    (find (fun r => (key r =? id')%string) rows).
Proof.
  intros Hkey. unfold update_where.
  induction rows as [|r rows IH]; simpl; [reflexivity|].
  destruct (key r =? id)%string eqn:E.
  - rewrite Hkey. destruct (key r =? id')%string; simpl; [now rewrite E | exact IH].
  - destruct (key r =? id')%string; simpl; [now rewrite E | exact IH].
Qed.

Lemma find_app {A} (p : A -> bool) xs ys :
  find p (xs ++ ys) = match find p xs with Some x => Some x | None => find p ys end.
Proof.
  induction xs as [|x xs IH]; simpl; [reflexivity|].
  destruct (p x); [reflexivity | exact IH].
Qed.

(** ** Numbers *)

Lemma iter_xO_pow m k : Zpos (Pos.iter xO m k) = Zpos m * 2 ^ Zpos k.
Proof.
  induction k using Pos.peano_ind.
  - cbn [Pos.iter]. rewrite (Pos2Z.inj_xO m). change (2 ^ 1) with 2. lia.
  - rewrite Pos.iter_succ, (Pos2Z.inj_xO (Pos.iter xO m k)), IHk, Pos2Z.inj_succ, Z.pow_succ_r by lia. lia.
Qed.

Lemma digits2_iter_xO m k : digits2_pos (Pos.iter xO m k) = (digits2_pos m + k)%positive.
Proof.
  induction k using Pos.peano_ind.
  - cbn [Pos.iter digits2_pos]. lia.
  - rewrite Pos.iter_succ. cbn [digits2_pos]. rewrite IHk. lia.
Qed.

Lemma digits2_lower m : 2 ^ (Zpos (digits2_pos m) - 1) <= Zpos m.
Proof.
  induction m as [m IH|m IH|]; cbn [digits2_pos].
  - rewrite Pos2Z.inj_succ, (Pos2Z.inj_xI m).
    replace (Z.succ (Zpos (digits2_pos m)) - 1) with (Z.succ (Zpos (digits2_pos m) - 1)) by lia.
    rewrite Z.pow_succ_r by lia. lia.
  - rewrite Pos2Z.inj_succ, (Pos2Z.inj_xO m).
    replace (Z.succ (Zpos (digits2_pos m)) - 1) with (Z.succ (Zpos (digits2_pos m) - 1)) by lia.
    rewrite Z.pow_succ_r by lia. lia.
  - reflexivity.
Qed.

Lemma digits2_int32 m : Zpos m <= 2147483648 -> Zpos (digits2_pos m) <= 32.
Proof.
  intros H. destruct (Z_le_gt_dec (Zpos (digits2_pos m)) 32) as [|Hgt]; [assumption|].
  exfalso. pose proof (digits2_lower m) as Hl.
  assert (2 ^ 32 <= 2 ^ (Zpos (digits2_pos m) - 1)) by (apply Z.pow_le_mono_r; lia).
  change (2 ^ 32) with 4294967296 in *. lia.
Qed.

Lemma binary_round_small s m :
  Zpos m <= 2147483648 ->
  exists k, binary_round 53 1024 s m 0 = S754_finite s (Pos.iter xO m k) (Zneg k).
Proof.
  intros H. pose proof (digits2_int32 m H) as Hd.
  set (d := digits2_pos m) in *.
  assert (Hk : exists k, Zpos d + Zpos k = 53 /\ (d + k = 53)%positive).
  { exists (Z.to_pos (53 - Zpos d)). rewrite Z2Pos.id by lia. split; lia. }
  destruct Hk as (k & Hk & Hk').
  exists k.
  unfold binary_round.
  assert (Hf : fexp 53 1024 (Zpos (digits2_pos m) + 0) = Zneg k).
  { fold d. unfold fexp, emin. rewrite Z.add_0_r. lia. }
  rewrite Hf. unfold shl_align. cbn [Z.sub Z.add Z.opp].
  unfold binary_round_aux, shr_fexp. cbn [shr_record_of_loc Zdigits2].
  rewrite digits2_iter_xO. fold d. rewrite Hk'.
  assert (Hf2 : fexp 53 1024 (53 + Zneg k) = Zneg k).
  { unfold fexp, emin. lia. }
  rewrite Hf2. rewrite Z.sub_diag. cbn [shr shr_m loc_of_shr_record round_nearest_even shr_record_of_loc Zdigits2].
  rewrite digits2_iter_xO. fold d. rewrite Hk', Hf2, Z.sub_diag.
  cbn [shr shr_m].
  assert (Hle : (Zneg k <=? 1024 - 53) = true) by (apply Z.leb_le; lia).
  now rewrite Hle.
Qed.

Lemma to_int_of_int n : int32 n = true -> to_int (of_int n) = Some n.
Proof.
  unfold int32. intros H. apply andb_true_iff in H. destruct H as [Hlo Hhi].
  apply Z.leb_le in Hlo, Hhi.
  destruct n as [|m|m]; [reflexivity| |]; unfold of_int, binary_normalize.
  - destruct (binary_round_small false m) as (k & ->); [lia|].
    cbn [to_int]. rewrite iter_xO_pow, Z.mod_mul, Z.eqb_refl by lia.
    now rewrite Z.div_mul by lia.
  - destruct (binary_round_small true m) as (k & ->); [lia|].
    cbn [to_int]. rewrite iter_xO_pow, Z.mod_mul, Z.eqb_refl by lia.
    now rewrite Z.div_mul by lia.
Qed.

Lemma of_int_not_nan n : int32 n = true -> of_int n <> S754_nan.
Proof.
  intros H Hn. pose proof (to_int_of_int n H) as Ht. rewrite Hn in Ht. discriminate.
Qed.

Lemma bind_number_of_int n : int32 n = true -> bind_number (of_int n) = INTEGER n.
Proof.
  intros H. unfold bind_number. rewrite (to_int_of_int n H), H.
  destruct (of_int n) eqn:E; try reflexivity.
  now destruct (of_int_not_nan n H).
Qed.

Lemma bind_MAX_BERRYS : bind_number UserModel.MAX_BERRYS = INTEGER 999999999.
Proof. apply bind_number_of_int. reflexivity. Qed.

(** On whole numbers inside the 64-bit range the statement computes
    [min (balance + amount) 999999999]. *)
Lemma berrys_whole balance p n :
  whole balance = Some p ->
  int64 (p + n) = true ->
  integer_affinity (sql_min (sql_add (COALESCE0 balance) (INTEGER n)) (INTEGER 999999999)) =
  INTEGER (Z.min (p + n) 999999999).
Proof.
  intros Hp Hsum.
  assert (Hadd : sql_add (COALESCE0 balance) (INTEGER n) = INTEGER (p + n)).
  { destruct balance as [|i|x]; cbn [whole] in Hp; [| |discriminate];
      injection Hp as <-; cbn [COALESCE0 sql_add]; now rewrite Hsum. }
  rewrite Hadd. cbn [sql_min sql_compare].
  destruct (Z.compare_spec (p + n) 999999999) as [Heq|Hlt|Hgt]; cbn [integer_affinity]; f_equal; lia.
Qed.

(** ** [UserModel.addBerrys] *)

Lemma SELECT_berrys_addBerrys userId id amount w :
  SELECT_berrys id (db (snd (UserModel.addBerrys userId amount w))) =
  option_map
    (fun b => if (id =? userId)%string
              then integer_affinity
                     (sql_min (sql_add (COALESCE0 b) (bind_number amount))
                        (bind_number UserModel.MAX_BERRYS))
              else b)
    (SELECT_berrys id (db w)).
Proof.
  unfold SELECT_berrys, UserModel.addBerrys, Database_run. cbn [snd db exec t_users with_users].
  rewrite (find_update_where u_id) by reflexivity.
  destruct (find _ (t_users (db w))) as [u|] eqn:E; cbn [option_map]; [|reflexivity].
  apply find_some in E. destruct E as [_ E]. apply String.eqb_eq in E. rewrite E.
  destruct (id =? userId)%string; reflexivity.
Qed.

(** A grant of a 32-bit integer to a whole balance. *)
Lemma addBerrys_whole userId prior p n w :
  SELECT_berrys userId (db w) = Some prior ->
  whole prior = Some p ->
  int32 n = true ->
  int64 (p + n) = true ->
  SELECT_berrys userId (db (snd (UserModel.addBerrys userId (of_int n) w))) =
  Some (INTEGER (Z.min (p + n) 999999999)).
Proof.
  intros Hprior Hp Hn Hsum.
  rewrite SELECT_berrys_addBerrys, Hprior. cbn [option_map]. rewrite String.eqb_refl.
  rewrite (bind_number_of_int n Hn), bind_MAX_BERRYS.
  now rewrite (berrys_whole prior p n Hp Hsum).
Qed.

Lemma grants_cons userId a amounts w :
  snd (grants userId (a :: amounts) w) =
  snd (grants userId amounts (snd (UserModel.addBerrys userId a w))).
Proof. reflexivity. Qed.

(** The arithmetic of the cap. *)
Lemma cap_step b a a' :
  0 <= a' ->
  Z.min (Z.min (b + a) 999999999 + a') 999999999 =
  Z.min (b + a + a') 999999999.
Proof. lia. Qed.

Lemma int64_between lo hi z :
  int64 lo = true -> int64 hi = true -> lo <= z <= hi -> int64 z = true.
Proof.
  unfold int64. intros Hlo Hhi Hz.
  apply andb_true_iff in Hlo, Hhi. apply andb_true_iff.
  rewrite !Z.leb_le in *. lia.
Qed.

Lemma total_nonneg ns : Forall (fun n => 0 <= n /\ int32 n = true) ns -> 0 <= total ns.
Proof.
  induction 1 as [|m ms [Hm _] _ IH]; cbn [total fold_right]; [lia|].
  change (fold_right Z.add 0 ms) with (total ms). lia.
Qed.

(** Non-negative 32-bit grants to a whole balance within the cap: a
    saturating sum. *)
Lemma grants_saturating userId ns :
  Forall (fun n => 0 <= n /\ int32 n = true) ns ->
  forall w s,
    SELECT_berrys userId (db w) = Some (INTEGER s) ->
    int64 s = true ->
    s <= 999999999 ->
    SELECT_berrys userId (db (snd (grants userId (map of_int ns) w))) =
    Some (INTEGER (Z.min (s + total ns) 999999999)).
Proof.
  induction 1 as [|n ns [Hpos Hn] Hrest IH]; intros w s Hs Hlow Hcap.
  - cbn [map grants for_of ret snd total fold_right]. rewrite Hs, Z.add_0_r. do 2 f_equal. lia.
  - cbn [map]. rewrite grants_cons.
    assert (H32 : -2147483648 <= n <= 2147483647).
    { unfold int32 in Hn. apply andb_true_iff in Hn. rewrite !Z.leb_le in Hn. exact Hn. }
    assert (Hsum : int64 (s + n) = true).
    { apply (int64_between s 9223372036854775807); [exact Hlow|reflexivity|lia]. }
    rewrite (IH _ (Z.min (s + n) 999999999)).
    + change (total (n :: ns)) with (n + total ns).
      assert (Htotal : 0 <= total ns) by now apply total_nonneg.
      do 2 f_equal. lia.
    + exact (addBerrys_whole userId (INTEGER s) s n w Hs eq_refl Hn Hsum).
    + apply (int64_between s 999999999); [exact Hlow|reflexivity|lia].
    + lia.
Qed.



(** ** [UserModel.update] *)

(** C9. With [username], [password], [is_admin] and [is_active] all
    undefined, [update] writes nothing (the world is left as it was, so not
    even [updated_at] changes) and returns what [findById] returns. *)
Theorem update_without_fields :
  forall env id w,
    UserModel.update env id (mkUserUpdate None None None None) w = UserModel.findById id w /\
    snd (UserModel.update env id (mkUserUpdate None None None None) w) = w.
Proof.
  intros env id w. split; [reflexivity|].
  unfold UserModel.update, UserModel.findById, bind, Database_get; simpl.
  destruct (SELECT_user_by_id id (db w)); reflexivity.
Qed.

(** ** Running computations *)

Lemma bind_Ok {A B} (m : M A) (k : A -> M B) w a w' :
  m w = (Ok a, w') -> bind m k w = k a w'.
Proof. intros H. unfold bind. now rewrite H. Qed.

Lemma try_catch_Ok {A} (body : M A) handler w a w' :
  body w = (Ok a, w') -> try_catch body handler w = (Ok a, w').
Proof. intros H. unfold try_catch. now rewrite H. Qed.

Lemma try_catch_Throw {A} (body : M A) handler w e w' :
  body w = (Throw e, w') -> try_catch body handler w = handler e w'.
Proof. intros H. unfold try_catch. now rewrite H. Qed.

(** ** [UserModel.create] *)

Lemma SELECT_user_by_id_inserted id username password_hash d :
  u_is_active (users_defaults d) = true ->
  exists row,
    SELECT_user_by_id id (exec (INSERT_users id username password_hash) d) = Some row /\
    ((forall r, In r (t_users d) -> u_id r <> id) ->
     row = new_user_row (users_defaults d) id username password_hash).
Proof.
  intros Hactive. unfold SELECT_user_by_id. simpl. rewrite find_app.
  destruct (find _ (t_users d)) as [old|] eqn:E.
  - exists old. split; [reflexivity|]. intros Hfresh.
    apply find_some in E. destruct E as [Hin Hid].
    apply andb_prop in Hid. destruct Hid as [Hid _]. apply String.eqb_eq in Hid.
    now destruct (Hfresh old Hin).
  - eexists. simpl. rewrite String.eqb_refl, Hactive. simpl. split; reflexivity.
Qed.

(** C6. [UserModel.create] returns the user it has just inserted whatever
    the baseline grant does.  The two unlock calls run from the world the
    INSERT has produced; when they complete, [create] returns the user in the
    world they leave; when one of them throws, [create] writes the error to
    the console and returns the same user all the same.  (The inserted row is
    one [findById] reads, that is, the schema gives [is_active] the value 1.) *)
Theorem create_returns_user_despite_baseline_failure :
  forall (L : WorldMapModel) env userData w,
    u_is_active (users_defaults (db w)) = true ->
    let id := uuidv4 env in
    let password_hash := bcrypt_hash env (uc_password userData) (bcrypt_rounds env) in
    let inserted := snd (Database_run (INSERT_users id (uc_username userData) password_hash) w) in
    let baseline :=
      unlockIsland id "island_windmill_village" ;; unlockCrewMember id "crew_luffy" in
    exists user,
      UserModel.findById id inserted = (Ok (Some user), inserted) /\
      ((forall r, In r (t_users (db w)) -> u_id r <> id) ->
       columns user =
       new_user_row (users_defaults (db w)) id (uc_username userData) password_hash) /\
      match baseline inserted with
      | (Ok _, w') => UserModel.create env userData w = (Ok user, w')
      | (Throw e, w') =>
          UserModel.create env userData w =
          (Ok user,
           logged (console_error "Erreur lors de l'initialisation du nouveau joueur:" (Some e)) w')
      end.
Proof.
  intros L env userData w Hactive id password_hash inserted baseline.
  destruct (SELECT_user_by_id_inserted id (uc_username userData) password_hash (db w) Hactive)
    as (row & Hrow & Hfresh).
  assert (Hfind : UserModel.findById id inserted =
                  (Ok (Some (mkUser row (UserModel.to_Date (u_next_booster_time row))
                                    (UserModel.to_Date (u_last_booster_opened row)))),
                   inserted)).
  { unfold UserModel.findById, bind, Database_get, inserted, Database_run.
    cbn [snd db]. now rewrite Hrow. }
  eexists. split; [exact Hfind|]. split.
  - intros H. simpl. now apply Hfresh.
  - unfold UserModel.create.
    fold id. fold password_hash.
    rewrite (bind_Ok _ _ w tt inserted) by reflexivity.
    rewrite (bind_Ok _ _ _ _ _ Hfind).
    fold baseline.
    destruct (baseline inserted) as [[[]|e] w'] eqn:Hb.
    + erewrite bind_Ok; [reflexivity|]. exact (try_catch_Ok _ _ _ _ _ Hb).
    + erewrite bind_Ok; [reflexivity|]. now rewrite (try_catch_Throw _ _ _ _ _ Hb).
Qed.

(** ** Baseline reconciliation *)

Lemma granted_nil d : granted [] [] d = d.
Proof. destruct d; unfold granted, with_user_crew_members, with_user_islands; simpl.
  now rewrite !app_nil_r. Qed.

Lemma granted_granted ri rc ri' rc' d :
  granted ri' rc' (granted ri rc d) = granted (ri ++ ri') (rc ++ rc') d.
Proof. unfold granted, with_user_crew_members, with_user_islands; simpl.
  now rewrite !app_assoc. Qed.

Lemma isIslandUnlocked_granted u i ri rc d :
  isIslandUnlocked u i d = true -> isIslandUnlocked u i (granted ri rc d) = true.
Proof.
  unfold isIslandUnlocked, SELECT_user_island; simpl. rewrite find_app.
  now destruct (find _ (t_user_islands d)).
Qed.

Lemma isCrewUnlocked_granted u c ri rc d :
  isCrewUnlocked u c d = true -> isCrewUnlocked u c (granted ri rc d) = true.
Proof.
  unfold isCrewUnlocked, SELECT_user_crew_member; simpl. rewrite find_app.
  now destruct (find _ (t_user_crew_members d)).
Qed.

Lemma has_baseline_granted u ri rc d :
  has_baseline u d = true -> has_baseline u (granted ri rc d) = true.
Proof.
  unfold has_baseline. intros H. apply andb_prop in H. destruct H as [Hi Hc].
  now rewrite isIslandUnlocked_granted, isCrewUnlocked_granted.
Qed.

(** Whatever the ledger is: a user who holds the baseline is left alone,
    no ledger call is made and the world is as it was. *)
Lemma reconcileUser_held (L : WorldMapModel) u w :
  has_baseline u (db w) = true -> reconcileUser u w = (Ok false, w).
Proof.
  unfold has_baseline, isIslandUnlocked, isCrewUnlocked, reconcileUser, bind, Database_get, ret.
  destruct (SELECT_user_island u "island_windmill_village" (db w)); [|discriminate].
  cbv beta iota.
  destruct (SELECT_user_crew_member u "crew_luffy" (db w)); intros H;
    [reflexivity | discriminate H].
Qed.

Lemma count_loop_held (L : WorldMapModel) users :
  forall n w,
    (forall u, In u users -> has_baseline u (db w) = true) ->
    for_of_with users n count_turn w = (Ok n, w).
Proof.
  induction users as [|u users IH]; intros n w Hheld; [reflexivity|].
  assert (Hturn : count_turn u n w = (Ok n, w)).
  { unfold count_turn.
    now rewrite (bind_Ok _ _ _ _ _ (reconcileUser_held L u w (Hheld u (or_introl eq_refl)))). }
  simpl. rewrite (bind_Ok _ _ _ _ _ Hturn).
  apply IH. intros v Hin. apply Hheld. now right.
Qed.

(** So a run over users who all hold the baseline writes nothing and
    reports that there was nothing to do, whatever the ledger is. *)
Lemma initializeExistingUsers_held (L : WorldMapModel) w :
  (forall u, In u (SELECT_active_user_ids (db w)) -> has_baseline u (db w) = true) ->
  initializeExistingUsers w = (Ok tt, logged all_initialized (logged initializing_users w)).
Proof.
  intros Hheld. unfold initializeExistingUsers. apply try_catch_Ok.
  rewrite (bind_Ok _ _ w tt (logged initializing_users w)) by reflexivity.
  assert (Hcount : count_usersInitialized (logged initializing_users w) =
                   (Ok 0%nat, logged initializing_users w)).
  { unfold count_usersInitialized.
    rewrite (bind_Ok _ _ (logged initializing_users w) (SELECT_active_user_ids (db w))
               (logged initializing_users w)) by reflexivity.
    now apply count_loop_held. }
  now rewrite (bind_Ok _ _ _ _ _ Hcount).
Qed.

Section Reconciliation.

Context (L : WorldMapModel) (contract : LedgerContract L).

(** One turn of the loop, under the ledger's contract. *)
Lemma reconcileUser_run u w :
  exists w' written ri rc,
    reconcileUser u w = (Ok (negb (has_baseline u (db w))), w') /\
    journal w' = journal w ++ written /\
    db w' = granted ri rc (db w) /\
    match SELECT_user_island u "island_windmill_village" (db w) with
    | Some _ => ri = []
    | None => exists r, ri = [r] /\ ui_user_id r = u /\ ui_island_id r = "island_windmill_village"
    end /\
    match SELECT_user_crew_member u "crew_luffy" (db w) with
    | Some _ => rc = []
    | None => exists r, rc = [r] /\ ucm_user_id r = u /\ ucm_crew_member_id r = "crew_luffy"
    end /\
    (has_baseline u (db w) = true -> w' = w).
Proof.
  unfold reconcileUser, has_baseline, isIslandUnlocked, isCrewUnlocked.
  rewrite (bind_Ok _ _ w (SELECT_user_island u "island_windmill_village" (db w)) w)
    by reflexivity.
  destruct (unlockIsland_ensures u "island_windmill_village" w) as (w1 & j1 & Hrun1 & Hj1 & Hdb1).
  destruct (SELECT_user_island u "island_windmill_village" (db w)) as [row|] eqn:Hisland.
  - rewrite (bind_Ok _ _ w false w) by reflexivity.
    rewrite (bind_Ok _ _ w (SELECT_user_crew_member u "crew_luffy" (db w)) w) by reflexivity.
    destruct (unlockCrewMember_ensures u "crew_luffy" w) as (w2 & j2 & Hrun2 & Hj2 & Hdb2).
    destruct (SELECT_user_crew_member u "crew_luffy" (db w)) as [row'|] eqn:Hcrew.
    + exists w, [], [], []. rewrite app_nil_r, granted_nil. now repeat split.
    + destruct Hdb2 as (r & Hu & Hc & Hdb2).
      exists w2, j2, [], [r].
      rewrite (bind_Ok _ _ w true w2) by (now rewrite (bind_Ok _ _ _ _ _ Hrun2)).
      repeat split; try assumption; try discriminate.
      * rewrite Hdb2. destruct (db w); unfold granted, with_user_islands; simpl.
        now rewrite app_nil_r.
      * now exists r.
  - destruct Hdb1 as (r & Hu & Hi & Hdb1).
    rewrite (bind_Ok _ _ w true w1) by (now rewrite (bind_Ok _ _ _ _ _ Hrun1)).
    rewrite (bind_Ok _ _ w1 (SELECT_user_crew_member u "crew_luffy" (db w1)) w1) by reflexivity.
    assert (Hsame : SELECT_user_crew_member u "crew_luffy" (db w1) =
                    SELECT_user_crew_member u "crew_luffy" (db w)) by now rewrite Hdb1.
    destruct (unlockCrewMember_ensures u "crew_luffy" w1) as (w2 & j2 & Hrun2 & Hj2 & Hdb2).
    rewrite Hsame in *.
    destruct (SELECT_user_crew_member u "crew_luffy" (db w)) as [row'|] eqn:Hcrew.
    + exists w1, j1, [r], [].
      rewrite (bind_Ok _ _ w1 true w1) by reflexivity.
      repeat split; try assumption; try discriminate.
      * rewrite Hdb1. destruct (db w); unfold granted, with_user_crew_members; simpl.
        now rewrite app_nil_r.
      * now exists r.
    + destruct Hdb2 as (r' & Hu' & Hc' & Hdb2).
      exists w2, (j1 ++ j2), [r], [r'].
      rewrite (bind_Ok _ _ w1 true w2) by (now rewrite (bind_Ok _ _ _ _ _ Hrun2)).
      repeat split; try discriminate.
      * now rewrite Hj2, Hj1, app_assoc.
      * now rewrite Hdb2, Hdb1.
      * now exists r.
      * now exists r'.
Qed.

Lemma reconcileUser_baseline u w w' b :
  reconcileUser u w = (Ok b, w') -> has_baseline u (db w') = true.
Proof.
  intros Hrun.
  destruct (reconcileUser_run u w) as (w1 & j & ri & rc & Hrun1 & _ & Hdb & Hri & Hrc & _).
  rewrite Hrun in Hrun1. injection Hrun1 as _ <-. rewrite Hdb.
  unfold has_baseline, isIslandUnlocked, isCrewUnlocked, SELECT_user_island,
    SELECT_user_crew_member in *. simpl. rewrite !find_app.
  destruct (find _ (t_user_islands (db w))); simpl in Hri.
  - destruct (find _ (t_user_crew_members (db w))); simpl in Hrc; [reflexivity|].
    destruct Hrc as (r & -> & Hu & Hc). simpl. now rewrite Hu, Hc, !String.eqb_refl.
  - destruct Hri as (r & -> & Hu & Hi). simpl. rewrite Hu, Hi, !String.eqb_refl. simpl.
    destruct (find _ (t_user_crew_members (db w))); simpl in Hrc; [reflexivity|].
    destruct Hrc as (r' & -> & Hu' & Hc'). simpl. now rewrite Hu', Hc', !String.eqb_refl.
Qed.

(** The loop: it ends, it only appends unlock records, every user it has
    visited holds the baseline, and it changes and counts nothing when they
    all held it already. *)
Lemma count_loop users :
  forall n w,
    exists w' written ri rc n',
      for_of_with users n count_turn w = (Ok n', w') /\
      journal w' = journal w ++ written /\
      db w' = granted ri rc (db w) /\
      (forall u, In u users -> has_baseline u (db w') = true) /\
      ((forall u, In u users -> has_baseline u (db w) = true) -> w' = w /\ n' = n).
Proof.
  induction users as [|u users IH]; intros n w.
  - exists w, [], [], [], n. rewrite app_nil_r, granted_nil. simpl. now repeat split.
  - destruct (reconcileUser_run u w) as (w1 & j1 & ri1 & rc1 & Hrun1 & Hj1 & Hdb1 & _ & _ & Hsame).
    pose proof (reconcileUser_baseline _ _ _ _ Hrun1) as Hbase.
    set (n1 := if negb (has_baseline u (db w)) then S n else n).
    destruct (IH n1 w1) as (w' & j & ri & rc & n' & Hrun & Hj & Hdb & Hall & Hnone).
    exists w', (j1 ++ j), (ri1 ++ ri), (rc1 ++ rc), n'.
    assert (Hturn : count_turn u n w = (Ok n1, w1)).
    { unfold count_turn. now rewrite (bind_Ok _ _ _ _ _ Hrun1). }
    split; [simpl; now rewrite (bind_Ok _ _ _ _ _ Hturn)|].
    split; [now rewrite Hj, Hj1, app_assoc|].
    split; [now rewrite Hdb, Hdb1, granted_granted|].
    split.
    + intros v [<-|Hin]; [|now apply Hall].
      rewrite Hdb. now apply has_baseline_granted.
    + intros Hheld.
      assert (Hu : has_baseline u (db w) = true) by (apply Hheld; now left).
      specialize (Hsame Hu). subst w1.
      destruct Hnone as [-> ->]; [intros v Hin; apply Hheld; now right|].
      split; [reflexivity|]. unfold n1. now rewrite Hu.
Qed.

Lemma SELECT_active_user_ids_granted ri rc d :
  SELECT_active_user_ids (granted ri rc d) = SELECT_active_user_ids d.
Proof. reflexivity. Qed.

Lemma count_usersInitialized_run w :
  exists w' written ri rc n,
    count_usersInitialized w = (Ok n, w') /\
    journal w' = journal w ++ written /\
    db w' = granted ri rc (db w) /\
    (forall u, In u (SELECT_active_user_ids (db w)) -> has_baseline u (db w') = true) /\
    ((forall u, In u (SELECT_active_user_ids (db w)) -> has_baseline u (db w) = true) ->
     w' = w /\ n = 0%nat).
Proof.
  destruct (count_loop (SELECT_active_user_ids (db w)) 0%nat w)
    as (w' & j & ri & rc & n & Hrun & H).
  exists w', j, ri, rc, n. split; [|exact H].
  unfold count_usersInitialized.
  rewrite (bind_Ok _ _ w (SELECT_active_user_ids (db w)) w) by reflexivity.
  exact Hrun.
Qed.

Lemma initializeExistingUsers_run w :
  exists w' written ri rc,
    initializeExistingUsers w = (Ok tt, w') /\
    journal w' = journal w ++ written /\
    db w' = granted ri rc (db w) /\
    (forall u, In u (SELECT_active_user_ids (db w)) -> has_baseline u (db w') = true) /\
    ((forall u, In u (SELECT_active_user_ids (db w)) -> has_baseline u (db w) = true) ->
     w' = logged all_initialized (logged initializing_users w)).
Proof.
  destruct (count_usersInitialized_run (logged initializing_users w))
    as (w1 & j & ri & rc & n & Hrun & Hj & Hdb & Hall & Hnone).
  set (line := if (0 <? n)%nat
               then console_log
                      ("✅ " ++ show n
                       ++ " utilisateur(s) initialisé(s) avec la première île et Luffy")%string
               else all_initialized).
  exists (logged line w1), j, ri, rc.
  split; [|split; [exact Hj|split; [exact Hdb|split; [exact Hall|]]]].
  - unfold initializeExistingUsers. apply try_catch_Ok.
    rewrite (bind_Ok _ _ w tt (logged initializing_users w)) by reflexivity.
    rewrite (bind_Ok _ _ _ _ _ Hrun). unfold line. now destruct (0 <? n)%nat.
  - intros Hheld. destruct (Hnone Hheld) as [-> ->]. reflexivity.
Qed.

End Reconciliation.

(** C1. Reconciliation is idempotent.  Whatever the store holds, a first
    run of [initializeExistingUsers] completes, and a second run right after
    it completes too, writes nothing (the store and the journal are those the
    first run left, so [user_islands] and [user_crew_members] are unchanged),
    counts zero users and reports that all users are initialised already. *)
Theorem initializeExistingUsers_idempotent :
  forall (L : WorldMapModel),
    LedgerContract L ->
    forall w,
    exists w1 w2,
      initializeExistingUsers w = (Ok tt, w1) /\
      initializeExistingUsers w1 = (Ok tt, w2) /\
      db w2 = db w1 /\
      journal w2 = journal w1 /\
      count_usersInitialized (logged initializing_users w1) =
        (Ok 0%nat, logged initializing_users w1) /\
      console w2 = console w1 ++ [initializing_users; all_initialized].
Proof.
  intros L contract w.
  destruct (initializeExistingUsers_run L contract w)
    as (w1 & j & ri & rc & Hrun1 & _ & Hdb1 & Hall & _).
  assert (Hheld : forall u, In u (SELECT_active_user_ids (db w1)) ->
                            has_baseline u (db w1) = true).
  { intros u. rewrite Hdb1 at 1. rewrite SELECT_active_user_ids_granted. apply Hall. }
  destruct (initializeExistingUsers_run L contract w1)
    as (w2 & j2 & ri2 & rc2 & Hrun2 & _ & _ & _ & Hnone).
  specialize (Hnone Hheld). subst w2.
  exists w1, (logged all_initialized (logged initializing_users w1)).
  split; [exact Hrun1|]. split; [exact Hrun2|]. split; [reflexivity|].
  split; [reflexivity|]. split.
  - destruct (count_usersInitialized_run L contract (logged initializing_users w1))
      as (w3 & j3 & ri3 & rc3 & n & Hrun3 & _ & _ & _ & Hnone3).
    destruct (Hnone3 Hheld) as [-> ->]. exact Hrun3.
  - simpl. now rewrite <- app_assoc.
Qed.

(** C3. One turn of the loop of [initializeExistingUsers] ([reconcileUser])
    completes and leaves the user holding the root island and the root crew
    member, whatever the store held.  What it decides rests on the two
    records it looks up and on nothing else: [user_islands] gains a record,
    for this user and the root island, exactly when that record was missing,
    [user_crew_members] gains one, for this user and Luffy, exactly when that
    one was missing, and every other row and table (other unlocks, quest
    instances, history, users, catalog) is as it was. *)
Theorem reconcileUser_grants_baseline_only :
  forall (L : WorldMapModel),
    LedgerContract L ->
    forall u w,
    exists w' ri rc,
      reconcileUser u w = (Ok (negb (has_baseline u (db w))), w') /\
      isIslandUnlocked u "island_windmill_village" (db w') = true /\
      isCrewUnlocked u "crew_luffy" (db w') = true /\
      t_user_islands (db w') = t_user_islands (db w) ++ ri /\
      t_user_crew_members (db w') = t_user_crew_members (db w) ++ rc /\
      match SELECT_user_island u "island_windmill_village" (db w) with
      | Some _ => ri = []
      | None => exists r, ri = [r] /\ ui_user_id r = u /\
                          ui_island_id r = "island_windmill_village"
      end /\
      match SELECT_user_crew_member u "crew_luffy" (db w) with
      | Some _ => rc = []
      | None => exists r, rc = [r] /\ ucm_user_id r = u /\ ucm_crew_member_id r = "crew_luffy"
      end /\
      t_users (db w') = t_users (db w) /\
      t_islands (db w') = t_islands (db w) /\
      t_crew_members (db w') = t_crew_members (db w) /\
      t_quests (db w') = t_quests (db w) /\
      t_active_quests (db w') = t_active_quests (db w) /\
      t_quest_history (db w') = t_quest_history (db w).
Proof.
  intros L contract u w.
  destruct (reconcileUser_run L contract u w)
    as (w' & j & ri & rc & Hrun & _ & Hdb & Hri & Hrc & _).
  pose proof (reconcileUser_baseline L contract _ _ _ _ Hrun) as Hbase.
  apply andb_prop in Hbase. destruct Hbase as [Hi Hc].
  exists w', ri, rc. rewrite Hdb in *.
  repeat (split; [first [assumption | reflexivity]|]). reflexivity.
Qed.

(** ** The seed script, statement by statement *)

Lemma run_all_app ss ss' w : run_all (ss ++ ss') w = run_all ss' (run_all ss w).
Proof. unfold run_all; simpl. now rewrite fold_left_app, app_assoc. Qed.

Lemma for_of_Database_run {A} (f : A -> Stmt) xs w :
  for_of xs (fun x => Database_run (f x)) w = (Ok tt, run_all (map f xs) w).
Proof.
  revert w. induction xs as [|x xs IH]; intros w.
  - unfold run_all; simpl. rewrite app_nil_r. now destruct w.
  - change (map f (x :: xs)) with ([f x] ++ map f xs). rewrite run_all_app.
    simpl for_of. erewrite bind_Ok by reflexivity. apply IH.
Qed.

Lemma for_of_update_crew_member ms w :
  for_of ms update_crew_member w = (Ok tt, run_all (flat_map crew_update ms) w).
Proof.
  revert w. induction ms as [|m ms IH]; intros w.
  - unfold run_all; simpl. rewrite app_nil_r. now destruct w.
  - simpl flat_map. rewrite run_all_app. simpl for_of.
    erewrite bind_Ok; [apply IH|].
    unfold update_crew_member, crew_update.
    destruct (c_unlock_island_id m) as [x|]; [destruct (truthy (Some x))|];
      first [reflexivity | unfold ret, run_all; simpl; rewrite app_nil_r; now destruct w].
Qed.

Lemma positive_count {A} (rows : list A) :
  (0 <? Z.of_nat (length rows)) = match rows with [] => false | _ => true end.
Proof. destruct rows; [reflexivity|]. apply Z.ltb_lt. simpl length. lia. Qed.

Lemma writes_log l : writes (log l) [].
Proof. intros w. exists (logged l w). simpl. now rewrite app_nil_r. Qed.

Lemma writes_bind m k ss ss' :
  writes m ss -> writes k ss' -> writes (m ;; k) (ss ++ ss').
Proof.
  intros Hm Hk w.
  destruct (Hm w) as (w1 & Hrun1 & Hdb1 & Hj1).
  destruct (Hk w1) as (w2 & Hrun2 & Hdb2 & Hj2).
  exists w2. rewrite (bind_Ok _ _ _ _ _ Hrun1). split; [exact Hrun2|].
  rewrite Hdb2, Hj2, Hj1. unfold run_all in *; cbn [db journal] in *.
  now rewrite Hdb1, fold_left_app, app_assoc.
Qed.

Lemma writes_for_of {A} (f : A -> Stmt) xs :
  writes (for_of xs (fun x => Database_run (f x))) (map f xs).
Proof. intros w. eexists. split; [apply for_of_Database_run|]. split; reflexivity. Qed.

(** A loop between two lines of console output. *)
Lemma writes_between l m l' ss : writes m ss -> writes (log l ;; m ;; log l') ss.
Proof.
  intros Hm.
  pose proof (writes_bind _ _ _ _ (writes_log l) (writes_bind _ _ _ _ Hm (writes_log l'))) as H.
  now rewrite app_nil_r in H.
Qed.

Lemma writes_insert_crew_members : writes insert_crew_members crew_inserts.
Proof. apply writes_between, writes_for_of. Qed.

Lemma writes_insert_islands : writes insert_islands island_inserts.
Proof. apply writes_between, writes_for_of. Qed.

Lemma writes_update_crew_members : writes update_crew_members crew_updates.
Proof.
  apply writes_between.
  intros w. eexists. split; [apply for_of_update_crew_member|]. split; reflexivity.
Qed.

Lemma writes_insert_quests : writes insert_quests quest_inserts.
Proof. apply writes_between, writes_for_of. Qed.

(** The tables are deleted exactly when [islands] holds a row. *)
Lemma delete_existing_data_run w :
  let wiped := match t_islands (db w) with [] => [] | _ => deletes end in
  exists w',
    delete_existing_data w = (Ok tt, w') /\
    db w' = db (run_all wiped w) /\ journal w' = journal w ++ wiped.
Proof.
  intros wiped. unfold delete_existing_data.
  rewrite (bind_Ok _ _ w (SELECT_COUNT_islands (db w)) w) by reflexivity.
  unfold SELECT_COUNT_islands. rewrite positive_count. unfold wiped.
  destruct (t_islands (db w)).
  - exists w. simpl. now rewrite app_nil_r.
  - eexists. split; [reflexivity|]. split; [reflexivity|].
    cbn [journal logged]. now rewrite <- !app_assoc.
Qed.

(** The catalog part of [seedWorldMapData]: it completes, and the store and
    the journal it leaves are those of its statements in program order. *)
Lemma seed_catalog_run w :
  let wiped := match t_islands (db w) with [] => [] | _ => deletes end in
  let written := wiped ++ crew_inserts ++ island_inserts ++ crew_updates ++ quest_inserts in
  exists w',
    (delete_existing_data ;; insert_crew_members ;; insert_islands ;;
     update_crew_members ;; insert_quests) w = (Ok tt, w') /\
    db w' = db (run_all written w) /\
    journal w' = journal w ++ written.
Proof.
  intros wiped written.
  destruct (delete_existing_data_run w) as (w0 & Hrun0 & Hdb0 & Hj0).
  rewrite (bind_Ok _ _ _ _ _ Hrun0).
  destruct (writes_bind _ _ _ _ writes_insert_crew_members
              (writes_bind _ _ _ _ writes_insert_islands
                 (writes_bind _ _ _ _ writes_update_crew_members writes_insert_quests)) w0)
    as (w' & Hrun & Hdb & Hj).
  exists w'. split; [exact Hrun|].
  unfold run_all in Hdb, Hdb0; cbn [db] in Hdb, Hdb0.
  rewrite Hdb, Hj, Hdb0, Hj0. unfold written, run_all; cbn [db journal]. fold wiped. split.
  - symmetry. apply fold_left_app.
  - symmetry. apply app_assoc.
Qed.

Lemma seed_catalog_then {B} (k : M B) w :
  (delete_existing_data ;; insert_crew_members ;; insert_islands ;;
   update_crew_members ;; insert_quests ;; k) w =
  ((delete_existing_data ;; insert_crew_members ;; insert_islands ;;
    update_crew_members ;; insert_quests) ;; k) w.
Proof.
  unfold bind.
  destruct (delete_existing_data w) as [[[]|e] w0]; [|reflexivity].
  destruct (insert_crew_members w0) as [[[]|e] w1]; [|reflexivity].
  destruct (insert_islands w1) as [[[]|e] w2]; [|reflexivity].
  destruct (update_crew_members w2) as [[[]|e] w3]; [|reflexivity].
  now destruct (insert_quests w3) as [[[]|e] w4].
Qed.

(** The tables the catalog statements leave.  [islands] is the seed's list
    whatever was there; [crew_members] is the seed's list, each row with the
    [unlock_island_id] of its definition, when no stale row is in the way. *)
Lemma seeded_islands d :
  let wiped := match t_islands d with [] => [] | _ => deletes end in
  t_islands
    (fold_left (fun d s => exec s d)
       (wiped ++ crew_inserts ++ island_inserts ++ crew_updates ++ quest_inserts) d) =
  map (fun island => mkIslandRow island 1) islands.
Proof.
  destruct d as [dflt us isl cs qs uis ucs aqs qhs]. cbn [t_islands].
  destruct isl; vm_compute; reflexivity.
Qed.

Lemma seeded_crew_members d :
  (t_islands d = [] -> t_crew_members d = []) ->
  let wiped := match t_islands d with [] => [] | _ => deletes end in
  t_crew_members
    (fold_left (fun d s => exec s d)
       (wiped ++ crew_inserts ++ island_inserts ++ crew_updates ++ quest_inserts) d) =
  map (fun member => mkCrewRow member 1) crewMembers.
Proof.
  destruct d as [dflt us isl cs qs uis ucs aqs qhs]. cbn [t_islands t_crew_members].
  destruct isl; intros H.
  - rewrite (H eq_refl). vm_compute. reflexivity.
  - vm_compute. reflexivity.
Qed.

Lemma first_pass_crew_members d :
  (t_islands d = [] -> t_crew_members d = []) ->
  let wiped := match t_islands d with [] => [] | _ => deletes end in
  t_crew_members (fold_left (fun d s => exec s d) (wiped ++ crew_inserts) d) =
  map (fun member =>
         mkCrewRow (mkCrew (c_id member) (c_name member) (c_description member)
                      (c_image_url member) None (c_order_index member)) 1) crewMembers.
Proof.
  destruct d as [dflt us isl cs qs uis ucs aqs qhs]. cbn [t_islands t_crew_members].
  destruct isl; intros H.
  - rewrite (H eq_refl). vm_compute. reflexivity.
  - vm_compute. reflexivity.
Qed.

Lemma unlock_first_island_and_luffy_reconcileUser (L : WorldMapModel) u w :
  unlock_first_island_and_luffy u w =
  match reconcileUser u w with
  | (Ok _, w') => (Ok tt, w')
  | (Throw e, w') => (Throw e, w')
  end.
Proof.
  unfold unlock_first_island_and_luffy, reconcileUser, bind, Database_get, ret.
  destruct (SELECT_user_island u "island_windmill_village" (db w)).
  - destruct (SELECT_user_crew_member u "crew_luffy" (db w)); [reflexivity|].
    now destruct (unlockCrewMember u "crew_luffy" w) as [[[]|e] w1].
  - destruct (unlockIsland u "island_windmill_village" w) as [[[]|e] w1]; [|reflexivity].
    destruct (SELECT_user_crew_member u "crew_luffy" (db w1)); [reflexivity|].
    now destruct (unlockCrewMember u "crew_luffy" w1) as [[[]|e] w2].
Qed.

Section Seeding.

Context (L : WorldMapModel) (contract : LedgerContract L).

Lemma unlock_loop users :
  forall w,
    exists w' written ri rc,
      for_of users unlock_first_island_and_luffy w = (Ok tt, w') /\
      journal w' = journal w ++ written /\
      db w' = granted ri rc (db w) /\
      (forall u, In u users -> has_baseline u (db w') = true).
Proof.
  induction users as [|u users IH]; intros w.
  - exists w, [], [], []. rewrite app_nil_r, granted_nil. simpl. now repeat split.
  - destruct (reconcileUser_run L contract u w)
      as (w1 & j1 & ri1 & rc1 & Hrun1 & Hj1 & Hdb1 & _).
    pose proof (reconcileUser_baseline L contract _ _ _ _ Hrun1) as Hbase.
    destruct (IH w1) as (w' & j & ri & rc & Hrun & Hj & Hdb & Hall).
    exists w', (j1 ++ j), (ri1 ++ ri), (rc1 ++ rc).
    split.
    + simpl for_of. erewrite bind_Ok; [exact Hrun|].
      rewrite unlock_first_island_and_luffy_reconcileUser. now rewrite Hrun1.
    + split; [now rewrite Hj, Hj1, app_assoc|].
      split; [now rewrite Hdb, Hdb1, granted_granted|].
      intros v [<-|Hin]; [|now apply Hall].
      rewrite Hdb. now apply has_baseline_granted.
Qed.

(** [seedWorldMapData] under the ledger's contract: it completes; the store
    is the one its catalog statements leave, with unlock records appended;
    the journal is those statements in program order, then the ledger's. *)
Lemma seedWorldMapData_run w :
  let wiped := match t_islands (db w) with [] => [] | _ => deletes end in
  let catalog := wiped ++ crew_inserts ++ island_inserts ++ crew_updates ++ quest_inserts in
  exists w' written ri rc,
    seedWorldMapData w = (Ok tt, w') /\
    journal w' = journal w ++ catalog ++ written /\
    db w' = granted ri rc (db (run_all catalog w)) /\
    (forall u, In u (SELECT_active_user_ids (db (run_all catalog w))) ->
               has_baseline u (db w') = true).
Proof.
  intros wiped catalog.
  set (l0 := console_log
               ("🏴‍☠️ Début du peuplement des données de la carte du monde..." ++ nl)%string).
  destruct (seed_catalog_run (logged l0 w)) as (w1 & Hrun1 & Hdb1 & Hj1).
  cbn zeta in Hrun1, Hdb1, Hj1.
  change (db (logged l0 w)) with (db w) in Hdb1, Hj1.
  change (journal (logged l0 w)) with (journal w) in Hj1.
  fold wiped in Hdb1, Hj1. fold catalog in Hdb1, Hj1.
  set (l1 := console_log "🎯 Déb oquage initial pour tous les utilisateurs...").
  destruct (unlock_loop (SELECT_active_user_ids (db w1)) (logged l1 w1))
    as (w2 & j & ri & rc & Hrun2 & Hj2 & Hdb2 & Hall).
  eexists. exists j, ri, rc. split.
  - unfold seedWorldMapData.
    rewrite (bind_Ok _ _ w tt (logged l0 w)) by reflexivity.
    apply try_catch_Ok.
    rewrite seed_catalog_then. rewrite (bind_Ok _ _ _ _ _ Hrun1).
    rewrite (bind_Ok _ _ w1 tt (logged l1 w1)) by reflexivity.
    rewrite (bind_Ok _ _ (logged l1 w1) (SELECT_active_user_ids (db w1)) (logged l1 w1))
      by reflexivity.
    rewrite (bind_Ok _ _ _ _ _ Hrun2).
    unfold bind, log. reflexivity.
  - cbn [db journal logged].
    change (db (logged l1 w1)) with (db w1) in Hdb2.
    change (journal (logged l1 w1)) with (journal w1) in Hj2.
    split; [now rewrite Hj2, Hj1, <- app_assoc|].
    split; [now rewrite Hdb2, Hdb1|].
    intros u Hin. apply Hall. now rewrite Hdb1.
Qed.

End Seeding.

(** The second pass, spelled out: one UPDATE per crew member whose seed
    definition names an island; none for Luffy. *)
Lemma crew_updates_spelled_out :
  crew_updates =
  [UPDATE_crew_members_unlock_island_id "island_shells_town" "crew_zoro";
   UPDATE_crew_members_unlock_island_id "island_orange_town" "crew_nami";
   UPDATE_crew_members_unlock_island_id "island_syrup_village" "crew_usopp";
   UPDATE_crew_members_unlock_island_id "island_baratie" "crew_sanji";
   UPDATE_crew_members_unlock_island_id "island_drum" "crew_chopper";
   UPDATE_crew_members_unlock_island_id "island_alabasta" "crew_robin";
   UPDATE_crew_members_unlock_island_id "island_water_seven" "crew_franky";
   UPDATE_crew_members_unlock_island_id "island_thriller_bark" "crew_brook"].
Proof. vm_compute. reflexivity. Qed.

(** C7. [seedWorldMapData] seeds the crew in two passes.  On a store whose
    [crew_members] table is empty whenever its [islands] table is, it
    completes; its journal is, in order: the deletions (when [islands] held
    rows), one INSERT per crew member with [unlock_island_id] NULL, one INSERT
    per island, one UPDATE of [unlock_island_id] per crew member whose
    definition names an island, the quests, then what the ledger wrote; after
    the first pass every crew row has a NULL [unlock_island_id]; and in the
    store it leaves the [crew_members] table is the seed's list, every row
    with the [unlock_island_id] of its definition. *)
Theorem seedWorldMapData_two_pass_crew :
  forall (L : WorldMapModel),
    LedgerContract L ->
    forall w,
      (t_islands (db w) = [] -> t_crew_members (db w) = []) ->
      let wiped := match t_islands (db w) with [] => [] | _ => deletes end in
      exists w' written,
        seedWorldMapData w = (Ok tt, w') /\
        journal w' =
          journal w ++ wiped
          ++ map insert_crew_member crewMembers
          ++ map INSERT_islands islands
          ++ flat_map crew_update crewMembers
          ++ map INSERT_quests quests
          ++ written /\
        Forall (fun r => c_unlock_island_id (cr_cols r) = None)
          (t_crew_members (db (run_all (wiped ++ map insert_crew_member crewMembers) w))) /\
        t_islands (db w') = map (fun island => mkIslandRow island 1) islands /\
        t_crew_members (db w') = map (fun member => mkCrewRow member 1) crewMembers.
Proof.
  intros L contract w Hblank wiped.
  destruct (seedWorldMapData_run L contract w) as (w' & j & ri & rc & Hrun & Hj & Hdb & _).
  exists w', j. split; [exact Hrun|]. split; [|split; [|split]].
  - rewrite Hj. fold wiped. unfold crew_inserts, island_inserts, crew_updates, quest_inserts.
    now rewrite <- !app_assoc.
  - unfold run_all, wiped; cbn [db]. fold crew_inserts.
    rewrite (first_pass_crew_members (db w) Hblank).
    apply Forall_forall. intros r Hin. apply in_map_iff in Hin.
    now destruct Hin as (member & <- & _).
  - rewrite Hdb. unfold granted, run_all. cbn [db t_islands with_user_crew_members with_user_islands].
    apply seeded_islands.
  - rewrite Hdb. unfold granted, run_all.
    cbn [db t_crew_members with_user_crew_members with_user_islands].
    apply (seeded_crew_members (db w) Hblank).
Qed.

(** ** The seeded catalog *)

Lemma leads_to_sound catalog root fuel :
  forall id, leads_to catalog root fuel id = true ->
             clos_refl_trans _ (requires catalog) id root.
Proof.
  induction fuel as [|fuel IH]; intros id; simpl.
  - destruct (id =? root)%string eqn:E; [|discriminate].
    apply String.eqb_eq in E. subst. intros _. apply rt_refl.
  - destruct (id =? root)%string eqn:E.
    + apply String.eqb_eq in E. subst. intros _. apply rt_refl.
    + destruct (find _ catalog) as [i|] eqn:Hfind; [|discriminate].
      destruct (i_unlock_requirement_island_id i) as [b|] eqn:Hreq; [|discriminate].
      intros H. apply find_some in Hfind. destruct Hfind as [Hin Hid].
      apply String.eqb_eq in Hid.
      apply rt_trans with b; [|now apply IH].
      apply rt_step. now exists i.
Qed.

(** Requirements go down the ranks, so they cannot loop. *)
Lemma descending_acyclic catalog :
  (forall a b, requires catalog a b -> rank catalog b < rank catalog a) ->
  forall a, ~ clos_trans _ (requires catalog) a a.
Proof.
  intros Hdown a Hloop.
  assert (H : forall x y, clos_trans _ (requires catalog) x y -> rank catalog y < rank catalog x).
  { induction 1 as [x y Hstep | x y z _ IH1 _ IH2]; [now apply Hdown | lia]. }
  specialize (H a a Hloop). lia.
Qed.

Lemma islands_descending :
  forall a b, requires islands a b -> rank islands b < rank islands a.
Proof.
  assert (H : forallb
                (fun i => match i_unlock_requirement_island_id i with
                          | Some b => rank islands b <? rank islands (i_id i)
                          | None => true
                          end) islands = true) by (vm_compute; reflexivity).
  intros a b (i & Hin & <- & Hreq).
  rewrite forallb_forall in H. specialize (H i Hin). rewrite Hreq in H.
  now apply Z.ltb_lt.
Qed.

(** C8. The seeded catalog satisfies the two catalog invariants.  The
    twelve islands have distinct ids; exactly one of them has no
    requirement, and it is Windmill Village, which is in the catalog; every
    requirement names an island of the catalog; following the requirements
    never loops, leads from every island to Windmill Village, and no two
    islands share a requirement, so the islands form one chain.  And every
    crew member with an [unlock_island_id] points to an island whose final
    reward is of type crew member and names that crew member. *)
Theorem seeded_catalog_invariants :
  length islands = 12%nat /\
  NoDup (map i_id islands) /\
  (forall i, In i islands ->
     (i_unlock_requirement_island_id i = None <-> i_id i = "island_windmill_village")) /\
  (exists root,
     In root islands /\ i_id root = "island_windmill_village" /\
     i_unlock_requirement_island_id root = None /\
     filter (fun i => match i_unlock_requirement_island_id i with
                      | None => true
                      | Some _ => false
                      end) islands = [root]) /\
  (forall i b, In i islands -> i_unlock_requirement_island_id i = Some b ->
     exists j, In j islands /\ i_id j = b) /\
  (forall a, ~ clos_trans _ (requires islands) a a) /\
  (forall i, In i islands ->
     clos_refl_trans _ (requires islands) (i_id i) "island_windmill_village") /\
  (forall i j, In i islands -> In j islands ->
     i_unlock_requirement_island_id i = i_unlock_requirement_island_id j ->
     i_id i = i_id j) /\
  (forall member x, In member crewMembers -> c_unlock_island_id member = Some x ->
     exists i, In i islands /\ i_id i = x /\
               i_final_reward_type i = Some crew_member /\
               i_final_reward_crew_member_id i = Some (c_id member)).
Proof.
  split; [reflexivity|].
  split.
  { assert (H : nodup string_dec (map i_id islands) = map i_id islands)
      by (vm_compute; reflexivity).
    rewrite <- H. apply NoDup_nodup. }
  split.
  { assert (H : forallb
                  (fun i => Bool.eqb
                              match i_unlock_requirement_island_id i with
                              | None => true | Some _ => false end
                              (i_id i =? "island_windmill_village")%string) islands = true)
      by (vm_compute; reflexivity).
    intros i Hin. rewrite forallb_forall in H. specialize (H i Hin).
    apply Bool.eqb_prop in H. rewrite <- String.eqb_eq, <- H.
    destruct (i_unlock_requirement_island_id i); split; congruence. }
  split.
  { destruct islands as [|root rest] eqn:E; [discriminate|].
    exists root. rewrite <- E.
    split; [rewrite E; now left|].
    injection E as <- _. split; [reflexivity|]. split; [reflexivity|].
    vm_compute. reflexivity. }
  split.
  { assert (H : forallb
                  (fun i =>
                     match i_unlock_requirement_island_id i with
                     | Some b => existsb (fun j => (i_id j =? b)%string) islands
                     | None => true
                     end) islands = true) by (vm_compute; reflexivity).
    intros i b Hin Hb. rewrite forallb_forall in H. specialize (H i Hin).
    rewrite Hb in H. apply existsb_exists in H. destruct H as (j & Hj & Heq).
    apply String.eqb_eq in Heq. now exists j. }
  split; [apply descending_acyclic, islands_descending|].
  split.
  { assert (H : forallb (fun i => leads_to islands "island_windmill_village" 12 (i_id i))
                  islands = true) by (vm_compute; reflexivity).
    intros i Hin. rewrite forallb_forall in H.
    exact (leads_to_sound _ _ _ _ (H i Hin)). }
  split.
  { assert (H : forallb
                  (fun i =>
                     forallb
                       (fun j =>
                          implb
                            match i_unlock_requirement_island_id i,
                                  i_unlock_requirement_island_id j with
                            | Some a, Some b => (a =? b)%string
                            | None, None => true
                            | _, _ => false
                            end
                            (i_id i =? i_id j)%string) islands) islands = true)
      by (vm_compute; reflexivity).
    intros i j Hi Hj Heq. rewrite forallb_forall in H. specialize (H i Hi).
    rewrite forallb_forall in H. specialize (H j Hj). rewrite Heq in H.
    apply String.eqb_eq.
    destruct (i_unlock_requirement_island_id j); [rewrite String.eqb_refl in H|]; exact H. }
  assert (H : forallb (rewarded_by islands) crewMembers = true) by (vm_compute; reflexivity).
  intros member x Hin Hx. rewrite forallb_forall in H. specialize (H member Hin).
  unfold rewarded_by in H. rewrite Hx in H. apply existsb_exists in H.
  destruct H as (i & Hi & H). exists i. split; [exact Hi|].
  apply andb_prop in H. destruct H as [Hid H]. apply String.eqb_eq in Hid.
  destruct (i_final_reward_type i) as [[]|]; try discriminate.
  destruct (i_final_reward_crew_member_id i) as [c|]; try discriminate.
  apply String.eqb_eq in H. now subst.
Qed.

(** ** The ledger of the specification meets its contract *)

Lemma ledger_contract draw : LedgerContract (ledger draw).
Proof.
  split; intros u i w; simpl.
  - unfold ensure_island, bind, Database_get.
    destruct (SELECT_user_island u i (db w)) eqn:E.
    + exists w, []. rewrite app_nil_r. now repeat split.
    + eexists. eexists. split; [reflexivity|]. split; [reflexivity|].
      exists (mkUserIsland (uuidv4 (draw w)) u i (now_iso (draw w))). now repeat split.
  - unfold ensure_crew_member, bind, Database_get.
    destruct (SELECT_user_crew_member u i (db w)) eqn:E.
    + exists w, []. rewrite app_nil_r. now repeat split.
    + eexists. eexists. split; [reflexivity|]. split; [reflexivity|].
      exists (mkUserCrew (uuidv4 (draw w)) u i (now_iso (draw w))). now repeat split.
Qed.

(** ** Start *)

Lemma among_In x xs : In x xs -> among x xs = true.
Proof.
  intros H. apply existsb_exists. exists x. split; [exact H | apply String.eqb_refl].
Qed.

(** C4. A companion assigned to an Active instance of the user makes Start
    fail: supplying it for another quest throws PreconditionViolation and
    leaves the world as it was, so no instance is created and nothing is
    written. *)
Theorem startQuest_companion_exclusive :
  forall env now user_id quest_id companions w instance companion,
    In instance (t_active_quests (db w)) ->
    aq_user_id instance = user_id ->
    In companion (aq_crew_member_ids instance) ->
    status now (db w) instance = Some Active ->
    In companion companions ->
    exists why,
      startQuest env now user_id quest_id companions w = (Throw (PreconditionViolation why), w).
Proof.
  intros env now user_id quest_id companions w instance companion Hin Huser Hcrew Hactive Hsupplied.
  assert (Hbusy : existsb (busy now (db w) user_id) companions = true).
  { apply existsb_exists. exists companion. split; [exact Hsupplied|].
    unfold busy. apply existsb_exists. exists instance. split; [exact Hin|].
    now rewrite Huser, String.eqb_refl, (among_In _ _ Hcrew), Hactive. }
  assert (Hviolation : exists why,
             start_violation now (db w) user_id quest_id companions = Some why).
  { unfold start_violation. rewrite Hbusy.
    destruct (SELECT_quest quest_id (db w)) as [q|]; [|now eexists].
    repeat match goal with
           | |- exists why, (if ?c then _ else _) = Some why => destruct c; [now eexists|]
           end.
    now eexists. }
  destruct Hviolation as (why & Hwhy). exists why.
  unfold startQuest, bind, Database_get. now rewrite Hwhy.
Qed.

(** ** The quest history *)

Lemma history_kept_refl w : history_kept w w.
Proof. exists []. now rewrite app_nil_r. Qed.

Lemma history_kept_trans w1 w2 w3 :
  history_kept w1 w2 -> history_kept w2 w3 -> history_kept w1 w3.
Proof.
  intros [a Ha] [b Hb]. exists (a ++ b). now rewrite Hb, Ha, app_assoc.
Qed.

Lemma history_kept_same_db w w' : db w' = db w -> history_kept w w'.
Proof. intros H. exists []. now rewrite H, app_nil_r. Qed.

Lemma exec_spares_history s d :
  spares_history s = true ->
  exists appended, t_quest_history (exec s d) = t_quest_history d ++ appended.
Proof.
  destruct s as [| | | |t| | | | | | | |r|]; intros H;
    try (exists []; simpl; now rewrite app_nil_r).
  - destruct t; try discriminate; exists []; simpl; now rewrite app_nil_r.
  - now exists [r].
Qed.

Lemma keeps_ret {A} (a : A) : keeps_history (ret a).
Proof. intros w. apply history_kept_refl. Qed.

Lemma keeps_throw {A} e : keeps_history (@throw A e).
Proof. intros w. apply history_kept_refl. Qed.

Lemma keeps_log l : keeps_history (log l).
Proof. intros w. now apply history_kept_same_db. Qed.

Lemma keeps_Database_get {A} (q : DB -> A) : keeps_history (Database_get q).
Proof. intros w. apply history_kept_refl. Qed.

Lemma keeps_Database_all {A} (q : DB -> list A) : keeps_history (Database_all q).
Proof. intros w. apply history_kept_refl. Qed.

Lemma keeps_Database_run s : spares_history s = true -> keeps_history (Database_run s).
Proof. intros H w. exact (exec_spares_history s (db w) H). Qed.

Lemma keeps_bind {A B} (m : M A) (k : A -> M B) :
  keeps_history m -> (forall a, keeps_history (k a)) -> keeps_history (bind m k).
Proof.
  intros Hm Hk w. unfold bind. specialize (Hm w).
  destruct (m w) as [[a|e] w1]; [|exact Hm].
  exact (history_kept_trans _ _ _ Hm (Hk a w1)).
Qed.

Lemma keeps_try_catch {A} (body : M A) handler :
  keeps_history body -> (forall e, keeps_history (handler e)) ->
  keeps_history (try_catch body handler).
Proof.
  intros Hb Hh w. unfold try_catch. specialize (Hb w).
  destruct (body w) as [[a|e] w1]; [exact Hb|].
  exact (history_kept_trans _ _ _ Hb (Hh e w1)).
Qed.

Lemma keeps_for_of {A} (xs : list A) body :
  (forall x, keeps_history (body x)) -> keeps_history (for_of xs body).
Proof.
  intros Hbody. induction xs as [|x xs IH]; simpl.
  - apply keeps_ret.
  - apply keeps_bind; [apply Hbody | intros _; exact IH].
Qed.

Lemma keeps_for_of_with {A S} (xs : list A) (body : A -> S -> M S) :
  (forall x acc, keeps_history (body x acc)) ->
  forall acc, keeps_history (for_of_with xs acc body).
Proof.
  intros Hbody. induction xs as [|x xs IH]; intros acc; simpl.
  - apply keeps_ret.
  - apply keeps_bind; [apply Hbody | intros acc'; apply IH].
Qed.

Create HintDb history.
#[local] Hint Resolve keeps_ret keeps_throw keeps_log keeps_Database_get keeps_Database_all
  keeps_bind keeps_try_catch keeps_for_of : history.
#[local] Hint Extern 2 (keeps_history (Database_run _)) =>
  apply keeps_Database_run; reflexivity : history.
#[local] Hint Extern 3 (keeps_history (if ?c then _ else _)) => destruct c : history.
#[local] Hint Extern 3 (keeps_history (match ?c with Some _ => _ | None => _ end)) =>
  destruct c : history.

Lemma keeps_findById id : keeps_history (UserModel.findById id).
Proof. unfold UserModel.findById. auto with history. Qed.

Lemma keeps_update env id updates : keeps_history (UserModel.update env id updates).
Proof.
  unfold UserModel.update.
  destruct (length _ =? 0)%nat; auto using keeps_findById with history.
Qed.

Lemma keeps_addBerrys userId amount : keeps_history (UserModel.addBerrys userId amount).
Proof. unfold UserModel.addBerrys. auto with history. Qed.

Lemma keeps_updateIslandCoordinates : keeps_history updateIslandCoordinates.
Proof.
  unfold updateIslandCoordinates.
  apply keeps_bind; [auto with history|]. intros _.
  apply keeps_bind; [|auto with history].
  apply keeps_for_of. intros [[id latitude] longitude]. auto with history.
Qed.

Lemma keeps_startQuest env now user_id quest_id companions :
  keeps_history (startQuest env now user_id quest_id companions).
Proof. unfold startQuest. auto 6 with history. Qed.

Section History.

Context (L : WorldMapModel) (contract : LedgerContract L).

Lemma keeps_unlockIsland u i : keeps_history (unlockIsland u i).
Proof.
  intros w. destruct (unlockIsland_ensures u i w) as (w' & j & Hrun & _ & Hdb).
  rewrite Hrun. simpl.
  destruct (SELECT_user_island u i (db w)).
  - now apply history_kept_same_db.
  - destruct Hdb as (r & _ & _ & Hdb). exists []. rewrite Hdb. simpl. now rewrite app_nil_r.
Qed.

Lemma keeps_unlockCrewMember u c : keeps_history (unlockCrewMember u c).
Proof.
  intros w. destruct (unlockCrewMember_ensures u c w) as (w' & j & Hrun & _ & Hdb).
  rewrite Hrun. simpl.
  destruct (SELECT_user_crew_member u c (db w)).
  - now apply history_kept_same_db.
  - destruct Hdb as (r & _ & _ & Hdb). exists []. rewrite Hdb. simpl. now rewrite app_nil_r.
Qed.

#[local] Hint Resolve keeps_unlockIsland keeps_unlockCrewMember : history.

Lemma keeps_reconcileUser u : keeps_history (reconcileUser u).
Proof. unfold reconcileUser. auto 8 with history. Qed.

Lemma keeps_initializeExistingUsers : keeps_history initializeExistingUsers.
Proof.
  unfold initializeExistingUsers, count_usersInitialized.
  apply keeps_try_catch; [|auto with history].
  apply keeps_bind; [auto with history|]. intros _.
  apply keeps_bind; [|intros n; destruct (0 <? n)%nat; auto with history].
  apply keeps_bind; [auto with history|]. intros users.
  apply keeps_for_of_with. intros u n. unfold count_turn.
  apply keeps_bind; [apply keeps_reconcileUser | auto with history].
Qed.

Lemma keeps_create env userData : keeps_history (UserModel.create env userData).
Proof.
  unfold UserModel.create.
  apply keeps_bind; [auto with history|]. intros _.
  apply keeps_bind; [apply keeps_findById|]. intros [user|]; [|auto with history].
  apply keeps_bind; [|auto with history].
  apply keeps_try_catch; auto with history.
Qed.

Lemma keeps_collectQuest isIslandCleared now user_id instance_id :
  keeps_history (collectQuest isIslandCleared now user_id instance_id).
Proof.
  unfold collectQuest.
  apply keeps_bind; [auto with history|]. intros [r|]; [|auto with history].
  apply keeps_bind; [auto with history|]. intros [q|]; [|auto with history].
  destruct (_ <? _); [auto with history|].
  apply keeps_bind; [apply keeps_addBerrys|]. intros _.
  apply keeps_bind; [auto with history|]. intros cleared.
  apply keeps_bind; [auto with history|]. intros next.
  apply keeps_bind.
  - destruct (if cleared then next else None) as [island|]; [|auto with history].
    apply keeps_bind; [auto with history|]. intros [|]; [auto with history|].
    apply keeps_bind; [auto with history|]. intros _.
    destruct (eligibleCrewOnIslandUnlock island); auto with history.
  - intros _. auto 6 with history.
Qed.

Lemma fold_spares_history ss :
  forallb spares_history ss = true ->
  forall d, exists appended,
    t_quest_history (fold_left (fun d s => exec s d) ss d) = t_quest_history d ++ appended.
Proof.
  induction ss as [|s ss IH]; simpl; intros H d.
  - exists []. now rewrite app_nil_r.
  - apply andb_prop in H. destruct H as [Hs Hss].
    destruct (exec_spares_history s d Hs) as [a Ha].
    destruct (IH Hss (exec s d)) as [b Hb].
    exists (a ++ b). now rewrite Hb, Ha, app_assoc.
Qed.

(** Seeding an empty catalog leaves the history alone. *)
Lemma seedWorldMapData_keeps_history_of_empty_catalog w :
  t_islands (db w) = [] -> history_kept w (snd (seedWorldMapData w)).
Proof.
  intros Hempty.
  destruct (seedWorldMapData_run L contract w) as (w' & j & ri & rc & Hrun & _ & Hdb & _).
  rewrite Hrun. cbn [snd]. rewrite Hempty in Hdb.
  unfold history_kept. rewrite Hdb. unfold granted, run_all.
  cbn [db t_quest_history with_user_crew_members with_user_islands].
  apply fold_spares_history. vm_compute. reflexivity.
Qed.

Lemma zero_count {A} (rows : list A) :
  (Z.of_nat (length rows) =? 0) = match rows with [] => true | _ => false end.
Proof. destruct rows; [reflexivity|]. apply Z.eqb_neq. simpl length. lia. Qed.

Lemma keeps_initializeWorldMap : keeps_history initializeWorldMap.
Proof.
  intros w. unfold initializeWorldMap.
  set (l0 := console_log "🗺️  Vérification et initialisation de la carte du monde...").
  rewrite (bind_Ok _ _ w tt (logged l0 w)) by reflexivity.
  unfold try_catch.
  rewrite (bind_Ok _ _ (logged l0 w) (SELECT_COUNT_islands (db w)) (logged l0 w)) by reflexivity.
  unfold SELECT_COUNT_islands. rewrite zero_count.
  destruct (t_islands (db w)) eqn:Hislands.
  - set (l1 := console_log "🏝️  Aucune île trouvée, initialisation de la carte du monde...").
    rewrite (bind_Ok _ _ (logged l0 w) tt (logged l1 (logged l0 w))) by reflexivity.
    pose proof (seedWorldMapData_keeps_history_of_empty_catalog
                  (logged l1 (logged l0 w)) Hislands) as Hkept.
    unfold bind.
    destruct (seedWorldMapData (logged l1 (logged l0 w))) as [[[]|e] w']; exact Hkept.
  - match goal with
    | |- history_kept _ (snd (let (_, _) := ?m (logged l0 w) in _)) =>
        assert (Hm : keeps_history m);
        [|specialize (Hm (logged l0 w)); destruct (m (logged l0 w)) as [[[]|e] w']; exact Hm]
    end.
    apply keeps_bind; [auto with history|]. intros _.
    apply keeps_bind; [apply keeps_updateIslandCoordinates|]. intros _.
    apply keeps_initializeExistingUsers.
Qed.

End History.

(** C5. The quest history is append-only.  Through any run of the
    engine's operations (start-up of the world map, reconciliation, the user
    model, Start and Collect), every history row the store held is still
    there, in place and unchanged; rows are only ever added after them. *)
Theorem quest_history_append_only :
  forall (L : WorldMapModel),
    LedgerContract L ->
    forall isIslandCleared ops w,
    exists appended,
      t_quest_history (db (perform_all isIslandCleared ops w)) =
      t_quest_history (db w) ++ appended.
Proof.
  intros L contract isIslandCleared ops.
  assert (Hop : forall op w, history_kept w (perform isIslandCleared op w)).
  { intros [| | |u|env userData|id|username|env id|env id updates|env id| |userId amount
            |env now u q cs|now u i] w; unfold perform.
    - now apply keeps_initializeWorldMap.
    - apply keeps_updateIslandCoordinates.
    - now apply keeps_initializeExistingUsers.
    - now apply keeps_reconcileUser.
    - now apply keeps_create.
    - apply keeps_findById.
    - apply keeps_Database_get.
    - now apply keeps_Database_run.
    - apply keeps_update.
    - now apply keeps_Database_run.
    - apply keeps_Database_get.
    - apply keeps_addBerrys.
    - apply keeps_startQuest.
    - now apply keeps_collectQuest. }
  induction ops as [|op ops IH]; intros w.
  - apply history_kept_refl.
  - exact (history_kept_trans _ _ _ (Hop op w) (IH (perform isIslandCleared op w))).
Qed.

(** The one path that does delete history: run against a store whose
    [islands] table holds rows (the reload the script announces on the
    console, never taken from [initializeWorldMap]), [seedWorldMapData] empties
    [quest_history]. *)
Lemma seedWorldMapData_reload_empties_history :
  forall (L : WorldMapModel),
    LedgerContract L ->
    forall w,
      t_islands (db w) <> [] ->
      t_quest_history (db (snd (seedWorldMapData w))) = [].
Proof.
  intros L contract w Hrows.
  destruct (seedWorldMapData_run L contract w) as (w' & j & ri & rc & Hrun & _ & Hdb & _).
  rewrite Hrun. cbn [snd]. rewrite Hdb. unfold granted, run_all.
  cbn [db t_quest_history with_user_crew_members with_user_islands].
  destruct (db w) as [dflt us isl cs qs uis ucs aqs qhs]. cbn [t_islands] in *.
  destruct isl; [congruence|]. vm_compute. reflexivity.
Qed.

(** * The properties on the sample world *)





(** C6 on the sample: with a ledger that throws, [create] still returns the
    row it inserted, and the console holds the error. *)
Lemma create_sample :
  u_is_active (users_defaults Sample.unseeded) = true /\
  exists user,
    @UserModel.create Sample.failing Sample.env (mkUserCreate "robin" "poneglyph")
      (Sample.world Sample.unseeded) =
    (Ok user,
     mkWorld
       (exec (INSERT_users (uuidv4 Sample.env) "robin" "$2a$12$poneglyph") Sample.unseeded)
       [INSERT_users (uuidv4 Sample.env) "robin" "$2a$12$poneglyph"]
       [console_error "Erreur lors de l'initialisation du nouveau joueur:"
          (Some (Error "SQLITE_BUSY: database is locked"))]) /\
    columns user =
    new_user_row Sample.defaults (uuidv4 Sample.env) "robin" "$2a$12$poneglyph".
Proof.
  assert (H : u_is_active (users_defaults (db (Sample.world Sample.unseeded))) = true)
    by reflexivity.
  split; [exact H|].
  destruct (create_returns_user_despite_baseline_failure Sample.failing Sample.env
              (mkUserCreate "robin" "poneglyph") (Sample.world Sample.unseeded) H)
    as (user & _ & Hfresh & Hrun).
  exists user. split; [exact Hrun|].
  apply Hfresh. intros r [<-|[<-|[]]]; discriminate.
Defined.

(** C1 on the sample: the first run gives both users their baseline, the
    second one changes nothing and says so. *)
Lemma initializeExistingUsers_idempotent_sample :
  LedgerContract Sample.working /\
  exists w1 w2,
    @initializeExistingUsers Sample.working (Sample.world Sample.playing) = (Ok tt, w1) /\
    @initializeExistingUsers Sample.working w1 = (Ok tt, w2) /\
    db w2 = db w1 /\
    console w2 = console w1 ++ [initializing_users; all_initialized].
Proof.
  split; [apply ledger_contract|].
  destruct (initializeExistingUsers_idempotent Sample.working (ledger_contract _)
              (Sample.world Sample.playing))
    as (w1 & w2 & Hrun1 & Hrun2 & Hdb & _ & _ & Hconsole).
  exists w1, w2. repeat split; assumption.
Defined.

(** C3 on the sample: Usopp, who held nothing, holds the root island and
    Luffy after his turn; Nami's records and the quest tables are untouched. *)
Lemma reconcileUser_sample :
  LedgerContract Sample.working /\
  exists w',
    @reconcileUser Sample.working "u2" (Sample.world Sample.playing) = (Ok true, w') /\
    isIslandUnlocked "u2" "island_windmill_village" (db w') = true /\
    isCrewUnlocked "u2" "crew_luffy" (db w') = true /\
    (exists r, t_user_islands (db w') = t_user_islands Sample.playing ++ [r]) /\
    (exists r, t_user_crew_members (db w') = t_user_crew_members Sample.playing ++ [r]) /\
    t_active_quests (db w') = [Sample.luffy_at_work] /\
    t_quest_history (db w') = [Sample.collected].
Proof.
  split; [apply ledger_contract|].
  destruct (reconcileUser_grants_baseline_only Sample.working (ledger_contract _) "u2"
              (Sample.world Sample.playing))
    as (w' & ri & rc & Hrun & Hisland & Hcrew & Hui & Hucm & Hri & Hrc & _ & _ & _ & _ & Haq & Hqh).
  exists w'. split; [exact Hrun|]. split; [exact Hisland|]. split; [exact Hcrew|].
  destruct Hri as (r & -> & _). destruct Hrc as (r' & -> & _).
  split; [now exists r|]. split; [now exists r'|]. split; assumption.
Defined.

(** C4 on the sample: Luffy is out on [quest_fuchsia_1] for Nami, started at
    time 0 for one hour; half an hour in, Start of [quest_fuchsia_2] with
    Luffy is refused and the world is as it was. *)
Lemma startQuest_sample :
  In Sample.luffy_at_work (t_active_quests Sample.playing) /\
  status 1800000 Sample.playing Sample.luffy_at_work = Some Active /\
  exists why,
    startQuest Sample.env 1800000 "u1" "quest_fuchsia_2" ["crew_luffy"]
      (Sample.world Sample.playing) =
    (Throw (PreconditionViolation why), Sample.world Sample.playing).
Proof.
  assert (Hin : In Sample.luffy_at_work (t_active_quests (db (Sample.world Sample.playing))))
    by (left; reflexivity).
  assert (Hactive : status 1800000 (db (Sample.world Sample.playing)) Sample.luffy_at_work
                    = Some Active) by reflexivity.
  split; [exact Hin|]. split; [exact Hactive|].
  apply (startQuest_companion_exclusive Sample.env 1800000 "u1" "quest_fuchsia_2"
           ["crew_luffy"] (Sample.world Sample.playing) Sample.luffy_at_work "crew_luffy"
           Hin eq_refl (or_introl eq_refl) Hactive (or_introl eq_refl)).
Defined.

(** C5 on the sample: start-up, a grant, a refused Start and a Collect later,
    the row Usopp earned is still the first of the history. *)
Lemma quest_history_sample :
  LedgerContract Sample.working /\
  exists appended,
    t_quest_history
      (db (@perform_all Sample.working (fun _ _ _ => false)
             [InitializeWorldMap; AddBerrys "u1" (of_int 50);
              StartQuest Sample.env 1800000 "u1" "quest_fuchsia_2" ["crew_luffy"];
              CollectQuest 3600000 "u1" "aq1"]
             (Sample.world Sample.playing))) =
    Sample.collected :: appended.
Proof.
  split; [apply ledger_contract|].
  exact (quest_history_append_only Sample.working (ledger_contract _) (fun _ _ _ => false)
           [InitializeWorldMap; AddBerrys "u1" (of_int 50);
            StartQuest Sample.env 1800000 "u1" "quest_fuchsia_2" ["crew_luffy"];
            CollectQuest 3600000 "u1" "aq1"]
           (Sample.world Sample.playing)).
Defined.

(** C7 on the sample: seeding the store that has no catalog yet leaves the
    nine crew rows of the seed, each with its island. *)
Lemma seedWorldMapData_sample :
  LedgerContract Sample.working /\
  (t_islands Sample.unseeded = [] -> t_crew_members Sample.unseeded = []) /\
  exists w',
    @seedWorldMapData Sample.working (Sample.world Sample.unseeded) = (Ok tt, w') /\
    t_crew_members (db w') = map (fun member => mkCrewRow member 1) crewMembers /\
    map (fun r => (c_id (cr_cols r), c_unlock_island_id (cr_cols r))) (t_crew_members (db w')) =
    [("crew_luffy", None);
     ("crew_zoro", Some "island_shells_town");
     ("crew_nami", Some "island_orange_town");
     ("crew_usopp", Some "island_syrup_village");
     ("crew_sanji", Some "island_baratie");
     ("crew_chopper", Some "island_drum");
     ("crew_robin", Some "island_alabasta");
     ("crew_franky", Some "island_water_seven");
     ("crew_brook", Some "island_thriller_bark")].
Proof.
  assert (Hblank : t_islands (db (Sample.world Sample.unseeded)) = [] ->
                   t_crew_members (db (Sample.world Sample.unseeded)) = [])
    by (intros _; reflexivity).
  split; [apply ledger_contract|]. split; [exact Hblank|].
  destruct (seedWorldMapData_two_pass_crew Sample.working (ledger_contract _)
              (Sample.world Sample.unseeded) Hblank)
    as (w' & written & Hrun & _ & _ & _ & Hcrew).
  exists w'. split; [exact Hrun|]. split; [exact Hcrew|].
  rewrite Hcrew. vm_compute. reflexivity.
Defined.

(** * Further properties of the user model *)

Lemma find_update_where_kept {A} (key : A -> string) (p : A -> bool) (f : A -> A) id id' rows :
  (forall r, key (f r) = key r) ->
  (forall r, p (f r) = p r) ->
  find (fun r => (key r =? id')%string && p r) (update_where key id f rows) =
  option_map (fun r => if (key r =? id)%string then f r else r)
    (find (fun r => (key r =? id')%string && p r) rows).
Proof.
  intros Hkey Hp. unfold update_where.
  induction rows as [|r rows IH]; simpl; [reflexivity|].
  destruct (key r =? id)%string eqn:E.
  - rewrite Hkey, Hp. destruct ((key r =? id')%string && p r); simpl; [now rewrite E | exact IH].
  - destruct ((key r =? id')%string && p r); simpl; [now rewrite E | exact IH].
Qed.

Lemma find_update_where_none {A} (key : A -> string) (p : A -> bool) (f : A -> A) id rows :
  (forall r, key (f r) = key r) ->
  (forall r, p (f r) = false) ->
  find (fun r => (key r =? id)%string && p r) (update_where key id f rows) = None.
Proof.
  intros Hkey Hp. unfold update_where.
  induction rows as [|r rows IH]; simpl; [reflexivity|].
  destruct (key r =? id)%string eqn:E.
  - now rewrite Hkey, E, Hp.
  - now rewrite E.
Qed.



(** The assignments [update] pushes, applied in order, give [updated_row]. *)
Lemma update_fields_updated_row env updates u :
  fold_left (fun u a => assign a u)
    (UserModel.push_if (upd_is_active updates) SET_is_active
       (UserModel.push_if (upd_is_admin updates) SET_is_admin
          (UserModel.push_if (upd_password updates)
             (fun password => SET_password_hash (bcrypt_hash env password (bcrypt_rounds env)))
             (UserModel.push_if (upd_username updates) SET_username [])))
     ++ [SET_updated_at (now_iso env)]) u =
  updated_row env updates u.
Proof.
  destruct updates as [[a|] [b|] [c|] [d|]], u; reflexivity.
Qed.

(** X1. When at least one property is defined, [UserModel.update] runs one
    UPDATE; in every row with that id each column the update defines takes
    the given value (the password its hash), [updated_at] the time of the
    call, and all other columns (among them [id], [berrys], [created_at] and
    [last_login]) keep their values; rows with another id and the other
    tables are untouched.  The result is read back with [findById]: with
    [is_active] left undefined it is the updated row of the user [findById]
    returned before; with [is_active: false] it is [undefined], since the
    row just written is no longer an active one. *)
Theorem update_writes_the_defined_columns :
  forall env id updates w,
    defines_a_field updates = true ->
    let after := snd (UserModel.update env id updates w) in
    (exists fields, journal after = journal w ++ [UPDATE_users_SET fields id]) /\
    db after = with_users (update_where u_id id (updated_row env updates)) (db w) /\
    fst (UserModel.update env id updates w) = fst (UserModel.findById id after) /\
    (upd_is_active updates = None ->
     fst (UserModel.update env id updates w) =
     Ok (option_map (fun row => user_of (updated_row env updates row))
           (SELECT_user_by_id id (db w)))) /\
    (upd_is_active updates = Some false ->
     fst (UserModel.update env id updates w) = Ok None).
Proof.
  intros env id updates w Hdef after.
  set (fields :=
         UserModel.push_if (upd_is_active updates) SET_is_active
           (UserModel.push_if (upd_is_admin updates) SET_is_admin
              (UserModel.push_if (upd_password updates)
                 (fun password => SET_password_hash (bcrypt_hash env password (bcrypt_rounds env)))
                 (UserModel.push_if (upd_username updates) SET_username [])))).
  assert (Hsome : (length fields =? 0)%nat = false).
  { unfold fields. destruct updates as [[a|] [b|] [c|] [d|]]; try reflexivity. discriminate. }
  assert (Hrun : UserModel.update env id updates w =
                 UserModel.findById id
                   (snd (Database_run
                           (UPDATE_users_SET (fields ++ [SET_updated_at (now_iso env)]) id) w))).
  { unfold UserModel.update. fold fields. rewrite Hsome. reflexivity. }
  assert (Hfind : forall v, UserModel.findById id v =
                            (Ok (option_map user_of (SELECT_user_by_id id (db v))), v)).
  { intros v. unfold UserModel.findById, bind, Database_get.
    now destruct (SELECT_user_by_id id (db v)). }
  assert (Hdb : db after = with_users (update_where u_id id (updated_row env updates)) (db w)).
  { unfold after. rewrite Hrun, Hfind. unfold Database_run. cbn [snd db exec].
    unfold with_users, update_where. f_equal. apply map_ext. intros row.
    unfold fields. now rewrite update_fields_updated_row. }
  split; [|split; [exact Hdb|split; [|split]]].
  - exists (fields ++ [SET_updated_at (now_iso env)]). unfold after. rewrite Hrun, Hfind. reflexivity.
  - unfold after. rewrite Hrun, !Hfind. reflexivity.
  - intros Hactive.
    replace (fst (UserModel.update env id updates w))
      with (fst (UserModel.findById id after)) by (unfold after; now rewrite Hrun, !Hfind).
    rewrite Hfind, Hdb. cbn [fst]. f_equal.
    unfold SELECT_user_by_id. cbn [t_users with_users].
    rewrite find_update_where_kept;
      [|reflexivity | intros r; unfold updated_row; cbn [u_is_active]; now rewrite Hactive].
    destruct (find _ (t_users (db w))) as [row|] eqn:E; [|reflexivity].
    apply find_some in E. destruct E as [_ E]. apply andb_prop in E. destruct E as [E _].
    cbn [option_map]. now rewrite E.
  - intros Hactive.
    replace (fst (UserModel.update env id updates w))
      with (fst (UserModel.findById id after)) by (unfold after; now rewrite Hrun, !Hfind).
    rewrite Hfind, Hdb. cbn [fst]. f_equal.
    unfold SELECT_user_by_id. cbn [t_users with_users].
    rewrite find_update_where_none;
      [reflexivity | reflexivity | intros r; unfold updated_row; cbn [u_is_active]; now rewrite Hactive].
Qed.

Lemma findById_reads id v :
  UserModel.findById id v = (Ok (option_map user_of (SELECT_user_by_id id (db v))), v).
Proof.
  unfold UserModel.findById, bind, Database_get.
  now destruct (SELECT_user_by_id id (db v)).
Qed.

(** X2. [UserModel.delete] is a soft delete.  Afterwards [findById] no
    longer finds the id and the reconciliation pass no longer visits it, but
    no row has left the table: the rows with that id are inactive, stamped
    with the time of the call and otherwise as they were, and every other
    user is read back exactly as before. *)
Theorem delete_is_soft :
  forall env id w,
    let after := snd (UserModel.delete env id w) in
    fst (UserModel.findById id after) = Ok None /\
    ~ In id (SELECT_active_user_ids (db after)) /\
    map u_id (t_users (db after)) = map u_id (t_users (db w)) /\
    t_users (db after) =
      update_where u_id id
        (fun u => assign (SET_updated_at (now_iso env)) (assign (SET_is_active false) u))
        (t_users (db w)) /\
    (forall id', id' <> id ->
       fst (UserModel.findById id' after) = fst (UserModel.findById id' w)).
Proof.
  intros env id w after.
  assert (Hrows : t_users (db after) =
                  update_where u_id id
                    (fun u => assign (SET_updated_at (now_iso env)) (assign (SET_is_active false) u))
                    (t_users (db w))) by reflexivity.
  split; [|split; [|split; [|split; [exact Hrows|]]]].
  - rewrite findById_reads. cbn [fst]. f_equal.
    unfold SELECT_user_by_id. rewrite Hrows.
    now rewrite find_update_where_none.
  - unfold SELECT_active_user_ids. rewrite Hrows. intros Hin.
    apply in_map_iff in Hin. destruct Hin as (u & Hid & Hin).
    apply filter_In in Hin. destruct Hin as [Hin Hactive].
    unfold update_where in Hin. apply in_map_iff in Hin. destruct Hin as (r & Hr & _).
    destruct (u_id r =? id)%string eqn:E.
    + subst u. discriminate Hactive.
    + subst u. apply String.eqb_neq in E. contradiction.
  - rewrite Hrows. unfold update_where. rewrite map_map. apply map_ext. intros u.
    now destruct (u_id u =? id)%string.
  - intros id' Hother. rewrite !findById_reads. cbn [fst]. f_equal. f_equal.
    unfold SELECT_user_by_id. rewrite Hrows. clear Hrows.
    induction (t_users (db w)) as [|r rows IH]; [reflexivity|].
    cbn [update_where map find]. destruct (u_id r =? id)%string eqn:E.
    + apply String.eqb_eq in E. cbn [assign u_id u_is_active].
      assert (Hno : (u_id r =? id')%string = false)
        by (apply String.eqb_neq; congruence).
      rewrite Hno. cbn [andb]. exact IH.
    + destruct ((u_id r =? id')%string && u_is_active r); [reflexivity | exact IH].
Qed.


(** X4. A grant is not undone by the opposite grant once the cap has cut
    it: from a whole balance within the cap, granting a 32-bit integer
    [a >= 0] and then [-a] leaves [min balance (999999999 - a)], which is the
    old balance exactly when the grant fitted under the cap. *)
Theorem addBerrys_refund_after_cap :
  forall userId prior p a w,
    SELECT_berrys userId (db w) = Some prior ->
    whole prior = Some p ->
    0 <= a ->
    int32 a = true ->
    int64 p = true ->
    p <= 999999999 ->
    let after := snd (UserModel.addBerrys userId (of_int (- a))
                        (snd (UserModel.addBerrys userId (of_int a) w))) in
    SELECT_berrys userId (db after) = Some (INTEGER (Z.min p (999999999 - a))) /\
    (SELECT_berrys userId (db after) = Some (INTEGER p) <-> p + a <= 999999999).
Proof.
  intros userId prior p a w Hprior Hp Ha H32 H64 Hcap after.
  assert (Hbounds : -9223372036854775808 <= p /\ a <= 2147483647).
  { unfold int32 in H32. unfold int64 in H64. apply andb_true_iff in H32, H64.
    rewrite !Z.leb_le in *. clear - H32 H64. lia. }
  assert (Hback : int32 (- a) = true).
  { unfold int32. apply andb_true_iff. rewrite !Z.leb_le. clear - Ha Hbounds. lia. }
  assert (Hsum : int64 (p + a) = true).
  { unfold int64. apply andb_true_iff. rewrite !Z.leb_le. clear - Ha Hcap Hbounds. lia. }
  assert (Hsum' : int64 (Z.min (p + a) 999999999 + - a) = true).
  { unfold int64. apply andb_true_iff. rewrite !Z.leb_le. clear - Ha Hcap Hbounds. lia. }
  assert (H : SELECT_berrys userId (db after) =
              Some (INTEGER (Z.min (Z.min (p + a) 999999999 + - a) 999999999))).
  { unfold after.
    apply (addBerrys_whole userId (INTEGER (Z.min (p + a) 999999999)) _ (- a));
      [|reflexivity|exact Hback|exact Hsum'].
    exact (addBerrys_whole userId prior p a w Hprior Hp H32 Hsum). }
  assert (Harith : Z.min (Z.min (p + a) 999999999 + - a) 999999999 = Z.min p (999999999 - a))
    by (clear - Ha Hcap; lia).
  rewrite Harith in H. split; [exact H|].
  rewrite H. split.
  - intros Heq.
    assert (Heq' : Z.min p (999999999 - a) = p) by congruence.
    clear - Heq' Ha Hcap. lia.
  - intros Hfit. do 2 f_equal. clear - Hfit Ha Hcap. lia.
Qed.

Lemma total_Permutation amounts amounts' :
  Permutation amounts amounts' -> total amounts = total amounts'.
Proof.
  induction 1; simpl; try congruence.
  - now rewrite !Z.add_assoc, (Z.add_comm y x).
Qed.

(** A non-empty run of non-negative 32-bit grants to a whole balance. *)
Lemma grants_whole userId prior p w ns :
  SELECT_berrys userId (db w) = Some prior ->
  whole prior = Some p ->
  int64 p = true ->
  int64 (p + 2147483647) = true ->
  ns <> [] ->
  Forall (fun n => 0 <= n /\ int32 n = true) ns ->
  SELECT_berrys userId (db (snd (grants userId (map of_int ns) w))) =
  Some (INTEGER (Z.min (p + total ns) 999999999)).
Proof.
  intros Hprior Hp Hlow Hroom Hne Hpos.
  destruct ns as [|n ns]; [congruence|].
  inversion Hpos as [|? ? [Hn0 Hn] Hrest]; subst.
  assert (H32 : -2147483648 <= n <= 2147483647).
  { unfold int32 in Hn. apply andb_true_iff in Hn. rewrite !Z.leb_le in Hn. exact Hn. }
  assert (Hfirst : int64 (p + n) = true).
  { apply (int64_between p (p + 2147483647)); [exact Hlow|exact Hroom|lia]. }
  cbn [map]. rewrite grants_cons.
  rewrite (grants_saturating userId ns Hrest _ (Z.min (p + n) 999999999)).
  - change (total (n :: ns)) with (n + total ns).
    assert (Htotal : 0 <= total ns) by now apply total_nonneg.
    do 2 f_equal. clear - Htotal. lia.
  - now apply (addBerrys_whole userId prior p).
  - clear - Hfirst. unfold int64 in *. apply andb_true_iff in Hfirst. apply andb_true_iff.
    rewrite !Z.leb_le in *. lia.
  - lia.
Qed.

(** X5. Non-negative grants compose: a non-empty run of 32-bit integer
    grants to a whole balance leaves the balance one grant of their sum would
    leave (the sum being a 32-bit integer too), [min (prior + sum)
    999999999], so the order in which they arrive does not matter. *)
Theorem grants_compose :
  forall userId prior p ns w,
    SELECT_berrys userId (db w) = Some prior ->
    whole prior = Some p ->
    int64 p = true ->
    int64 (p + 2147483647) = true ->
    ns <> [] ->
    Forall (fun n => 0 <= n /\ int32 n = true) ns ->
    int32 (total ns) = true ->
    SELECT_berrys userId (db (snd (grants userId (map of_int ns) w))) =
      SELECT_berrys userId (db (snd (UserModel.addBerrys userId (of_int (total ns)) w))) /\
    SELECT_berrys userId (db (snd (grants userId (map of_int ns) w))) =
      Some (INTEGER (Z.min (p + total ns) 999999999)) /\
    (forall ns', Permutation ns ns' ->
       SELECT_berrys userId (db (snd (grants userId (map of_int ns') w))) =
       SELECT_berrys userId (db (snd (grants userId (map of_int ns) w)))).
Proof.
  intros userId prior p ns w Hprior Hp Hlow Hroom Hne Hpos Htotal.
  assert (Hrun : forall l, l <> [] -> Forall (fun n => 0 <= n /\ int32 n = true) l ->
             SELECT_berrys userId (db (snd (grants userId (map of_int l) w))) =
             Some (INTEGER (Z.min (p + total l) 999999999)))
    by (intros l Hl Hf; now apply (grants_whole userId prior p)).
  split; [|split].
  - rewrite (Hrun ns Hne Hpos). symmetry.
    apply (addBerrys_whole userId prior p); [exact Hprior|exact Hp|exact Htotal|].
    pose proof (total_nonneg ns Hpos) as H0.
    apply (int64_between p (p + 2147483647)); [exact Hlow|exact Hroom|].
    unfold int32 in Htotal. apply andb_true_iff in Htotal. rewrite !Z.leb_le in Htotal.
    clear - H0 Htotal. lia.
  - now apply Hrun.
  - intros ns' Hperm.
    assert (Hne' : ns' <> []).
    { intros ->. apply Permutation_sym, Permutation_nil in Hperm. congruence. }
    assert (Hpos' : Forall (fun n => 0 <= n /\ int32 n = true) ns')
      by (eapply Permutation_Forall; eassumption).
    rewrite (Hrun ns' Hne' Hpos'), (Hrun ns Hne Hpos).
    now rewrite (total_Permutation _ _ Hperm).
Qed.

(** * Further properties of the reconciliation pass *)

Lemma find_none_forall {A} (p : A -> bool) xs :
  (forall x, In x xs -> p x = false) -> find p xs = None.
Proof.
  induction xs as [|x xs IH]; intros H; simpl; [reflexivity|].
  rewrite (H x (or_introl eq_refl)). apply IH. intros y Hy. apply H. now right.
Qed.

Lemma isIslandUnlocked_granted_other v i ri rc d :
  (forall r, In r ri -> ui_user_id r <> v) ->
  isIslandUnlocked v i (granted ri rc d) = isIslandUnlocked v i d.
Proof.
  intros Hother. unfold isIslandUnlocked, SELECT_user_island; simpl. rewrite find_app.
  destruct (find _ (t_user_islands d)); [reflexivity|].
  rewrite find_none_forall; [reflexivity|].
  intros r Hin. apply andb_false_iff. left. apply String.eqb_neq. now apply Hother.
Qed.

Lemma isCrewUnlocked_granted_other v c ri rc d :
  (forall r, In r rc -> ucm_user_id r <> v) ->
  isCrewUnlocked v c (granted ri rc d) = isCrewUnlocked v c d.
Proof.
  intros Hother. unfold isCrewUnlocked, SELECT_user_crew_member; simpl. rewrite find_app.
  destruct (find _ (t_user_crew_members d)); [reflexivity|].
  rewrite find_none_forall; [reflexivity|].
  intros r Hin. apply andb_false_iff. left. apply String.eqb_neq. now apply Hother.
Qed.

Section Repairs.

Context (L : WorldMapModel) (contract : LedgerContract L).

(** One turn adds records for its own user only. *)
Lemma reconcileUser_rows u w :
  exists w' ri rc,
    reconcileUser u w = (Ok (negb (has_baseline u (db w))), w') /\
    db w' = granted ri rc (db w) /\
    map (fun r => (ui_user_id r, ui_island_id r)) ri =
      (if isIslandUnlocked u "island_windmill_village" (db w)
       then [] else [(u, "island_windmill_village")]) /\
    map (fun r => (ucm_user_id r, ucm_crew_member_id r)) rc =
      (if isCrewUnlocked u "crew_luffy" (db w) then [] else [(u, "crew_luffy")]).
Proof.
  destruct (reconcileUser_run L contract u w)
    as (w' & j & ri & rc & Hrun & _ & Hdb & Hri & Hrc & _).
  exists w', ri, rc. split; [exact Hrun|]. split; [exact Hdb|].
  unfold isIslandUnlocked, isCrewUnlocked. split.
  - destruct (SELECT_user_island u "island_windmill_village" (db w)).
    + now subst ri.
    + destruct Hri as (r & -> & Hu & Hi). simpl. now rewrite Hu, Hi.
  - destruct (SELECT_user_crew_member u "crew_luffy" (db w)).
    + now subst rc.
    + destruct Hrc as (r & -> & Hu & Hc). simpl. now rewrite Hu, Hc.
Qed.

Lemma users_of_rows {A} (rows : list A) (user : A -> string) (entity : A -> string)
  (expected : list (string * string)) v :
  map (fun r => (user r, entity r)) rows = expected ->
  (forall p, In p expected -> fst p <> v) ->
  forall r, In r rows -> user r <> v.
Proof.
  intros Hmap Hexp r Hin. apply (Hexp (user r, entity r)).
  rewrite <- Hmap. apply in_map_iff. now exists r.
Qed.

(** The loop over distinct users: who gets which record, and the count. *)
Lemma count_loop_exact users :
  NoDup users ->
  forall n w,
    exists w' ri rc,
      for_of_with users n count_turn w =
        (Ok (n + length (filter (fun u => negb (has_baseline u (db w))) users))%nat, w') /\
      db w' = granted ri rc (db w) /\
      map (fun r => (ui_user_id r, ui_island_id r)) ri =
        map (fun u => (u, "island_windmill_village"))
          (filter (fun u => negb (isIslandUnlocked u "island_windmill_village" (db w))) users) /\
      map (fun r => (ucm_user_id r, ucm_crew_member_id r)) rc =
        map (fun u => (u, "crew_luffy"))
          (filter (fun u => negb (isCrewUnlocked u "crew_luffy" (db w))) users).
Proof.
  induction 1 as [|u users Hfresh Hnodup IH]; intros n w.
  - exists w, [], []. rewrite granted_nil. simpl. now rewrite Nat.add_0_r.
  - destruct (reconcileUser_rows u w) as (w1 & ri1 & rc1 & Hrun1 & Hdb1 & Hri1 & Hrc1).
    set (n1 := if negb (has_baseline u (db w)) then S n else n).
    destruct (IH n1 w1) as (w' & ri & rc & Hrun & Hdb & Hri & Hrc).
    assert (Hislands : forall v, In v users ->
              isIslandUnlocked v "island_windmill_village" (db w1) =
              isIslandUnlocked v "island_windmill_village" (db w)).
    { intros v Hv. rewrite Hdb1. apply isIslandUnlocked_granted_other.
      apply (users_of_rows _ _ _ _ _ Hri1).
      intros p Hp. destruct (isIslandUnlocked u _ (db w)); [contradiction|].
      destruct Hp as [<-|[]]. simpl. intros ->. contradiction. }
    assert (Hcrew : forall v, In v users ->
              isCrewUnlocked v "crew_luffy" (db w1) = isCrewUnlocked v "crew_luffy" (db w)).
    { intros v Hv. rewrite Hdb1. apply isCrewUnlocked_granted_other.
      apply (users_of_rows _ _ _ _ _ Hrc1).
      intros p Hp. destruct (isCrewUnlocked u _ (db w)); [contradiction|].
      destruct Hp as [<-|[]]. simpl. intros ->. contradiction. }
    exists w', (ri1 ++ ri), (rc1 ++ rc).
    assert (Hturn : count_turn u n w = (Ok n1, w1)).
    { unfold count_turn. now rewrite (bind_Ok _ _ _ _ _ Hrun1). }
    split; [|split; [|split]].
    + simpl for_of_with. rewrite (bind_Ok _ _ _ _ _ Hturn), Hrun. f_equal. f_equal.
      rewrite (filter_ext_in (fun u => negb (has_baseline u (db w1)))
                 (fun u => negb (has_baseline u (db w))) users).
      * unfold n1. simpl filter. destruct (negb (has_baseline u (db w))); simpl; lia.
      * intros v Hv. unfold has_baseline. now rewrite Hislands, Hcrew.
    + now rewrite Hdb, Hdb1, granted_granted.
    + rewrite map_app, Hri, Hri1.
      rewrite (filter_ext_in _ (fun u => negb (isIslandUnlocked u "island_windmill_village" (db w)))
                 users) by (intros v Hv; now rewrite Hislands).
      simpl filter. now destruct (isIslandUnlocked u "island_windmill_village" (db w)).
    + rewrite map_app, Hrc, Hrc1.
      rewrite (filter_ext_in _ (fun u => negb (isCrewUnlocked u "crew_luffy" (db w))) users)
        by (intros v Hv; now rewrite Hcrew).
      simpl filter. now destruct (isCrewUnlocked u "crew_luffy" (db w)).
Qed.

End Repairs.

(** X6. What a reconciliation pass adds, when user ids are distinct:
    [user_islands] gains one record of the root island for each active user
    who lacked it, in the order of the query, [user_crew_members] one record
    of Luffy for each active user who lacked him, and nothing else changes;
    inactive users and users who held the record get none.  Afterwards every
    active user holds both. *)
Theorem initializeExistingUsers_adds_the_missing_records :
  forall (L : WorldMapModel),
    LedgerContract L ->
    forall w,
      NoDup (SELECT_active_user_ids (db w)) ->
      exists w' ri rc,
        initializeExistingUsers w = (Ok tt, w') /\
        db w' = granted ri rc (db w) /\
        map (fun r => (ui_user_id r, ui_island_id r)) ri =
          map (fun u => (u, "island_windmill_village"))
            (filter (fun u => negb (isIslandUnlocked u "island_windmill_village" (db w)))
               (SELECT_active_user_ids (db w))) /\
        map (fun r => (ucm_user_id r, ucm_crew_member_id r)) rc =
          map (fun u => (u, "crew_luffy"))
            (filter (fun u => negb (isCrewUnlocked u "crew_luffy" (db w)))
               (SELECT_active_user_ids (db w))) /\
        (forall u, In u (SELECT_active_user_ids (db w)) -> has_baseline u (db w') = true).
Proof.
  intros L contract w Hnodup.
  destruct (count_loop_exact L contract _ Hnodup 0%nat (logged initializing_users w))
    as (w1 & ri & rc & Hrun & Hdb & Hri & Hrc).
  cbn [db logged] in Hrun, Hdb, Hri, Hrc.
  destruct (initializeExistingUsers_run L contract w)
    as (w' & j & ri' & rc' & Hrun' & _ & _ & Hall & _).
  exists w', ri, rc. split; [exact Hrun'|]. split; [|split; [exact Hri|split; [exact Hrc|exact Hall]]].
  unfold initializeExistingUsers in Hrun'.
  rewrite (try_catch_Ok _ _ w tt
             (logged (report (0 + length (filter (fun u => negb (has_baseline u (db w)))
                                            (SELECT_active_user_ids (db w))))) w1)) in Hrun'.
  - injection Hrun' as <-. exact Hdb.
  - rewrite (bind_Ok _ _ w tt (logged initializing_users w)) by reflexivity.
    assert (Hcount : count_usersInitialized (logged initializing_users w) =
              (Ok (0 + length (filter (fun u => negb (has_baseline u (db w)))
                                 (SELECT_active_user_ids (db w))))%nat, w1)).
    { unfold count_usersInitialized.
      rewrite (bind_Ok _ _ (logged initializing_users w) (SELECT_active_user_ids (db w))
                 (logged initializing_users w)) by reflexivity.
      exact Hrun. }
    rewrite (bind_Ok _ _ _ _ _ Hcount). unfold report.
    now destruct (0 <? _)%nat.
Qed.

(** X7. The number a reconciliation pass reports is the number of users
    it repaired: with distinct user ids, the counter ends at the number of
    active users who lacked the root island or Luffy, and the last line on
    the console is the report of that number (or, at zero, that all users
    are initialised already). *)
Theorem initializeExistingUsers_counts_the_repaired :
  forall (L : WorldMapModel),
    LedgerContract L ->
    forall w,
      NoDup (SELECT_active_user_ids (db w)) ->
      let repaired :=
        length (filter (fun u => negb (has_baseline u (db w))) (SELECT_active_user_ids (db w))) in
      (exists w1, count_usersInitialized w = (Ok repaired, w1)) /\
      (exists w' earlier,
          initializeExistingUsers w = (Ok tt, w') /\
          console w' = earlier ++ [report repaired]).
Proof.
  intros L contract w Hnodup repaired.
  assert (Hcount : forall v, db v = db w ->
            exists w1, count_usersInitialized v = (Ok repaired, w1)).
  { intros v Hv.
    destruct (count_loop_exact L contract _ Hnodup 0%nat v) as (w1 & ri & rc & Hrun & _).
    exists w1. unfold count_usersInitialized.
    rewrite (bind_Ok _ _ v (SELECT_active_user_ids (db v)) v) by reflexivity.
    rewrite Hv in *. exact Hrun. }
  split; [now apply Hcount|].
  destruct (Hcount (logged initializing_users w) eq_refl) as (w1 & Hrun).
  exists (logged (report repaired) w1), (console w1). split; [|reflexivity].
  unfold initializeExistingUsers. apply try_catch_Ok.
  rewrite (bind_Ok _ _ w tt (logged initializing_users w)) by reflexivity.
  rewrite (bind_Ok _ _ _ _ _ Hrun). unfold report. now destruct (0 <? repaired)%nat.
Qed.

(** X8. The guards make the pass independent of the ledger when there is
    nothing to repair: if every active user holds the root island and Luffy,
    [initializeExistingUsers] makes no ledger call, so with any ledger, even
    one that always throws, it completes, writes nothing to the store, and
    the console gains the announcement and the line that all users are
    initialised already. *)
Theorem initializeExistingUsers_needs_no_ledger_when_held :
  forall (L L' : WorldMapModel) w,
    (forall u, In u (SELECT_active_user_ids (db w)) -> has_baseline u (db w) = true) ->
    @initializeExistingUsers L w =
      (Ok tt, mkWorld (db w) (journal w) (console w ++ [initializing_users; all_initialized])) /\
    @initializeExistingUsers L w = @initializeExistingUsers L' w /\
    (forall u, In u (SELECT_active_user_ids (db w)) -> @reconcileUser L u w = (Ok false, w)).
Proof.
  intros L L' w Hheld.
  assert (H : forall K : WorldMapModel,
             @initializeExistingUsers K w =
             (Ok tt, mkWorld (db w) (journal w)
                       (console w ++ [initializing_users; all_initialized]))).
  { intros K. rewrite (initializeExistingUsers_held K w Hheld).
    unfold logged. cbn [db journal console]. now rewrite <- app_assoc. }
  split; [apply H|]. split; [now rewrite !H|].
  intros u Hu. apply reconcileUser_held. now apply Hheld.
Qed.

(** X10. [initializeWorldMap], the world-map block of start-up, never
    throws, whatever the ledger does: a failure of the seeding or of the
    reconciliation ends as two warnings on the console, the first carrying
    the error. *)
Theorem initializeWorldMap_never_throws :
  forall (L : WorldMapModel) w,
    fst (initializeWorldMap w) = Ok tt /\
    (forall e w1,
        t_islands (db w) <> [] ->
        (updateIslandCoordinates ;; initializeExistingUsers)
          (logged
             (console_log
                ("✅ " ++ show (length (t_islands (db w)))
                 ++ " îles déjà présentes, mise à jour des coordonnées...")%string)
             (logged
                (console_log "🗺️  Vérification et initialisation de la carte du monde...") w))
        = (Throw e, w1) ->
        snd (initializeWorldMap w) =
        logged
          (console_warn "💡 Vous pouvez initialiser manuellement avec: npm run seed-world-map"
             None)
          (logged
             (console_warn "⚠️ Erreur lors de l'initialisation de la carte du monde:" (Some e))
             w1)).
Proof.
  intros L w. split.
  - unfold initializeWorldMap.
    match goal with |- fst (bind (log ?l) _ w) = _ =>
      rewrite (bind_Ok _ _ w tt (logged l w)) by reflexivity end.
    unfold try_catch.
    match goal with |- fst (let (_, _) := ?body ?v in _) = _ =>
      destruct (body v) as [[[]|e1] w1] end; reflexivity.
  - intros e w1 Hrows Hthrow. unfold initializeWorldMap.
    match goal with |- snd (bind (log ?l) _ w) = _ =>
      rewrite (bind_Ok _ _ w tt (logged l w)) by reflexivity end.
    unfold try_catch.
    match goal with |- snd (let (_, _) := bind ?m ?k ?v in _) = _ =>
      rewrite (bind_Ok m k v (SELECT_COUNT_islands (db w)) v) by reflexivity end.
    unfold SELECT_COUNT_islands. rewrite zero_count.
    destruct (t_islands (db w)) as [|row rows] eqn:Hislands; [congruence|].
    rewrite Nat2Z.id.
    match goal with |- snd (let (_, _) := bind (log ?l) ?k ?v in _) = _ =>
      rewrite (bind_Ok (log l) k v tt (logged l v)) by reflexivity end.
    rewrite Hthrow. reflexivity.
Qed.

(** * Further properties of the seed script *)

Lemma moved_by_nil r : moved_by [] r = r.
Proof. reflexivity. Qed.

Lemma moved_by_cons entry table r :
  ~ In (fst (fst entry)) (map (fun e => fst (fst e)) table) ->
  moved_by table
    (if (i_id (ir_cols r) =? fst (fst entry))%string
     then set_coordinates (snd (fst entry)) (snd entry) r else r) =
  moved_by (entry :: table) r.
Proof.
  intros Hfresh. unfold moved_by, coordinates_in. cbn [find].
  rewrite (String.eqb_sym (fst (fst entry))).
  destruct (i_id (ir_cols r) =? fst (fst entry))%string eqn:E; [|reflexivity].
  apply String.eqb_eq in E. cbn [set_coordinates ir_cols i_id option_map].
  rewrite find_none_forall; [reflexivity|].
  intros e He. apply String.eqb_neq. intros Heq. apply Hfresh.
  rewrite <- E, <- Heq. exact (in_map (fun e => fst (fst e)) table e He).
Qed.

(** One UPDATE per entry of a table with distinct ids moves each listed
    island to its entry and leaves the others where they are. *)
Lemma coordinate_updates_move table :
  NoDup (map (fun e => fst (fst e)) table) ->
  forall d,
    fold_left (fun d s => exec s d) (map coordinate_update table) d =
    with_islands (map (moved_by table)) d.
Proof.
  induction table as [|entry table IH]; intros Hnodup d.
  - simpl. unfold with_islands. rewrite (map_ext _ (fun r => r)) by apply moved_by_nil.
    rewrite map_id. now destruct d.
  - inversion Hnodup as [|? ? Hfresh Hrest]; subst.
    cbn [map fold_left]. rewrite (IH Hrest).
    unfold coordinate_update at 1. cbn [exec].
    unfold with_islands, update_where. cbn [t_islands users_defaults t_users t_crew_members
      t_quests t_user_islands t_user_crew_members t_active_quests t_quest_history].
    f_equal. rewrite map_map. apply map_ext. intros r. now apply moved_by_cons.
Qed.

Lemma set_coordinates_back latitude longitude r :
  set_coordinates (i_latitude (ir_cols r)) (i_longitude (ir_cols r))
    (set_coordinates latitude longitude r) = r.
Proof. now destruct r as [[] ?]. Qed.

Lemma moved_by_twice table r : moved_by table (moved_by table r) = moved_by table r.
Proof.
  unfold moved_by at 2 3.
  destruct (coordinates_in table (i_id (ir_cols r))) as [[latitude longitude]|] eqn:E.
  - unfold moved_by. cbn [set_coordinates ir_cols i_id]. rewrite E.
    now destruct r as [[] ?].
  - unfold moved_by. now rewrite E.
Qed.

Lemma updateIslandCoordinates_run w :
  exists w',
    updateIslandCoordinates w = (Ok tt, w') /\
    db w' = with_islands (map (moved_by islandCoordinates)) (db w) /\
    journal w' = journal w ++ map coordinate_update islandCoordinates.
Proof.
  assert (Hloop : writes
            (for_of islandCoordinates
               (fun island =>
                  let '(id, latitude, longitude) := island in
                  Database_run (UPDATE_islands_coordinates latitude longitude id)))
            (map coordinate_update islandCoordinates)).
  { intros v. eexists. split; [|split; reflexivity].
    rewrite <- (for_of_Database_run coordinate_update).
    clear. generalize islandCoordinates. intros table. revert v.
    induction table as [|[[id latitude] longitude] table IH]; intros v; [reflexivity|].
    simpl for_of. unfold bind. unfold coordinate_update at 2. cbn [fst snd].
    destruct (Database_run _ v) as [[[]|e] v1]; [apply IH | reflexivity]. }
  assert (Hwrites : writes updateIslandCoordinates (map coordinate_update islandCoordinates))
    by (unfold updateIslandCoordinates; apply writes_between; exact Hloop).
  destruct (Hwrites w) as (w' & Hrun & Hdb & Hj).
  exists w'. split; [exact Hrun|]. split; [|exact Hj].
  rewrite Hdb. unfold run_all; cbn [db].
  apply coordinate_updates_move.
  assert (H : nodup string_dec (map (fun e => fst (fst e)) islandCoordinates) =
              map (fun e => fst (fst e)) islandCoordinates) by (vm_compute; reflexivity).
  rewrite <- H. apply NoDup_nodup.
Qed.

(** X11. [updateIslandCoordinates] completes and changes nothing but
    coordinates: each island row whose id is in the script's table takes the
    latitude and longitude of its entry, rows with any other id are left as
    they are, no row appears or disappears, and every other column and table
    keeps its value.  It issues exactly one UPDATE for each of the twelve
    entries of the table, in the order of the table, and no other statement.
    Running it again changes nothing more. *)
Theorem updateIslandCoordinates_moves_only_coordinates :
  forall w,
    exists w',
      updateIslandCoordinates w = (Ok tt, w') /\
      db w' = with_islands (map (moved_by islandCoordinates)) (db w) /\
      journal w' =
        journal w ++
        map (fun entry =>
               UPDATE_islands_coordinates (snd (fst entry)) (snd entry) (fst (fst entry)))
          islandCoordinates /\
      length (journal w') = (length (journal w) + 12)%nat /\
      (forall r,
          set_coordinates (i_latitude (ir_cols r)) (i_longitude (ir_cols r))
            (moved_by islandCoordinates r) = r) /\
      (forall r, coordinates_in islandCoordinates (i_id (ir_cols r)) = None ->
                 moved_by islandCoordinates r = r) /\
      db (snd (updateIslandCoordinates w')) = db w'.
Proof.
  intros w.
  destruct (updateIslandCoordinates_run w) as (w' & Hrun & Hdb & Hjournal).
  exists w'. split; [exact Hrun|]. split; [exact Hdb|].
  split; [exact Hjournal|].
  split; [rewrite Hjournal, length_app; reflexivity|]. split; [|split].
  - intros r. unfold moved_by.
    destruct (coordinates_in islandCoordinates (i_id (ir_cols r))) as [[latitude longitude]|].
    + apply set_coordinates_back.
    + now destruct r as [[] ?].
  - intros r Hnone. unfold moved_by. now rewrite Hnone.
  - destruct (updateIslandCoordinates_run w') as (w'' & Hrun' & Hdb' & _).
    rewrite Hrun'. cbn [snd]. rewrite Hdb', Hdb.
    unfold with_islands. cbn [t_islands users_defaults t_users t_crew_members
      t_quests t_user_islands t_user_crew_members t_active_quests t_quest_history].
    f_equal. rewrite map_map. apply map_ext. intros r. apply moved_by_twice.
Qed.

Lemma exec_spares_users s d : spares_users s = true -> t_users (exec s d) = t_users d.
Proof. destruct s as [| | | |t| | | | | | | | |]; try discriminate; try reflexivity.
  now destruct t. Qed.

Lemma fold_spares_users ss :
  forallb spares_users ss = true ->
  forall d, t_users (fold_left (fun d s => exec s d) ss d) = t_users d.
Proof.
  induction ss as [|s ss IH]; simpl; intros H d; [reflexivity|].
  apply andb_prop in H. destruct H as [Hs Hss].
  now rewrite (IH Hss), (exec_spares_users s d Hs).
Qed.

Lemma catalog_spares_users d :
  let wiped := match t_islands d with [] => [] | _ => deletes end in
  t_users
    (fold_left (fun d s => exec s d)
       (wiped ++ crew_inserts ++ island_inserts ++ crew_updates ++ quest_inserts) d) =
  t_users d.
Proof.
  intros wiped. apply fold_spares_users. unfold wiped.
  destruct (t_islands d); vm_compute; reflexivity.
Qed.

Lemma seeded_quests d :
  (t_islands d = [] -> t_quests d = []) ->
  let wiped := match t_islands d with [] => [] | _ => deletes end in
  t_quests
    (fold_left (fun d s => exec s d)
       (wiped ++ crew_inserts ++ island_inserts ++ crew_updates ++ quest_inserts) d) =
  map (fun quest => mkQuestRow quest 1) quests.
Proof.
  destruct d as [dflt us isl cs qs uis ucs aqs qhs]. cbn [t_islands t_quests].
  destruct isl; intros H.
  - rewrite (H eq_refl). vm_compute. reflexivity.
  - vm_compute. reflexivity.
Qed.

Lemma wiped_when_seeded d :
  t_islands d <> [] -> match t_islands d with [] => [] | _ => deletes end = deletes.
Proof. now destruct (t_islands d). Qed.

(** What the reload leaves of the per-user tables before the unlock loop. *)
Lemma reloaded_progress d :
  t_islands d <> [] ->
  let after :=
    fold_left (fun d s => exec s d)
      (deletes ++ crew_inserts ++ island_inserts ++ crew_updates ++ quest_inserts) d in
  t_user_islands after = [] /\ t_user_crew_members after = [] /\
  t_active_quests after = [] /\ t_quest_history after = [].
Proof.
  destruct d as [dflt us isl cs qs uis ucs aqs qhs]. cbn [t_islands].
  intros _. vm_compute. repeat split.
Qed.

(** The loop of the seed and the loop of the reconciliation pass leave the
    same world: they differ in the counter only. *)
Lemma for_of_unlock_as_count (L : WorldMapModel) users :
  forall n w,
    for_of users unlock_first_island_and_luffy w =
    match for_of_with users n count_turn w with
    | (Ok _, w') => (Ok tt, w')
    | (Throw e, w') => (Throw e, w')
    end.
Proof.
  induction users as [|u users IH]; intros n w; [reflexivity|].
  cbn [for_of for_of_with]. unfold bind.
  rewrite unlock_first_island_and_luffy_reconcileUser.
  unfold count_turn, bind, ret.
  destruct (reconcileUser u w) as [[b|e] w1]; [|reflexivity].
  cbv beta iota. apply IH.
Qed.

Section Reload.

Context (L : WorldMapModel) (contract : LedgerContract L).

Lemma seedWorldMapData_rows w :
  NoDup (SELECT_active_user_ids (db w)) ->
  let wiped := match t_islands (db w) with [] => [] | _ => deletes end in
  let catalog := wiped ++ crew_inserts ++ island_inserts ++ crew_updates ++ quest_inserts in
  let seeded := db (run_all catalog w) in
  exists w' ri rc,
    seedWorldMapData w = (Ok tt, w') /\
    db w' = granted ri rc seeded /\
    map (fun r => (ui_user_id r, ui_island_id r)) ri =
      map (fun u => (u, "island_windmill_village"))
        (filter (fun u => negb (isIslandUnlocked u "island_windmill_village" seeded))
           (SELECT_active_user_ids (db w))) /\
    map (fun r => (ucm_user_id r, ucm_crew_member_id r)) rc =
      map (fun u => (u, "crew_luffy"))
        (filter (fun u => negb (isCrewUnlocked u "crew_luffy" seeded))
           (SELECT_active_user_ids (db w))).
Proof.
  intros Hnodup wiped catalog seeded.
  set (l0 := console_log
               ("🏴‍☠️ Début du peuplement des données de la carte du monde..." ++ nl)%string).
  destruct (seed_catalog_run (logged l0 w)) as (w1 & Hrun1 & Hdb1 & _).
  cbn zeta in Hrun1, Hdb1.
  change (db (logged l0 w)) with (db w) in Hdb1.
  fold wiped in Hdb1. fold catalog in Hdb1.
  change (db (run_all catalog (logged l0 w))) with seeded in Hdb1.
  assert (Hids : SELECT_active_user_ids (db w1) = SELECT_active_user_ids (db w)).
  { unfold SELECT_active_user_ids. rewrite Hdb1. unfold seeded, run_all. cbn [db].
    unfold catalog, wiped. now rewrite catalog_spares_users. }
  set (l1 := console_log "🎯 Déb oquage initial pour tous les utilisateurs...").
  assert (Hnodup1 : NoDup (SELECT_active_user_ids (db (logged l1 w1))))
    by (cbn [db logged]; now rewrite Hids).
  destruct (count_loop_exact L contract _ Hnodup1 0%nat (logged l1 w1))
    as (w2 & ri & rc & Hrun2 & Hdb2 & Hri & Hrc).
  cbn [db logged] in Hrun2, Hdb2, Hri, Hrc. rewrite Hids, Hdb1 in Hri, Hrc. rewrite Hdb1 in Hdb2.
  assert (Hloop : for_of (SELECT_active_user_ids (db w1)) unlock_first_island_and_luffy
                    (logged l1 w1) = (Ok tt, w2)).
  { rewrite (for_of_unlock_as_count L _ 0%nat). now rewrite Hrun2. }
  eexists. exists ri, rc. split; [|split; [|split; [exact Hri|exact Hrc]]].
  - unfold seedWorldMapData.
    rewrite (bind_Ok _ _ w tt (logged l0 w)) by reflexivity.
    apply try_catch_Ok.
    rewrite seed_catalog_then. rewrite (bind_Ok _ _ _ _ _ Hrun1).
    rewrite (bind_Ok _ _ w1 tt (logged l1 w1)) by reflexivity.
    rewrite (bind_Ok _ _ (logged l1 w1) (SELECT_active_user_ids (db w1)) (logged l1 w1))
      by reflexivity.
    rewrite (bind_Ok _ _ _ _ _ Hloop).
    unfold bind, log. reflexivity.
  - cbn [db logged]. exact Hdb2.
Qed.

End Reload.

(** X12. Run against a store that already holds islands,
    [seedWorldMapData] resets every user's progression: the quest instances
    and the quest history are gone, and of the unlock records only the
    baseline it grants again remains, one root island and one Luffy for each
    active user (user ids being distinct); the [users] table itself is left
    alone. *)
Theorem seedWorldMapData_reload_resets_progress :
  forall (L : WorldMapModel),
    LedgerContract L ->
    forall w,
      t_islands (db w) <> [] ->
      NoDup (SELECT_active_user_ids (db w)) ->
      exists w',
        seedWorldMapData w = (Ok tt, w') /\
        t_active_quests (db w') = [] /\
        t_quest_history (db w') = [] /\
        map (fun r => (ui_user_id r, ui_island_id r)) (t_user_islands (db w')) =
          map (fun u => (u, "island_windmill_village")) (SELECT_active_user_ids (db w)) /\
        map (fun r => (ucm_user_id r, ucm_crew_member_id r)) (t_user_crew_members (db w')) =
          map (fun u => (u, "crew_luffy")) (SELECT_active_user_ids (db w)) /\
        t_users (db w') = t_users (db w).
Proof.
  intros L contract w Hrows Hnodup.
  destruct (seedWorldMapData_rows L contract w Hnodup) as (w' & ri & rc & Hrun & Hdb & Hri & Hrc).
  cbn zeta in Hdb, Hri, Hrc. unfold run_all in Hdb, Hri, Hrc. cbn [db] in Hdb, Hri, Hrc.
  pose proof (catalog_spares_users (db w)) as Husers. cbn zeta in Husers.
  rewrite (wiped_when_seeded _ Hrows) in Hdb, Hri, Hrc, Husers.
  destruct (reloaded_progress (db w) Hrows) as (Hui & Hucm & Haq & Hqh).
  cbn zeta in Hui, Hucm, Haq, Hqh.
  remember (fold_left (fun d s => exec s d)
              (deletes ++ crew_inserts ++ island_inserts ++ crew_updates ++ quest_inserts)
              (db w)) as seeded eqn:Hseeded.
  clear Hseeded.
  exists w'. split; [exact Hrun|]. rewrite Hdb. unfold granted.
  cbn [t_active_quests t_quest_history t_user_islands t_user_crew_members t_users
       with_user_crew_members with_user_islands].
  rewrite Hui, Hucm, Haq, Hqh, Husers. cbn [app].
  split; [reflexivity|]. split; [reflexivity|]. split; [|split; [|reflexivity]].
  - rewrite Hri. rewrite (filter_ext _ (fun _ => true)).
    + rewrite filter_true. reflexivity.
    + intros u. unfold isIslandUnlocked, SELECT_user_island. rewrite Hui. reflexivity.
  - rewrite Hrc. rewrite (filter_ext _ (fun _ => true)).
    + rewrite filter_true. reflexivity.
    + intros u. unfold isCrewUnlocked, SELECT_user_crew_member. rewrite Hucm. reflexivity.
Qed.

Lemma catalog_granted ri rc d :
  t_islands (granted ri rc d) = t_islands d /\
  t_crew_members (granted ri rc d) = t_crew_members d /\
  t_quests (granted ri rc d) = t_quests d.
Proof. repeat split. Qed.

Lemma with_islands_fixed f d :
  map f (t_islands d) = t_islands d -> with_islands (map f) d = d.
Proof. intros H. unfold with_islands. rewrite H. now destruct d. Qed.

Lemma seed_rows_have_seed_coordinates :
  map (moved_by islandCoordinates) (map (fun island => mkIslandRow island 1) islands) =
  map (fun island => mkIslandRow island 1) islands.
Proof. vm_compute. reflexivity. Qed.

Section Catalog.

Context (L : WorldMapModel) (contract : LedgerContract L).

(** The catalog [seedWorldMapData] leaves is the seed's three lists. *)
Lemma seedWorldMapData_catalog w :
  (t_islands (db w) = [] -> t_crew_members (db w) = [] /\ t_quests (db w) = []) ->
  exists w',
    seedWorldMapData w = (Ok tt, w') /\
    t_islands (db w') = map (fun island => mkIslandRow island 1) islands /\
    t_crew_members (db w') = map (fun member => mkCrewRow member 1) crewMembers /\
    t_quests (db w') = map (fun quest => mkQuestRow quest 1) quests.
Proof.
  intros Hblank.
  destruct (seedWorldMapData_run L contract w) as (w' & j & ri & rc & Hrun & _ & Hdb & _).
  cbn zeta in Hdb. unfold run_all in Hdb. cbn [db] in Hdb.
  pose proof (seeded_islands (db w)) as Hislands.
  pose proof (seeded_crew_members (db w) (fun H => proj1 (Hblank H))) as Hcrew.
  pose proof (seeded_quests (db w) (fun H => proj2 (Hblank H))) as Hquests.
  cbn zeta in Hislands, Hcrew, Hquests.
  remember (fold_left (fun d s => exec s d)
              (match t_islands (db w) with [] => [] | _ => deletes end
               ++ crew_inserts ++ island_inserts ++ crew_updates ++ quest_inserts)
              (db w)) as seeded eqn:Hseeded.
  clear Hseeded.
  destruct (catalog_granted ri rc seeded) as (Hi & Hc & Hq).
  exists w'. split; [exact Hrun|]. rewrite Hdb, Hi, Hc, Hq. now repeat split.
Qed.

End Catalog.

(** X13. The catalog [seedWorldMapData] leaves is a fixed point of the
    script.  From a store without a catalog, or from one that holds islands,
    it leaves exactly the seed's islands, crew members and quests, each row
    active; run again on the store it has left, it deletes them and leaves
    exactly the same three tables. *)
Theorem seedWorldMapData_catalog_is_stable :
  forall (L : WorldMapModel),
    LedgerContract L ->
    forall w,
      (t_islands (db w) = [] -> t_crew_members (db w) = [] /\ t_quests (db w) = []) ->
      exists w1 w2,
        seedWorldMapData w = (Ok tt, w1) /\
        seedWorldMapData w1 = (Ok tt, w2) /\
        t_islands (db w1) = map (fun island => mkIslandRow island 1) islands /\
        t_crew_members (db w1) = map (fun member => mkCrewRow member 1) crewMembers /\
        t_quests (db w1) = map (fun quest => mkQuestRow quest 1) quests /\
        t_islands (db w2) = t_islands (db w1) /\
        t_crew_members (db w2) = t_crew_members (db w1) /\
        t_quests (db w2) = t_quests (db w1) /\
        exists ledger_writes,
          journal w2 = journal w1 ++ deletes ++ crew_inserts ++ island_inserts
                       ++ crew_updates ++ quest_inserts ++ ledger_writes.
Proof.
  intros L contract w Hblank.
  destruct (seedWorldMapData_catalog L contract w Hblank) as (w1 & Hrun1 & Hi1 & Hc1 & Hq1).
  assert (Hseeded : t_islands (db w1) <> []) by (rewrite Hi1; discriminate).
  assert (Hblank1 : t_islands (db w1) = [] ->
                    t_crew_members (db w1) = [] /\ t_quests (db w1) = [])
    by (intros H; contradiction).
  destruct (seedWorldMapData_catalog L contract w1 Hblank1) as (w2 & Hrun2 & Hi2 & Hc2 & Hq2).
  exists w1, w2. rewrite Hi2, Hc2, Hq2, Hi1, Hc1, Hq1.
  repeat (split; [first [assumption | reflexivity]|]).
  destruct (seedWorldMapData_run L contract w1) as (w2' & j & ri & rc & Hrun2' & Hj & _).
  rewrite Hrun2 in Hrun2'. injection Hrun2' as <-. cbn zeta in Hj.
  rewrite (wiped_when_seeded _ Hseeded) in Hj.
  exists j. rewrite Hj. now rewrite <- !app_assoc.
Qed.

(** X14. The two tables of coordinates in the script agree: on the store
    [seedWorldMapData] has left, [updateIslandCoordinates] (what start-up runs
    from then on) completes and leaves every table as it was. *)
Theorem updateIslandCoordinates_after_seed_changes_nothing :
  forall (L : WorldMapModel),
    LedgerContract L ->
    forall w,
    exists w' w'',
      seedWorldMapData w = (Ok tt, w') /\
      updateIslandCoordinates w' = (Ok tt, w'') /\
      db w'' = db w'.
Proof.
  intros L contract w.
  destruct (seedWorldMapData_run L contract w) as (w' & j & ri & rc & Hrun & _ & Hdb & _).
  cbn zeta in Hdb. unfold run_all in Hdb. cbn [db] in Hdb.
  pose proof (seeded_islands (db w)) as Hislands. cbn zeta in Hislands.
  remember (fold_left (fun d s => exec s d)
              (match t_islands (db w) with [] => [] | _ => deletes end
               ++ crew_inserts ++ island_inserts ++ crew_updates ++ quest_inserts)
              (db w)) as seeded eqn:Hseeded.
  clear Hseeded.
  destruct (catalog_granted ri rc seeded) as (Hi & _).
  destruct (updateIslandCoordinates_run w') as (w'' & Hrun' & Hdb' & _).
  exists w', w''. split; [exact Hrun|]. split; [exact Hrun'|].
  rewrite Hdb'. apply with_islands_fixed.
  rewrite Hdb, Hi, Hislands. apply seed_rows_have_seed_coordinates.
Qed.

(** * Failures of the ledger *)

(** Whatever [initializeExistingUsers] or [seedWorldMapData] throws, it has
    just written to the console. *)
Lemma thrown_errors_are_logged (L : WorldMapModel) w e w' :
  (initializeExistingUsers w = (Throw e, w') ->
     exists w1, w' = logged (users_failure e) w1) /\
  (seedWorldMapData w = (Throw e, w') ->
     exists w1, w' = logged (seed_failure e) w1).
Proof.
  split.
  - unfold initializeExistingUsers, try_catch.
    match goal with |- (let (_, _) := ?body w in _) = _ -> _ =>
      destruct (body w) as [[[]|e1] w1] end; [discriminate|].
    intros H. exists w1. unfold bind, log, throw in H. now injection H as <- <-.
  - unfold seedWorldMapData.
    match goal with |- bind (log ?l) _ w = _ -> _ =>
      rewrite (bind_Ok _ _ w tt (logged l w)) by reflexivity end.
    unfold try_catch.
    match goal with |- (let (_, _) := ?body ?v in _) = _ -> _ =>
      destruct (body v) as [[[]|e1] w1] end; [discriminate|].
    intros H. exists w1. unfold bind, log, throw in H. now injection H as <- <-.
Qed.

Section Failing.

Context (L : WorldMapModel) (e : Exn).
Hypothesis island_fails : forall u i w, exists w1, unlockIsland u i w = (Throw e, w1).
Hypothesis crew_fails : forall u c w, exists w1, unlockCrewMember u c w = (Throw e, w1).

Lemma reconcileUser_throws u w :
  has_baseline u (db w) = false -> exists w1, reconcileUser u w = (Throw e, w1).
Proof.
  unfold has_baseline, isIslandUnlocked, isCrewUnlocked, reconcileUser, bind, Database_get, ret.
  destruct (SELECT_user_island u "island_windmill_village" (db w)).
  - cbv beta iota.
    destruct (SELECT_user_crew_member u "crew_luffy" (db w)); [discriminate|]. intros _.
    destruct (crew_fails u "crew_luffy" w) as (w1 & ->). now exists w1.
  - intros _. destruct (island_fails u "island_windmill_village" w) as (w1 & ->).
    now exists w1.
Qed.

Lemma count_loop_throws users :
  forall n w,
    (exists u, In u users /\ has_baseline u (db w) = false) ->
    exists w1, for_of_with users n count_turn w = (Throw e, w1).
Proof.
  induction users as [|u0 users IH]; intros n w (u & Hin & Hlacks); [contradiction|].
  cbn [for_of_with]. unfold bind at 1.
  destruct (has_baseline u0 (db w)) eqn:Hheld.
  - unfold count_turn at 1.
    rewrite (bind_Ok _ _ _ _ _ (reconcileUser_held L u0 w Hheld)). unfold ret at 1.
    apply IH. exists u. split; [|exact Hlacks].
    destruct Hin as [->|Hin]; [congruence|exact Hin].
  - destruct (reconcileUser_throws u0 w Hheld) as (w1 & Hthrow).
    unfold count_turn, bind. rewrite Hthrow. now exists w1.
Qed.

Lemma initializeExistingUsers_throws w :
  (exists u, In u (SELECT_active_user_ids (db w)) /\ has_baseline u (db w) = false) ->
  exists w1, initializeExistingUsers w = (Throw e, logged (users_failure e) w1).
Proof.
  intros Hlacks.
  destruct (count_loop_throws (SELECT_active_user_ids (db w)) 0%nat (logged initializing_users w))
    as (w1 & Hloop); [exact Hlacks|].
  exists w1. unfold initializeExistingUsers.
  match goal with |- try_catch ?body _ w = _ =>
    assert (Hbody : body w = (Throw e, w1)) end.
  { rewrite (bind_Ok _ _ w tt (logged initializing_users w)) by reflexivity.
    unfold bind at 1. unfold count_usersInitialized.
    rewrite (bind_Ok _ _ (logged initializing_users w) (SELECT_active_user_ids (db w))
               (logged initializing_users w)) by reflexivity.
    now rewrite Hloop. }
  now rewrite (try_catch_Throw _ _ _ _ _ Hbody).
Qed.

Lemma seedWorldMapData_throws w :
  t_islands (db w) <> [] ->
  SELECT_active_user_ids (db w) <> [] ->
  exists w1, seedWorldMapData w = (Throw e, logged (seed_failure e) w1).
Proof.
  intros Hrows Husers.
  set (l0 := console_log
               ("🏴‍☠️ Début du peuplement des données de la carte du monde..." ++ nl)%string).
  destruct (seed_catalog_run (logged l0 w)) as (w1 & Hrun1 & Hdb1 & _).
  cbn zeta in Hrun1, Hdb1.
  unfold run_all in Hdb1. cbn [db logged] in Hdb1.
  rewrite (wiped_when_seeded (db w) Hrows) in Hdb1.
  assert (Hids : SELECT_active_user_ids (db w1) = SELECT_active_user_ids (db w)).
  { unfold SELECT_active_user_ids. rewrite Hdb1.
    pose proof (catalog_spares_users (db w)) as Hspared. cbn zeta in Hspared.
    rewrite (wiped_when_seeded (db w) Hrows) in Hspared. now rewrite Hspared. }
  destruct (reloaded_progress (db w) Hrows) as (Hui & _).
  rewrite <- Hdb1 in Hui. clear Hdb1.
  set (l1 := console_log "🎯 Déb oquage initial pour tous les utilisateurs...").
  destruct (SELECT_active_user_ids (db w)) as [|u users] eqn:Hlist; [congruence|].
  assert (Hlacks : has_baseline u (db (logged l1 w1)) = false).
  { unfold has_baseline, isIslandUnlocked, SELECT_user_island. cbn [db logged].
    now rewrite Hui. }
  destruct (count_loop_throws (u :: users) 0%nat (logged l1 w1)) as (w2 & Hloop).
  { exists u. split; [now left|exact Hlacks]. }
  assert (Hfor : for_of (SELECT_active_user_ids (db w1)) unlock_first_island_and_luffy
                   (logged l1 w1) = (Throw e, w2)).
  { rewrite Hids. rewrite (for_of_unlock_as_count L _ 0%nat). now rewrite Hloop. }
  exists w2. unfold seedWorldMapData.
  rewrite (bind_Ok _ _ w tt (logged l0 w)) by reflexivity.
  match goal with |- try_catch ?body _ _ = _ =>
    assert (Hbody : body (logged l0 w) = (Throw e, w2)) end.
  { rewrite seed_catalog_then. rewrite (bind_Ok _ _ _ _ _ Hrun1).
    rewrite (bind_Ok _ _ w1 tt (logged l1 w1)) by reflexivity.
    rewrite (bind_Ok _ _ (logged l1 w1) (SELECT_active_user_ids (db w1)) (logged l1 w1))
      by reflexivity.
    unfold bind at 1. now rewrite Hfor. }
  now rewrite (try_catch_Throw _ _ _ _ _ Hbody).
Qed.

End Failing.

(** X9. Neither [initializeExistingUsers] nor [seedWorldMapData] swallows
    a failure of the ledger.  With a ledger whose two unlocks throw [e]:
    when some active user lacks the root island or Luffy,
    [initializeExistingUsers] throws [e], and on a store that holds islands
    and at least one active user, [seedWorldMapData] throws [e]; each time the
    last console line is the function's [console.error] line carrying [e]. *)
Theorem errors_are_logged_and_rethrown :
  forall (L : WorldMapModel) e,
    (forall u i w, exists w1, unlockIsland u i w = (Throw e, w1)) ->
    (forall u c w, exists w1, unlockCrewMember u c w = (Throw e, w1)) ->
    forall w,
      ((exists u, In u (SELECT_active_user_ids (db w)) /\ has_baseline u (db w) = false) ->
       exists w1, initializeExistingUsers w = (Throw e, logged (users_failure e) w1)) /\
      (t_islands (db w) <> [] ->
       SELECT_active_user_ids (db w) <> [] ->
       exists w1, seedWorldMapData w = (Throw e, logged (seed_failure e) w1)).
Proof.
  intros L e Hisland Hcrew w. split.
  - now apply initializeExistingUsers_throws.
  - now apply seedWorldMapData_throws.
Qed.

(** * Account creation and the reconciliation pass together *)

(** X15. The gap a failed baseline grant leaves is closed by the next
    reconciliation pass.  When the ledger is out of order while an account is
    created (its island unlock throws and leaves the store as it was),
    [UserModel.create] still returns the user, who then holds neither the
    root island nor Luffy; the next [initializeExistingUsers], run with a
    ledger that works, completes and leaves that user holding both. *)
Theorem failed_baseline_is_repaired_by_the_next_pass :
  forall (L1 L2 : WorldMapModel),
    LedgerContract L2 ->
    (forall u i w, exists e w1, @unlockIsland L1 u i w = (Throw e, w1) /\ db w1 = db w) ->
    forall env userData w,
      u_is_active (users_defaults (db w)) = true ->
      exists user w1 w2,
        @UserModel.create L1 env userData w = (Ok user, w1) /\
        t_user_islands (db w1) = t_user_islands (db w) /\
        t_user_crew_members (db w1) = t_user_crew_members (db w) /\
        @initializeExistingUsers L2 w1 = (Ok tt, w2) /\
        has_baseline (uuidv4 env) (db w2) = true.
Proof.
  intros L1 L2 contract Hfails env userData w Hactive.
  set (id := uuidv4 env).
  set (password_hash := bcrypt_hash env (uc_password userData) (bcrypt_rounds env)).
  set (insert := INSERT_users id (uc_username userData) password_hash).
  set (inserted := snd (Database_run insert w)).
  destruct (SELECT_user_by_id_inserted id (uc_username userData) password_hash (db w) Hactive)
    as (row & Hrow & _).
  destruct (Hfails id "island_windmill_village" inserted) as (e & w0 & Hthrow & Hdb0).
  set (w1 := logged (console_error "Erreur lors de l'initialisation du nouveau joueur:" (Some e)) w0).
  assert (Hdb1 : db w1 = exec insert (db w)) by (cbn [db logged w1]; now rewrite Hdb0).
  assert (Hcreate : @UserModel.create L1 env userData w = (Ok (user_of row), w1)).
  { unfold UserModel.create. fold id password_hash insert.
    rewrite (bind_Ok _ _ w tt inserted) by reflexivity.
    rewrite (bind_Ok _ _ inserted (Some (user_of row)) inserted).
    - assert (Hb : (@unlockIsland L1 id "island_windmill_village" ;;
                    @unlockCrewMember L1 id "crew_luffy") inserted = (Throw e, w0))
        by (unfold bind; now rewrite Hthrow).
      erewrite bind_Ok; [reflexivity|]. now rewrite (try_catch_Throw _ _ _ _ _ Hb).
    - rewrite findById_reads. unfold inserted, Database_run. cbn [snd db].
      fold insert in Hrow. now rewrite Hrow. }
  destruct (initializeExistingUsers_run L2 contract w1) as (w2 & j & ri & rc & Hrun & _ & _ & Hall & _).
  exists (user_of row), w1, w2.
  split; [exact Hcreate|]. rewrite Hdb1.
  split; [reflexivity|]. split; [reflexivity|]. split; [exact Hrun|].
  apply Hall. rewrite Hdb1. unfold SELECT_active_user_ids, insert. cbn [exec t_users with_users].
  rewrite filter_app, map_app. apply in_or_app. right.
  cbn [filter new_user_row u_is_active]. rewrite Hactive. now left.
Qed.

(** * Properties of the application shell ([app.ts]) *)

(** ** The CORS policy *)

Lemma split_cons sep s : split sep s <> [].
Proof.
  destruct s as [|c rest]; cbn [split]; [discriminate|].
  destruct (Ascii.eqb c sep); [discriminate|].
  destruct (split sep rest); discriminate.
Qed.

Lemma concat_split sep s : String.concat (String sep EmptyString) (split sep s) = s.
Proof.
  induction s as [|c rest IH]; [reflexivity|].
  cbn [split]. destruct (Ascii.eqb c sep) eqn:Hc.
  - apply Ascii.eqb_eq in Hc. subst c.
    destruct (split sep rest) as [|piece pieces] eqn:Hs; [now destruct (split_cons sep rest)|].
    change (String.concat (String sep EmptyString) (EmptyString :: piece :: pieces))
      with (String sep (String.concat (String sep EmptyString) (piece :: pieces))).
    now rewrite IH.
  - destruct (split sep rest) as [|piece pieces] eqn:Hs; [now destruct (split_cons sep rest)|].
    destruct pieces as [|piece' pieces].
    + cbn [String.concat] in *. now rewrite IH.
    + change (String.concat (String sep EmptyString) (String c piece :: piece' :: pieces))
        with (String c (String.concat (String sep EmptyString) (piece :: piece' :: pieces))).
      now rewrite IH.
Qed.

Lemma split_pieces sep s piece :
  In piece (split sep s) -> ~ In sep (list_ascii_of_string piece).
Proof.
  revert piece. induction s as [|c rest IH]; intros piece.
  - cbn [split In]. intros [<-|[]]. intros [].
  - cbn [split]. destruct (Ascii.eqb c sep) eqn:Hc.
    + intros [<-|Hin]; [intros []|now apply IH].
    + apply Ascii.eqb_neq in Hc.
      destruct (split sep rest) as [|first others] eqn:Hs; [now destruct (split_cons sep rest)|].
      intros [<-|Hin].
      * cbn [list_ascii_of_string In]. intros [Heq|Hin]; [congruence|].
        apply (IH first); [now left|exact Hin].
      * apply IH. now right.
Qed.

Lemma includes_In xs x : includes xs x = true <-> In x xs.
Proof.
  unfold includes. rewrite existsb_exists. split.
  - intros (y & Hy & Heq). apply String.eqb_eq in Heq. now subst.
  - intros Hin. exists x. split; [exact Hin|apply String.eqb_refl].
Qed.

(** X16. The CORS decision.  A request without an origin (or with an empty
    one) is always let through; a named origin is let through exactly when it
    is one of the allowed origins, and is otherwise refused with the error
    [Non autorisé par CORS] after one warning that quotes it; the answer is
    never [false] and the store is never touched.  When [ALLOWED_ORIGINS] is
    set, the allowed origins are exactly the pieces of its value between
    commas, taken as they are (joined by commas they give the value back, and
    no piece holds a comma), so the two local origins apply only when the
    variable is not set, and a variable set to the empty string refuses
    every named origin. *)
Theorem cors_admits_exactly_the_allowed_origins :
  forall ALLOWED_ORIGINS origin w,
    (truthy origin = false ->
     corsOptions_origin ALLOWED_ORIGINS origin w = (Ok true, w)) /\
    (forall o, origin = Some o -> o <> ""%string ->
       (In o (allowedOrigins ALLOWED_ORIGINS) ->
        corsOptions_origin ALLOWED_ORIGINS origin w = (Ok true, w)) /\
       (~ In o (allowedOrigins ALLOWED_ORIGINS) ->
        corsOptions_origin ALLOWED_ORIGINS origin w =
        (Throw (Error "Non autorisé par CORS"),
         logged (console_warn ("🚫 CORS: Origine non autorisée: " ++ o)%string None) w))) /\
    (forall value, ALLOWED_ORIGINS = Some value ->
       String.concat "," (allowedOrigins ALLOWED_ORIGINS) = value /\
       (forall piece, In piece (allowedOrigins ALLOWED_ORIGINS) ->
                      ~ In ","%char (list_ascii_of_string piece)) /\
       (value = ""%string ->
        forall o, o <> ""%string -> ~ In o (allowedOrigins ALLOWED_ORIGINS))).
Proof.
  intros env origin w. split; [|split].
  - destruct origin as [o|]; [|reflexivity].
    unfold truthy, corsOptions_origin. now destruct (o =? "")%string.
  - intros o -> Ho. apply String.eqb_neq in Ho.
    unfold corsOptions_origin. rewrite Ho. split; intros Hin.
    + apply includes_In in Hin. now rewrite Hin.
    + destruct (includes (allowedOrigins env) o) eqn:Hinc; [|reflexivity].
      apply includes_In in Hinc. contradiction.
  - intros value ->. cbn [allowedOrigins]. split; [apply concat_split|].
    split; [intros piece; apply split_pieces|].
    intros -> o Ho [Heq|[]]. congruence.
Qed.

(** ** The global error handler *)

(** X17. What the global error handler answers to an error whose
    [status] and [statusCode] are absent or integers.  It always writes one
    console line first.  Once the headers are sent it answers nothing itself
    and passes the error on.  Otherwise the status is the error's [status]
    when that is set and not 0, else its [statusCode] when that is set and
    not 0, else 500, so it is never 0.  A status within 100..999 is answered
    with a message that is never empty; in production the body is the same
    for every error, the fixed message and no stack.  A status outside
    100..999 is not answered: the handler throws the [RangeError] of the
    response. *)
Theorem errorHandler_reply :
  forall NODE_ENV headersSent error w,
    let status := or_number (e_status error) (or_number (e_statusCode error) 500) in
    status <> 0 /\
    (forall n, e_status error = Some n -> n <> 0 -> status = n) /\
    (forall n, (e_status error = None \/ e_status error = Some 0) ->
               e_statusCode error = Some n -> n <> 0 -> status = n) /\
    ((e_status error = None \/ e_status error = Some 0) ->
     (e_statusCode error = None \/ e_statusCode error = Some 0) -> status = 500) /\
    (headersSent = true ->
     errorHandler NODE_ENV headersSent error w =
     (Ok (pass_on error), logged (unhandled error) w)) /\
    (headersSent = false -> status < 100 \/ 999 < status ->
     errorHandler NODE_ENV headersSent error w =
     (Throw (RangeError status), logged (unhandled error) w)) /\
    (headersSent = false -> 100 <= status <= 999 ->
     exists message stack,
       errorHandler NODE_ENV headersSent error w =
       (Ok (res_json status message stack), logged (unhandled error) w) /\
       message <> ""%string /\
       (NODE_ENV = Some "production"%string ->
        message = "Erreur interne du serveur"%string /\ stack = None) /\
       (NODE_ENV <> Some "production"%string ->
        stack = e_stack error /\
        (forall m, e_message error = Some m -> m <> ""%string -> message = m))).
Proof.
  intros env sent error w status.
  assert (Hprod : production env = true <-> env = Some "production"%string).
  { destruct env as [v|]; cbn [production]; [|split; discriminate].
    rewrite String.eqb_eq. split; congruence. }
  split; [|split; [|split; [|split; [|split; [|split]]]]].
  - unfold status, or_number.
    destruct (e_status error) as [a|]; [destruct (Z.eqb_spec a 0); [|assumption]|];
      (destruct (e_statusCode error) as [b|]; [destruct (Z.eqb_spec b 0)|]);
      try assumption; discriminate.
  - intros n Hn Hnz. unfold status, or_number. rewrite Hn. now destruct (Z.eqb_spec n 0).
  - intros n Hs Hn Hnz. unfold status, or_number. rewrite Hn.
    destruct Hs as [-> | ->]; cbn [Z.eqb]; now destruct (Z.eqb_spec n 0).
  - unfold status. intros [-> | ->] [-> | ->]; reflexivity.
  - intros ->. reflexivity.
  - intros -> Hout. unfold errorHandler, bind, log. fold status.
    assert (Hrange : (100 <=? status) && (status <=? 999) = false).
    { apply andb_false_iff. rewrite Z.leb_gt, Z.leb_gt. clear - Hout. lia. }
    now rewrite Hrange.
  - intros -> Hin. unfold errorHandler, bind, log. fold status.
    assert (Hrange : (100 <=? status) && (status <=? 999) = true).
    { apply andb_true_iff. rewrite !Z.leb_le. exact Hin. }
    rewrite Hrange. do 2 eexists. split; [reflexivity|]. split; [|split].
    + destruct (production env); [discriminate|].
      unfold or_string. destruct (e_message error) as [m|]; [|discriminate].
      destruct (String.eqb_spec m ""); [discriminate|assumption].
    + intros Henv. apply Hprod in Henv. now rewrite Henv.
    + intros Henv. destruct (production env) eqn:Hp; [now destruct Henv; apply Hprod|].
      split; [reflexivity|]. intros m -> Hm. unfold or_string.
      now destruct (String.eqb_spec m "").
Qed.

(** ** Start-up and shutdown *)

Lemma initializeWorldMap_Ok (L : WorldMapModel) w :
  exists w', initializeWorldMap w = (Ok tt, w').
Proof.
  unfold initializeWorldMap.
  match goal with |- exists _, bind (log ?l) _ w = _ =>
    rewrite (bind_Ok _ _ w tt (logged l w)) by reflexivity end.
  unfold try_catch.
  match goal with |- exists _, (let (_, _) := ?body ?v in _) = _ =>
    destruct (body v) as [[[]|e1] w1] end; eexists; reflexivity.
Qed.

Lemma import_vegapull_Ok (S : Collaborators) w :
  exists w', import_vegapull w = (Ok tt, w').
Proof.
  unfold import_vegapull.
  match goal with |- exists _, bind (log ?l) _ w = _ =>
    rewrite (bind_Ok _ _ w tt (logged l w)) by reflexivity end.
  unfold try_catch.
  match goal with |- exists _, (let (_, _) := ?body ?v in _) = _ =>
    destruct (body v) as [[[]|e1] w1] end; eexists; reflexivity.
Qed.

Lemma initialize_achievements_Ok (S : Collaborators) boosterCount w :
  exists w', initialize_achievements boosterCount w = (Ok tt, w').
Proof.
  unfold initialize_achievements.
  match goal with |- exists _, bind (log ?l) _ w = _ =>
    rewrite (bind_Ok _ _ w tt (logged l w)) by reflexivity end.
  unfold try_catch.
  match goal with |- exists _, (let (_, _) := ?body ?v in _) = _ =>
    destruct (body v) as [[[]|e1] w1] end; eexists; reflexivity.
Qed.

(** X18. Start-up depends only on its three required steps.  When opening
    the database, running the migrations and counting the boosters do not
    throw, [initializeApp] completes and its last console line announces
    success, whatever the Vegapull importer, the achievement service, the
    achievement counts and the ledger do: a failure of one of those is caught
    where it happens. *)
Theorem initializeApp_needs_only_its_required_steps :
  forall (S : Collaborators) (L : WorldMapModel),
    (forall w, exists w', Database_initialize w = (Ok tt, w')) ->
    (forall w, exists w', MigrationManager_migrate w = (Ok tt, w')) ->
    (forall w, exists n w', BoosterModel_count w = (Ok n, w')) ->
    forall w,
      exists w1,
        initializeApp w =
        (Ok tt, logged (console_log "🎉 Application initialisée avec succès") w1).
Proof.
  intros S L database_opens migrations_run boosters_counted w.
  unfold initializeApp.
  match goal with |- exists _, try_catch ?body _ w = _ =>
    assert (Hbody : exists w1,
               body w =
               (Ok tt, logged (console_log "🎉 Application initialisée avec succès") w1)) end.
  { match goal with |- exists _, bind (log ?l) _ w = _ =>
      rewrite (bind_Ok _ _ w tt (logged l w)) by reflexivity;
      destruct (database_opens (logged l w)) as (w1 & H1) end.
    rewrite (bind_Ok _ _ _ _ _ H1).
    match goal with |- exists _, bind (log ?l) _ w1 = _ =>
      rewrite (bind_Ok _ _ w1 tt (logged l w1)) by reflexivity;
      destruct (migrations_run (logged l w1)) as (w2 & H2) end.
    rewrite (bind_Ok _ _ _ _ _ H2).
    match goal with |- exists _, bind (log ?l) _ w2 = _ =>
      rewrite (bind_Ok _ _ w2 tt (logged l w2)) by reflexivity;
      destruct (boosters_counted (logged l w2)) as (n & w3 & H3) end.
    rewrite (bind_Ok _ _ _ _ _ H3).
    match goal with |- exists _, bind (log ?l) _ w3 = _ =>
      rewrite (bind_Ok _ _ w3 tt (logged l w3)) by reflexivity;
      set (w4 := logged l w3) end.
    assert (H5 : exists w5, (if n =? 0 then import_vegapull else ret tt) w4 = (Ok tt, w5)).
    { destruct (n =? 0); [apply import_vegapull_Ok|now exists w4]. }
    destruct H5 as (w5 & H5). rewrite (bind_Ok _ _ _ _ _ H5).
    destruct (initialize_achievements_Ok S n w5) as (w6 & H6).
    rewrite (bind_Ok _ _ _ _ _ H6).
    destruct (initializeWorldMap_Ok L w6) as (w7 & H7).
    rewrite (bind_Ok _ _ _ _ _ H7).
    now exists w7. }
  destruct Hbody as (w1 & Hbody). exists w1. exact (try_catch_Ok _ _ _ _ _ Hbody).
Qed.

(** X19. A failure of start-up or of shutdown is reported and passed on
    as it is.  If [initializeApp] or [closeApp] throws, the error is the one
    that interrupted it, and the last console line reports that error; a
    database that cannot be opened stops start-up before anything else is
    tried; and [closeApp] throws exactly when closing the database does. *)
Theorem startup_and_shutdown_failures_are_rethrown :
  forall (S : Collaborators) (L : WorldMapModel) w,
    (forall e w', initializeApp w = (Throw e, w') ->
       exists w1, w' = logged (startup_failure e) w1) /\
    (forall e w1,
       Database_initialize (logged (console_log "🚀 Initialisation de l'application...") w)
       = (Throw e, w1) ->
       initializeApp w = (Throw e, logged (startup_failure e) w1)) /\
    (forall e w', closeApp w = (Throw e, w') ->
       exists w1, w' = logged (shutdown_failure e) w1) /\
    (forall w1,
       Database_close (logged (console_log "🔄 Fermeture de l'application...") w) = (Ok tt, w1) ->
       closeApp w = (Ok tt, logged (console_log "✅ Application fermée proprement") w1)) /\
    (forall e w1,
       Database_close (logged (console_log "🔄 Fermeture de l'application...") w) = (Throw e, w1) ->
       closeApp w = (Throw e, logged (shutdown_failure e) w1)).
Proof.
  intros S L w. split; [|split; [|split; [|split]]].
  - intros e w'. unfold initializeApp, try_catch.
    match goal with |- (let (_, _) := ?body w in _) = _ -> _ =>
      destruct (body w) as [[[]|e1] w1] end; [discriminate|].
    intros H. exists w1. unfold bind, log, throw in H. now injection H as <- <-.
  - intros e w1 H. unfold initializeApp.
    match goal with |- try_catch ?body _ w = _ =>
      assert (Hbody : body w = (Throw e, w1)) end.
    { match goal with |- bind (log ?l) _ w = _ =>
        rewrite (bind_Ok _ _ w tt (logged l w)) by reflexivity end.
      unfold bind at 1. now rewrite H. }
    now rewrite (try_catch_Throw _ _ _ _ _ Hbody).
  - intros e w'. unfold closeApp, try_catch.
    match goal with |- (let (_, _) := ?body w in _) = _ -> _ =>
      destruct (body w) as [[[]|e1] w1] end; [discriminate|].
    intros H. exists w1. unfold bind, log, throw in H. now injection H as <- <-.
  - intros w1 H. unfold closeApp.
    apply try_catch_Ok.
    match goal with |- bind (log ?l) _ w = _ =>
      rewrite (bind_Ok _ _ w tt (logged l w)) by reflexivity end.
    now rewrite (bind_Ok _ _ _ _ _ H).
  - intros e w1 H. unfold closeApp.
    match goal with |- try_catch ?body _ w = _ =>
      assert (Hbody : body w = (Throw e, w1)) end.
    { match goal with |- bind (log ?l) _ w = _ =>
        rewrite (bind_Ok _ _ w tt (logged l w)) by reflexivity end.
      unfold bind at 1. now rewrite H. }
    now rewrite (try_catch_Throw _ _ _ _ _ Hbody).
Qed.

(** * Further properties of the user model: logging in and counting *)

Lemma find_map_kept {A} (p : A -> bool) (h : A -> A) rows :
  (forall r, p (h r) = p r) ->
  find p (map h rows) = option_map h (find p rows).
Proof.
  intros Hp. induction rows as [|r rows IH]; [reflexivity|].
  cbn [map find]. rewrite Hp. now destruct (p r).
Qed.

Lemma find_the_active_row row rows :
  NoDup (map u_id (filter u_is_active rows)) ->
  In row rows ->
  u_is_active row = true ->
  find (fun u => (u_id u =? u_id row)%string && u_is_active u) rows = Some row.
Proof.
  intros Hnodup Hin Hactive. induction rows as [|r rows IH]; [contradiction|].
  cbn [find]. destruct Hin as [->|Hin].
  - now rewrite String.eqb_refl, Hactive.
  - cbn [filter] in Hnodup. destruct (u_is_active r) eqn:Hr.
    + cbn [map] in Hnodup. apply NoDup_cons_iff in Hnodup. destruct Hnodup as [Hfresh Hnodup].
      destruct (u_id r =? u_id row)%string eqn:E; cbn [andb]; [|now apply IH].
      apply String.eqb_eq in E. exfalso. apply Hfresh. rewrite E.
      apply in_map. apply filter_In. now split.
    + rewrite andb_false_r. now apply IH.
Qed.

Lemma length_filter_update_where {A} (key : A -> string) (p : A -> bool) (f : A -> A) id rows :
  (forall r, p (f r) = p r) ->
  length (filter p (update_where key id f rows)) = length (filter p rows).
Proof.
  intros Hp. induction rows as [|r rows IH]; [reflexivity|].
  cbn [update_where map filter]. fold (update_where key id f rows).
  assert (Hsame : p (if (key r =? id)%string then f r else r) = p r)
    by (destruct (key r =? id)%string; [apply Hp|reflexivity]).
  rewrite Hsame. destruct (p r); cbn [length]; now rewrite IH.
Qed.

Lemma length_filter_deactivated (f : UserRow -> UserRow) id rows :
  (forall r, u_is_active (f r) = false) ->
  Z.of_nat (length (filter u_is_active (update_where u_id id f rows))) =
  Z.of_nat (length (filter u_is_active rows))
  - Z.of_nat (length (filter (String.eqb id) (map u_id (filter u_is_active rows)))).
Proof.
  intros Hoff. induction rows as [|r rows IH]; [reflexivity|].
  cbn [update_where map filter]. fold (update_where u_id id f rows).
  rewrite (String.eqb_sym (u_id r) id).
  destruct (id =? u_id r)%string eqn:E.
  - rewrite Hoff. destruct (u_is_active r).
    + cbn [map filter]. rewrite E. cbn [length]. lia.
    + exact IH.
  - destruct (u_is_active r).
    + cbn [map filter]. rewrite E. cbn [length]. lia.
    + exact IH.
Qed.

Lemma filter_eqb_absent id ids : ~ In id ids -> filter (String.eqb id) ids = [].
Proof.
  intros Hout. induction ids as [|i ids IH]; [reflexivity|].
  cbn [filter]. destruct (String.eqb_spec id i) as [->|_].
  - exfalso. apply Hout. now left.
  - apply IH. intros Hin. apply Hout. now right.
Qed.

Lemma filter_eqb_once id ids :
  NoDup ids -> In id ids -> length (filter (String.eqb id) ids) = 1%nat.
Proof.
  intros Hnodup Hin. induction ids as [|i ids IH]; [contradiction|].
  apply NoDup_cons_iff in Hnodup. destruct Hnodup as [Hfresh Hnodup].
  cbn [filter]. destruct (String.eqb_spec id i) as [->|Hne].
  - now rewrite (filter_eqb_absent i ids Hfresh).
  - destruct Hin as [->|Hin]; [contradiction|]. now apply IH.
Qed.

Lemma update_rows env id updates w :
  t_users (db (snd (UserModel.update env id updates w))) =
  if defines_a_field updates
  then update_where u_id id (updated_row env updates) (t_users (db w))
  else t_users (db w).
Proof.
  unfold UserModel.update.
  set (fields :=
         UserModel.push_if (upd_is_active updates) SET_is_active
           (UserModel.push_if (upd_is_admin updates) SET_is_admin
              (UserModel.push_if (upd_password updates)
                 (fun password => SET_password_hash (bcrypt_hash env password (bcrypt_rounds env)))
                 (UserModel.push_if (upd_username updates) SET_username [])))).
  assert (Hsome : (length fields =? 0)%nat = negb (defines_a_field updates))
    by (unfold fields; now destruct updates as [[a|] [b|] [c|] [d|]]).
  rewrite Hsome. destruct (defines_a_field updates); cbn [negb].
  - unfold bind, Database_run. rewrite findById_reads. cbn [snd db exec t_users with_users].
    unfold update_where. apply map_ext. intros row.
    unfold fields. now rewrite update_fields_updated_row.
  - now rewrite findById_reads.
Qed.

(** X20. Logging in by name.  The row [findByUsername] returns is an
    active row of that name, and, active user ids being distinct, [findById]
    on its id returns that same row (with its two dates converted).
    [updateLastLogin] on that id then stamps it with the time of the call and
    changes nothing else of it, [updated_at] included: both lookups return
    the row with the new [last_login]. *)
Theorem login_round_trip :
  forall env username row w,
    NoDup (SELECT_active_user_ids (db w)) ->
    fst (UserModel.findByUsername username w) = Ok (Some row) ->
    u_username row = username /\
    u_is_active row = true /\
    fst (UserModel.findById (u_id row) w) = Ok (Some (user_of row)) /\
    let after := snd (UserModel.updateLastLogin env (u_id row) w) in
    let stamped :=
      mkUserRow (u_id row) (u_username row) (u_password_hash row) (u_created_at row)
        (u_updated_at row) (Some (now_iso env)) (u_is_admin row) (u_is_active row)
        (u_available_boosters row) (u_next_booster_time row) (u_boosters_opened_today row)
        (u_last_booster_opened row) (u_berrys row) (u_favorite_card_id row) in
    fst (UserModel.findByUsername username after) = Ok (Some stamped) /\
    fst (UserModel.findById (u_id row) after) = Ok (Some (user_of stamped)).
Proof.
  intros env username row w Hnodup Hfound.
  unfold UserModel.findByUsername, Database_get in Hfound. cbn [fst] in Hfound.
  assert (Hfind : SELECT_user_by_username username (db w) = Some row) by congruence.
  clear Hfound. unfold SELECT_user_by_username in Hfind.
  destruct (find_some _ _ Hfind) as [Hin Hrow].
  apply andb_true_iff in Hrow. destruct Hrow as [Hname Hactive].
  apply String.eqb_eq in Hname.
  assert (Hbyid : SELECT_user_by_id (u_id row) (db w) = Some row)
    by (apply find_the_active_row; assumption).
  split; [exact Hname|]. split; [exact Hactive|].
  split; [rewrite findById_reads; cbn [fst]; now rewrite Hbyid|].
  intros after stamped.
  assert (Hrows : t_users (db after) =
                  update_where u_id (u_id row) (assign (SET_last_login (now_iso env)))
                    (t_users (db w))) by reflexivity.
  assert (Hstamped : (if (u_id row =? u_id row)%string
                      then assign (SET_last_login (now_iso env)) row else row) = stamped)
    by (rewrite String.eqb_refl; reflexivity).
  split.
  - unfold UserModel.findByUsername, Database_get. cbn [fst]. do 2 f_equal.
    unfold SELECT_user_by_username. rewrite Hrows. unfold update_where.
    rewrite find_map_kept.
    + rewrite Hfind. cbn [option_map]. now rewrite Hstamped.
    + intros r. now destruct (u_id r =? u_id row)%string.
  - rewrite findById_reads. cbn [fst]. do 2 f_equal.
    unfold SELECT_user_by_id. rewrite Hrows.
    rewrite find_update_where_kept by (intros r; reflexivity).
    unfold SELECT_user_by_id in Hbyid. rewrite Hbyid. cbn [option_map].
    now rewrite Hstamped.
Qed.

(** X21. [UserModel.count] counts the users the reconciliation pass
    visits, and only a change of [is_active] moves it: a grant, a login stamp
    and an update that leaves [is_active] undefined keep the count; [delete]
    lowers it by the number of active rows with that id, which is one for an
    active user when active ids are distinct, and none for an id that is
    unknown or already deleted. *)
Theorem count_follows_activity :
  forall env id w,
    let ids := SELECT_active_user_ids (db w) in
    fst (UserModel.count w) = Ok (Z.of_nat (length ids)) /\
    (forall amount,
       fst (UserModel.count (snd (UserModel.addBerrys id amount w))) = fst (UserModel.count w)) /\
    fst (UserModel.count (snd (UserModel.updateLastLogin env id w))) = fst (UserModel.count w) /\
    (forall updates, upd_is_active updates = None ->
       fst (UserModel.count (snd (UserModel.update env id updates w))) =
       fst (UserModel.count w)) /\
    fst (UserModel.count (snd (UserModel.delete env id w))) =
      Ok (Z.of_nat (length ids) - Z.of_nat (length (filter (String.eqb id) ids))) /\
    (NoDup ids -> In id ids ->
       fst (UserModel.count (snd (UserModel.delete env id w))) = Ok (Z.of_nat (length ids) - 1)) /\
    (~ In id ids ->
       fst (UserModel.count (snd (UserModel.delete env id w))) = fst (UserModel.count w)).
Proof.
  intros env id w ids.
  assert (Hcount : forall v,
             fst (UserModel.count v) = Ok (Z.of_nat (length (filter u_is_active (t_users (db v))))))
    by reflexivity.
  assert (Hids : length ids = length (filter u_is_active (t_users (db w))))
    by apply length_map.
  assert (Hdelete : fst (UserModel.count (snd (UserModel.delete env id w))) =
                    Ok (Z.of_nat (length ids) - Z.of_nat (length (filter (String.eqb id) ids)))).
  { rewrite Hcount, Hids. f_equal.
    change (t_users (db (snd (UserModel.delete env id w))))
      with (update_where u_id id
              (fun u => assign (SET_updated_at (now_iso env)) (assign (SET_is_active false) u))
              (t_users (db w))).
    now apply length_filter_deactivated. }
  split; [now rewrite Hcount, Hids|].
  split; [|split; [|split; [|split; [exact Hdelete|split]]]].
  - intros amount. rewrite !Hcount. do 2 f_equal.
    change (t_users (db (snd (UserModel.addBerrys id amount w))))
      with (update_where u_id id
              (berrys_after (bind_number amount) (bind_number UserModel.MAX_BERRYS))
              (t_users (db w))).
    now apply length_filter_update_where.
  - rewrite !Hcount. do 2 f_equal.
    change (t_users (db (snd (UserModel.updateLastLogin env id w))))
      with (update_where u_id id (assign (SET_last_login (now_iso env))) (t_users (db w))).
    now apply length_filter_update_where.
  - intros updates Hnone. rewrite !Hcount. do 2 f_equal.
    rewrite update_rows. destruct (defines_a_field updates); [|reflexivity].
    apply length_filter_update_where.
    intros r. unfold updated_row. cbn [u_is_active]. now rewrite Hnone.
  - intros Hnodup Hin. rewrite Hdelete. now rewrite (filter_eqb_once id ids Hnodup Hin).
  - intros Hout. rewrite Hdelete, Hcount, Hids.
    rewrite (filter_eqb_absent id ids Hout). cbn [length]. f_equal. lia.
Qed.

(** * The further properties on the sample world *)

Lemma sample_ids_distinct : NoDup (SELECT_active_user_ids (db (Sample.world Sample.playing))).
Proof.
  change (NoDup ["u1"; "u2"]%string).
  constructor; [intros [H|[]]; discriminate|].
  constructor; [intros []|constructor].
Defined.

(** X1 on the sample: renaming Usopp writes the new name and the time of the
    change and returns the row so changed; deactivating him returns nothing. *)
Lemma update_sample :
  defines_a_field (mkUserUpdate (Some "sogeking") None None None) = true /\
  defines_a_field (mkUserUpdate None None None (Some false)) = true /\
  fst (UserModel.update Sample.env "u2" (mkUserUpdate (Some "sogeking") None None None)
         (Sample.world Sample.unseeded)) =
  Ok (Some (user_of
              (mkUserRow "u2" "sogeking" "$2a$12$usopp" "2025-01-02 00:00:00"
                 "2025-06-01T12:00:00.000Z" None false true (Some 1) None (Some 0) None
                 (INTEGER 10) None))) /\
  fst (UserModel.update Sample.env "u2" (mkUserUpdate None None None (Some false))
         (Sample.world Sample.unseeded)) = Ok None.
Proof.
  assert (Hname : defines_a_field (mkUserUpdate (Some "sogeking") None None None) = true)
    by reflexivity.
  assert (Hoff : defines_a_field (mkUserUpdate None None None (Some false)) = true)
    by reflexivity.
  split; [exact Hname|]. split; [exact Hoff|]. split.
  - destruct (update_writes_the_defined_columns Sample.env "u2"
                (mkUserUpdate (Some "sogeking") None None None)
                (Sample.world Sample.unseeded) Hname)
      as (_ & _ & _ & Hkept & _).
    exact (Hkept eq_refl).
  - destruct (update_writes_the_defined_columns Sample.env "u2"
                (mkUserUpdate None None None (Some false))
                (Sample.world Sample.unseeded) Hoff)
      as (_ & _ & _ & _ & Hgone).
    exact (Hgone eq_refl).
Defined.

(** X4 on the sample: Nami holds 999,999,990 berrys; a grant of 25 followed
    by a grant of -25 leaves her at 999,999,974, not where she was. *)
Lemma addBerrys_refund_sample :
  SELECT_berrys "u1" Sample.unseeded = Some (INTEGER 999999990) /\
  SELECT_berrys "u1"
    (db (snd (UserModel.addBerrys "u1" (of_int (- 25))
                (snd (UserModel.addBerrys "u1" (of_int 25) (Sample.world Sample.unseeded)))))) =
  Some (INTEGER 999999974).
Proof.
  assert (H : SELECT_berrys "u1" (db (Sample.world Sample.unseeded)) = Some (INTEGER 999999990))
    by reflexivity.
  split; [exact H|].
  assert (Ha : 0 <= 25) by discriminate.
  assert (Hcap : 999999990 <= 999999999) by discriminate.
  exact (proj1 (addBerrys_refund_after_cap "u1" (INTEGER 999999990) 999999990 25
                  (Sample.world Sample.unseeded) H eq_refl Ha eq_refl eq_refl Hcap)).
Defined.

(** X5 on the sample: Usopp holds 10 berrys; the grants 4, 3 and 9 leave him
    where one grant of 16 does, at 26. *)
Lemma grants_compose_sample :
  SELECT_berrys "u2" Sample.unseeded = Some (INTEGER 10) /\
  SELECT_berrys "u2"
    (db (snd (grants "u2" [of_int 4; of_int 3; of_int 9] (Sample.world Sample.unseeded)))) =
    SELECT_berrys "u2"
      (db (snd (UserModel.addBerrys "u2" (of_int 16) (Sample.world Sample.unseeded)))) /\
  SELECT_berrys "u2"
    (db (snd (grants "u2" [of_int 4; of_int 3; of_int 9] (Sample.world Sample.unseeded)))) =
    Some (INTEGER 26).
Proof.
  assert (H : SELECT_berrys "u2" (db (Sample.world Sample.unseeded)) = Some (INTEGER 10))
    by reflexivity.
  assert (Hsome : [4; 3; 9] <> []) by discriminate.
  assert (Hpos : Forall (fun n => 0 <= n /\ int32 n = true) [4; 3; 9])
    by (repeat constructor; discriminate).
  destruct (grants_compose "u2" (INTEGER 10) 10 [4; 3; 9] (Sample.world Sample.unseeded)
              H eq_refl eq_refl eq_refl Hsome Hpos eq_refl) as (Hone & Hsum & _).
  split; [exact H|]. split; [exact Hone|exact Hsum].
Defined.

(** X6 on the sample: Nami holds her baseline and Usopp does not; the pass
    adds one island record and one crew record, both Usopp's. *)
Lemma initializeExistingUsers_adds_sample :
  LedgerContract Sample.working /\
  NoDup (SELECT_active_user_ids Sample.playing) /\
  exists w' ri rc,
    @initializeExistingUsers Sample.working (Sample.world Sample.playing) = (Ok tt, w') /\
    db w' = granted ri rc Sample.playing /\
    map (fun r => (ui_user_id r, ui_island_id r)) ri = [("u2", "island_windmill_village")] /\
    map (fun r => (ucm_user_id r, ucm_crew_member_id r)) rc = [("u2", "crew_luffy")].
Proof.
  split; [apply ledger_contract|]. split; [exact sample_ids_distinct|].
  destruct (initializeExistingUsers_adds_the_missing_records Sample.working (ledger_contract _)
              (Sample.world Sample.playing) sample_ids_distinct)
    as (w' & ri & rc & Hrun & Hdb & Hri & Hrc & _).
  exists w', ri, rc. split; [exact Hrun|]. split; [exact Hdb|].
  split; [exact Hri|exact Hrc].
Defined.

(** X7 on the sample: one user lacks the baseline, and the pass reports one. *)
Lemma initializeExistingUsers_counts_sample :
  LedgerContract Sample.working /\
  exists w' earlier,
    @initializeExistingUsers Sample.working (Sample.world Sample.playing) = (Ok tt, w') /\
    console w' = earlier ++ [report 1].
Proof.
  split; [apply ledger_contract|].
  exact (proj2 (initializeExistingUsers_counts_the_repaired Sample.working (ledger_contract _)
                  (Sample.world Sample.playing) sample_ids_distinct)).
Defined.

(** X8 on the sample: once Usopp's account is deleted, the only active user,
    Nami, holds her baseline, and the pass with the ledger that always throws
    completes without a change. *)
Lemma initializeExistingUsers_held_sample :
  (forall u,
      In u (SELECT_active_user_ids
              (db (snd (UserModel.delete Sample.env "u2" (Sample.world Sample.playing))))) ->
      has_baseline u (db (snd (UserModel.delete Sample.env "u2" (Sample.world Sample.playing))))
      = true) /\
  db (snd (@initializeExistingUsers Sample.failing
             (snd (UserModel.delete Sample.env "u2" (Sample.world Sample.playing))))) =
  db (snd (UserModel.delete Sample.env "u2" (Sample.world Sample.playing))) /\
  fst (@initializeExistingUsers Sample.failing
         (snd (UserModel.delete Sample.env "u2" (Sample.world Sample.playing)))) = Ok tt.
Proof.
  assert (H : forall u,
             In u (SELECT_active_user_ids
                     (db (snd (UserModel.delete Sample.env "u2" (Sample.world Sample.playing))))) ->
             has_baseline u
               (db (snd (UserModel.delete Sample.env "u2" (Sample.world Sample.playing))))
             = true)
    by (intros u [<-|[]]; reflexivity).
  split; [exact H|].
  destruct (initializeExistingUsers_needs_no_ledger_when_held Sample.failing Sample.working
              (snd (UserModel.delete Sample.env "u2" (Sample.world Sample.playing))) H)
    as (Hrun & _ & _).
  rewrite Hrun. split; reflexivity.
Defined.

(** X12 on the sample: seeding again the store in play empties the quest
    history and the quests under way and leaves each of the two users with
    the root island and Luffy only. *)
Lemma seedWorldMapData_reload_sample :
  LedgerContract Sample.working /\
  t_islands Sample.playing <> [] /\
  t_quest_history Sample.playing = [Sample.collected] /\
  exists w',
    @seedWorldMapData Sample.working (Sample.world Sample.playing) = (Ok tt, w') /\
    t_active_quests (db w') = [] /\
    t_quest_history (db w') = [] /\
    map (fun r => (ui_user_id r, ui_island_id r)) (t_user_islands (db w')) =
      [("u1", "island_windmill_village"); ("u2", "island_windmill_village")] /\
    map (fun r => (ucm_user_id r, ucm_crew_member_id r)) (t_user_crew_members (db w')) =
      [("u1", "crew_luffy"); ("u2", "crew_luffy")].
Proof.
  assert (Hrows : t_islands (db (Sample.world Sample.playing)) <> []) by discriminate.
  split; [apply ledger_contract|]. split; [exact Hrows|]. split; [reflexivity|].
  destruct (seedWorldMapData_reload_resets_progress Sample.working (ledger_contract _)
              (Sample.world Sample.playing) Hrows sample_ids_distinct)
    as (w' & Hrun & Haq & Hqh & Hui & Hucm & _).
  exists w'. split; [exact Hrun|]. split; [exact Haq|]. split; [exact Hqh|].
  split; [exact Hui|exact Hucm].
Defined.

(** X13 on the sample: seeding the store that has no catalog, and seeding the
    result again, give the same three catalog tables. *)
Lemma seedWorldMapData_stable_sample :
  LedgerContract Sample.working /\
  (t_islands Sample.unseeded = [] ->
   t_crew_members Sample.unseeded = [] /\ t_quests Sample.unseeded = []) /\
  exists w1 w2,
    @seedWorldMapData Sample.working (Sample.world Sample.unseeded) = (Ok tt, w1) /\
    @seedWorldMapData Sample.working w1 = (Ok tt, w2) /\
    t_islands (db w2) = t_islands (db w1) /\
    t_crew_members (db w2) = t_crew_members (db w1) /\
    t_quests (db w2) = t_quests (db w1).
Proof.
  assert (Hblank : t_islands (db (Sample.world Sample.unseeded)) = [] ->
                   t_crew_members (db (Sample.world Sample.unseeded)) = [] /\
                   t_quests (db (Sample.world Sample.unseeded)) = [])
    by (intros _; split; reflexivity).
  split; [apply ledger_contract|]. split; [exact Hblank|].
  destruct (seedWorldMapData_catalog_is_stable Sample.working (ledger_contract _)
              (Sample.world Sample.unseeded) Hblank)
    as (w1 & w2 & Hrun1 & Hrun2 & _ & _ & _ & Hi & Hc & Hq & _).
  exists w1, w2. split; [exact Hrun1|]. split; [exact Hrun2|].
  split; [exact Hi|]. split; [exact Hc|exact Hq].
Defined.

(** X14 on the sample: after seeding the store that has no catalog, the
    coordinate update leaves the store as it is. *)
Lemma updateIslandCoordinates_after_seed_sample :
  LedgerContract Sample.working /\
  exists w' w'',
    @seedWorldMapData Sample.working (Sample.world Sample.unseeded) = (Ok tt, w') /\
    updateIslandCoordinates w' = (Ok tt, w'') /\
    db w'' = db w'.
Proof.
  split; [apply ledger_contract|].
  exact (updateIslandCoordinates_after_seed_changes_nothing Sample.working (ledger_contract _)
           (Sample.world Sample.unseeded)).
Defined.

(** X15 on the sample: Robin's account is created while the ledger is out
    of order; she holds nothing until the next pass, and the baseline after
    it. *)
Lemma failed_baseline_sample :
  LedgerContract Sample.working /\
  (forall u i w, exists e w1,
      @unlockIsland Sample.failing u i w = (Throw e, w1) /\ db w1 = db w) /\
  u_is_active (users_defaults Sample.unseeded) = true /\
  exists user w1 w2,
    @UserModel.create Sample.failing Sample.env (mkUserCreate "robin" "poneglyph")
      (Sample.world Sample.unseeded) = (Ok user, w1) /\
    t_user_islands (db w1) = [] /\
    t_user_crew_members (db w1) = [] /\
    @initializeExistingUsers Sample.working w1 = (Ok tt, w2) /\
    has_baseline (uuidv4 Sample.env) (db w2) = true.
Proof.
  assert (Hfails : forall u i w, exists e w1,
             @unlockIsland Sample.failing u i w = (Throw e, w1) /\ db w1 = db w)
    by (intros u i w; exists (Error "SQLITE_BUSY: database is locked"), w; split; reflexivity).
  assert (Hactive : u_is_active (users_defaults (db (Sample.world Sample.unseeded))) = true)
    by reflexivity.
  split; [apply ledger_contract|]. split; [exact Hfails|]. split; [exact Hactive|].
  destruct (failed_baseline_is_repaired_by_the_next_pass Sample.failing Sample.working
              (ledger_contract _) Hfails Sample.env (mkUserCreate "robin" "poneglyph")
              (Sample.world Sample.unseeded) Hactive)
    as (user & w1 & w2 & Hcreate & Hui & Hucm & Hrun & Hheld).
  exists user, w1, w2. split; [exact Hcreate|]. split; [exact Hui|]. split; [exact Hucm|].
  split; [exact Hrun|exact Hheld].
Defined.

(** X18 on the sample: with the importer, the achievement service and the
    ledger all out of order, start-up completes. *)
Lemma initializeApp_sample :
  (forall w, exists w', @Database_initialize Sample.degraded w = (Ok tt, w')) /\
  (forall w, exists w', @MigrationManager_migrate Sample.degraded w = (Ok tt, w')) /\
  (forall w, exists n w', @BoosterModel_count Sample.degraded w = (Ok n, w')) /\
  exists w1,
    @initializeApp Sample.degraded Sample.failing (Sample.world Sample.unseeded) =
    (Ok tt, logged (console_log "🎉 Application initialisée avec succès") w1).
Proof.
  assert (H1 : forall w, exists w', @Database_initialize Sample.degraded w = (Ok tt, w'))
    by (intros w; exists w; reflexivity).
  assert (H2 : forall w, exists w', @MigrationManager_migrate Sample.degraded w = (Ok tt, w'))
    by (intros w; exists w; reflexivity).
  assert (H3 : forall w, exists n w', @BoosterModel_count Sample.degraded w = (Ok n, w'))
    by (intros w; exists 0, w; reflexivity).
  split; [exact H1|]. split; [exact H2|]. split; [exact H3|].
  exact (initializeApp_needs_only_its_required_steps Sample.degraded Sample.failing H1 H2 H3
           (Sample.world Sample.unseeded)).
Defined.

(** X20 on the sample: Usopp logs in; the lookup by name and the lookup by
    id then both return his row with the login time. *)
Lemma login_sample :
  NoDup (SELECT_active_user_ids Sample.unseeded) /\
  fst (UserModel.findByUsername "usopp" (Sample.world Sample.unseeded)) = Ok (Some Sample.usopp) /\
  fst (UserModel.findById "u2" (Sample.world Sample.unseeded)) = Ok (Some (user_of Sample.usopp)) /\
  fst (UserModel.findByUsername "usopp"
         (snd (UserModel.updateLastLogin Sample.env "u2" (Sample.world Sample.unseeded)))) =
  Ok (Some (mkUserRow "u2" "usopp" "$2a$12$usopp" "2025-01-02 00:00:00" "2025-01-02 00:00:00"
              (Some "2025-06-01T12:00:00.000Z") false true (Some 1) None (Some 0) None
              (INTEGER 10) None)).
Proof.
  assert (Hfound : fst (UserModel.findByUsername "usopp" (Sample.world Sample.unseeded)) =
                   Ok (Some Sample.usopp)) by reflexivity.
  split; [exact sample_ids_distinct|]. split; [exact Hfound|].
  destruct (login_round_trip Sample.env "usopp" Sample.usopp (Sample.world Sample.unseeded)
              sample_ids_distinct Hfound)
    as (_ & _ & Hbyid & Hstamped & _).
  split; [exact Hbyid|exact Hstamped].
Defined.

(** X9 on the sample: with the ledger that always throws, the pass over the
    store in play (Usopp lacks his baseline) and the seeding of that store
    both throw the ledger's error after reporting it. *)
Lemma errors_rethrown_sample :
  (exists u, In u (SELECT_active_user_ids Sample.playing) /\
             has_baseline u Sample.playing = false) /\
  t_islands Sample.playing <> [] /\
  SELECT_active_user_ids Sample.playing <> [] /\
  (exists w1,
      @initializeExistingUsers Sample.failing (Sample.world Sample.playing) =
      (Throw (Error "SQLITE_BUSY: database is locked"),
       logged (users_failure (Error "SQLITE_BUSY: database is locked")) w1)) /\
  (exists w1,
      @seedWorldMapData Sample.failing (Sample.world Sample.playing) =
      (Throw (Error "SQLITE_BUSY: database is locked"),
       logged (seed_failure (Error "SQLITE_BUSY: database is locked")) w1)).
Proof.
  assert (Hisland : forall u i w, exists w1,
             @unlockIsland Sample.failing u i w =
             (Throw (Error "SQLITE_BUSY: database is locked"), w1))
    by (intros u i w; exists w; reflexivity).
  assert (Hcrew : forall u c w, exists w1,
             @unlockCrewMember Sample.failing u c w =
             (Throw (Error "SQLITE_BUSY: database is locked"), w1))
    by (intros u c w; exists w; reflexivity).
  assert (Hlacks : exists u, In u (SELECT_active_user_ids (db (Sample.world Sample.playing))) /\
                             has_baseline u (db (Sample.world Sample.playing)) = false)
    by (exists "u2"%string; split; [right; left; reflexivity|reflexivity]).
  assert (Hrows : t_islands (db (Sample.world Sample.playing)) <> []) by discriminate.
  assert (Husers : SELECT_active_user_ids (db (Sample.world Sample.playing)) <> [])
    by discriminate.
  destruct (errors_are_logged_and_rethrown Sample.failing
              (Error "SQLITE_BUSY: database is locked") Hisland Hcrew
              (Sample.world Sample.playing)) as [Hpass Hseed].
  split; [exact Hlacks|]. split; [exact Hrows|]. split; [exact Husers|].
  split; [exact (Hpass Hlacks)|exact (Hseed Hrows Husers)].
Defined.
